(** * Temper: a uniform front-end over template engines

    A shallow embedding of [index.js] of bigpipe/temper and the proofs of
    the properties its specification states.

    The embedding follows [index.js] as it is now.  Of the earlier
    revision that the sources keep beside it, two functions that differ are
    embedded as well: [destroy] written out in place ([destroy_written];
    the current file gets it from [demolish]) and the loop of [Temper.html]
    with the value itself as replacer ([html_value]).

    The instance is a record of finite maps, one per cache; artifacts are
    objects of a heap and the compiled cache holds references to them; the
    methods run in a state-and-exception monad over instance and heap; the
    module loader, the file system, the environment and the digest are the
    fields of a world [Env] that every call receives.

    JavaScript strings are modelled as [string]; every character stands for
    one UTF-16 code unit below 256, which is where the character classes
    used by the source ([0-9], [\w], line terminators, JSON escapes) take
    their decisions.  A property that may hold any JavaScript value is kept
    in the form in which the code consumes it: the string that a
    substitution inserts for a value of a data record, the truthiness of
    the [cache] option. *)

From Stdlib Require Import Ascii String List Bool Arith Lia.
From stdpp Require Import base option list gmap strings.

Local Open Scope string_scope.
Local Open Scope list_scope.

(** ** Strings *)

Module Str.

(** [s.indexOf(needle) !== -1] *)
Fixpoint includes (needle s : string) : bool :=
  String.prefix needle s ||
  match s with
  | EmptyString => false
  | String _ rest => includes needle rest
  end.

Fixpoint forallb (p : ascii -> bool) (s : string) : bool :=
  match s with
  | EmptyString => true
  | String c rest => p c && forallb p rest
  end.

Fixpoint filter (p : ascii -> bool) (s : string) : string :=
  match s with
  | EmptyString => EmptyString
  | String c rest => if p c then String c (filter p rest) else filter p rest
  end.

Fixpoint drop_while (p : ascii -> bool) (s : string) : string :=
  match s with
  | EmptyString => EmptyString
  | String c rest => if p c then drop_while p rest else s
  end.

Fixpoint take_while (p : ascii -> bool) (s : string) : string :=
  match s with
  | EmptyString => EmptyString
  | String c rest => if p c then String c (take_while p rest) else EmptyString
  end.

Fixpoint drop (n : nat) (s : string) : string :=
  match n, s with
  | O, _ => s
  | S _, EmptyString => EmptyString
  | S k, String _ rest => drop k rest
  end.

Fixpoint take (n : nat) (s : string) : string :=
  match n, s with
  | O, _ => EmptyString
  | S _, EmptyString => EmptyString
  | S k, String c rest => String c (take k rest)
  end.

Definition rev (s : string) : string := stdpp.strings.String.rev s.

(** [s.endsWith(suffix)] *)
Definition ends_with (suffix s : string) : bool :=
  String.prefix (rev suffix) (rev s).

Definition is_digit (c : ascii) : bool :=
  let n := nat_of_ascii c in (48 <=? n)%nat && (n <=? 57)%nat.

Definition is_upper (c : ascii) : bool :=
  let n := nat_of_ascii c in (65 <=? n)%nat && (n <=? 90)%nat.

Definition is_lower (c : ascii) : bool :=
  let n := nat_of_ascii c in (97 <=? n)%nat && (n <=? 122)%nat.

(** The class [\w] of a regular expression without the [i] and [u]
    flags: [A-Za-z0-9_]. *)
Definition is_word (c : ascii) : bool :=
  is_upper c || is_lower c || is_digit c || Ascii.eqb c "_".

End Str.

(** ** Node's [path] module (POSIX flavour)

    [path.extname] and [path.basename] are built-ins of the platform; they
    are modelled after their documented behaviour on POSIX paths. *)

Module Path.

Definition is_slash (c : ascii) : bool := Ascii.eqb c "/".
Definition is_dot (c : ascii) : bool := Ascii.eqb c ".".

(** The last component of a path: trailing separators are ignored and the
    component runs back to the previous separator. *)
Definition last_component (p : string) : string :=
  Str.rev (Str.take_while (fun c => negb (is_slash c))
             (Str.drop_while is_slash (Str.rev p))).

(** [path.extname(p)]: from the last dot of the last component to its
    end; empty when there is no dot, when the only dot is the first
    character of the component, and for the component [..]. *)
Definition extname (p : string) : string :=
  let seg := last_component p in
  let rseg := Str.rev seg in
  let after := Str.take_while (fun c => negb (is_dot c)) rseg in
  match Str.drop_while (fun c => negb (is_dot c)) rseg with
  | EmptyString => EmptyString            (* no dot at all *)
  | String _ EmptyString => EmptyString   (* the dot starts the component *)
  | String _ _ =>
      if String.eqb seg ".." then EmptyString
      else String "." (Str.rev after)
  end.

(** [path.basename(p, ext)]: the last component, without [ext] when the
    component ends with it and is more than it. *)
Definition basename (p ext : string) : string :=
  let seg := last_component p in
  if (0 <? String.length ext)%nat && (String.length ext <=? String.length p)%nat then
    if String.eqb ext p then EmptyString
    else if Str.ends_with ext seg && negb (String.eqb ext seg)
         then Str.take (String.length seg - String.length ext) seg
         else seg
  else seg.

End Path.

(** ** [Temper.prototype.normalizeName] *)

(** [name.replace(/^[0-9]+/, '')] *)
Definition remove_leading_numbers (name : string) : string :=
  Str.drop_while Str.is_digit name.

(** The characters kept by [.replace(/[^\w$]/g, '')]. *)
Definition is_identifier_char (c : ascii) : bool :=
  Str.is_word c || Ascii.eqb c "$".

Definition remove_invalid_chars (name : string) : string :=
  Str.filter is_identifier_char name.

Definition normalizeName (file : string) : string :=
  let name := Path.basename file (Path.extname file) in
  remove_invalid_chars (remove_leading_numbers name).

(** ** Outcomes of JavaScript calls *)

Inductive JsError :=
| Error (message : string)
| TypeError (message : string)
| SyntaxError (message : string).

(** The outcome of a render call.  [NotModelled] marks a call that leaves
    the fragment of regular expressions covered by [RegExp] below; nothing
    is claimed about such a call. *)
Inductive Outcome :=
| Returns (s : string)
| Throws (e : JsError)
| NotModelled.

(** ** Data records

    A data record is an object with own properties, listed in the order in
    which the engine enumerates them, and an optional prototype.  The value
    of a property is kept as the string that a substitution inserts. *)

Record Property := {
  p_key : string;
  p_value : string;
  p_enumerable : bool
}.

#[warnings="-register-all"]
Inductive JsObject :=
| Obj (own : list Property) (proto : option JsObject).

Definition own_properties (o : JsObject) : list Property :=
  match o with Obj own _ => own end.

Definition mem (k : string) (ks : list string) : bool :=
  existsb (String.eqb k) ks.

(** [Object.prototype.hasOwnProperty.call(o, key)] *)
Definition hasOwnProperty (o : JsObject) (key : string) : bool :=
  mem key (map p_key (own_properties o)).

Fixpoint lookup_property (key : string) (ps : list Property) : option Property :=
  match ps with
  | [] => None
  | p :: ps' => if String.eqb key (p_key p) then Some p else lookup_property key ps'
  end.

(** [o[key]]: own properties first, then the prototype chain. *)
Fixpoint get (o : JsObject) (key : string) : option string :=
  match o with
  | Obj own proto =>
      match lookup_property key own with
      | Some p => Some (p_value p)
      | None => match proto with
                | Some parent => get parent key
                | None => None
                end
      end
  end.

(** The keys visited by [for (key in o)]: the enumerable own properties,
    then those of the prototype chain that no nearer object shadows. *)
Fixpoint for_in (shadowed : list string) (o : JsObject) : list string :=
  match o with
  | Obj own proto =>
      map p_key
        (List.filter (fun p => p_enumerable p && negb (mem (p_key p) shadowed)) own)
      ++ match proto with
         | Some parent => for_in (shadowed ++ map p_key own) parent
         | None => []
         end
  end.

(** [String(v)] of a looked-up value. *)
Definition to_string (v : option string) : string :=
  match v with
  | Some s => s
  | None => "undefined"
  end.

(** An object literal [{ k1: v1, ... }] and [Object.create(null)] filled by
    assignments: enumerable own properties; the prototype of a literal is
    [Object.prototype], none of whose properties is enumerable. *)
Definition property (kv : string * string) : Property :=
  {| p_key := kv.1; p_value := kv.2; p_enumerable := true |}.

Definition object_prototype : JsObject :=
  Obj [ {| p_key := "constructor"; p_value := "function Object() { [native code] }";
           p_enumerable := false |};
        {| p_key := "hasOwnProperty"; p_value := "function hasOwnProperty() { [native code] }";
           p_enumerable := false |};
        {| p_key := "toString"; p_value := "function toString() { [native code] }";
           p_enumerable := false |} ] None.

Definition object_literal (kvs : list (string * string)) : JsObject :=
  Obj (map property kvs) (Some object_prototype).

Definition object_create_null (kvs : list (string * string)) : JsObject :=
  Obj (map property kvs) None.

(** ** Regular expressions and [String.prototype.replace]

    The fragment of patterns that is modelled: sequences of literal
    characters and [.], and the early error for a braced quantifier with
    nothing to repeat.  Inside this fragment a pattern has one length, so a
    global replace is a left-to-right scan. *)

Module RegExp.

Inductive PatternChar :=
| Char (c : ascii)
| AnyChar.

(** [Invalid] is the early [SyntaxError] of the constructor; it carries the
    reason, which the engine wraps into a message of its own that also
    shows the source of the pattern. *)
Inductive Compiled :=
| Pattern (p : list PatternChar)
| Invalid (message : string)
| Unsupported.

(** Syntax characters whose meaning is outside the fragment. *)
Definition is_unsupported (c : ascii) : bool :=
  existsb (Ascii.eqb c)
    ["^"; "$"; "\"; "*"; "+"; "?"; "("; ")"; "["; "|"]%char.

(** What follows an opening brace in [{n}], [{n,}] and [{n,m}]. *)
Definition quantifier_prefix (s : string) : bool :=
  (0 <? String.length (Str.take_while Str.is_digit s))%nat &&
  match Str.drop_while Str.is_digit s with
  | String "}" _ => true
  | String "," r =>
      match Str.drop_while Str.is_digit r with
      | String "}" _ => true
      | _ => false
      end
  | _ => false
  end.

(** [new RegExp(source, 'g')] *)
Fixpoint parse (atom_before : bool) (source : string) : Compiled :=
  match source with
  | EmptyString => Pattern []
  | String c rest =>
      if is_unsupported c then Unsupported
      else if Ascii.eqb c "{" && quantifier_prefix rest then
        if atom_before then Unsupported else Invalid "Nothing to repeat"
      else
        match parse true rest with
        | Pattern p => Pattern ((if Ascii.eqb c "." then AnyChar else Char c) :: p)
        | other => other
        end
  end.

Definition compile (source : string) : Compiled := parse false source.

Definition is_line_terminator (c : ascii) : bool :=
  Ascii.eqb c "010" || Ascii.eqb c "013".

Definition matches_char (pc : PatternChar) (c : ascii) : bool :=
  match pc with
  | Char d => Ascii.eqb d c
  | AnyChar => negb (is_line_terminator c)
  end.

(** A match of the pattern at the start of [s]: the matched text and
    what follows it. *)
Fixpoint match_prefix (p : list PatternChar) (s : string) : option (string * string) :=
  match p with
  | [] => Some (EmptyString, s)
  | pc :: p' =>
      match s with
      | EmptyString => None
      | String c rest =>
          if matches_char pc c then
            match match_prefix p' rest with
            | Some (m, after) => Some (String c m, after)
            | None => None
            end
          else None
      end
  end.

(** The second argument of [replace]. *)
Inductive Replacer :=
| ReplaceValue (replacement : string)
| ReplaceFunction (f : string -> string).

(** The replacement patterns of a string replacer (no capture groups):
    [$$], [$&], [$`] and [$']. *)
Fixpoint substitution (replacement matched before after : string) : string :=
  match replacement with
  | EmptyString => EmptyString
  | String "$" (String "$" r) => String "$" (substitution r matched before after)
  | String "$" (String "&" r) => matched +:+ substitution r matched before after
  | String "$" (String "`" r) => before +:+ substitution r matched before after
  | String "$" (String "'" r) => after +:+ substitution r matched before after
  | String c r => String c (substitution r matched before after)
  end.

Definition replacement_for (r : Replacer) (matched before after : string) : string :=
  match r with
  | ReplaceValue v => substitution v matched before after
  | ReplaceFunction f => f matched
  end.

(** [s.replace(/p/g, r)]: [before] is the text already scanned, [skip]
    the number of characters of the current match still to pass. *)
Fixpoint replace_from (p : list PatternChar) (r : Replacer)
    (before : string) (skip : nat) (s : string) : string :=
  match s with
  | EmptyString =>
      match skip, match_prefix p EmptyString with
      | O, Some (m, after) => replacement_for r m before after
      | _, _ => EmptyString
      end
  | String c rest =>
      match skip with
      | S k => replace_from p r (before +:+ String c EmptyString) k rest
      | O =>
          match match_prefix p s with
          | Some (EmptyString, after) =>
              replacement_for r EmptyString before after
              +:+ String c (replace_from p r (before +:+ String c EmptyString) 0 rest)
          | Some (String d m, after) =>
              replacement_for r (String d m) before after
              +:+ replace_from p r (before +:+ String c EmptyString) (String.length m) rest
          | None =>
              String c (replace_from p r (before +:+ String c EmptyString) 0 rest)
          end
      end
  end.

Definition replace_all (p : list PatternChar) (r : Replacer) (s : string) : string :=
  replace_from p r EmptyString 0 s.

(** [s.replace(pattern, replacement)] with a string pattern: the first
    occurrence only. *)
Fixpoint replace_first_from (pattern replacement before s : string) : string :=
  if String.prefix pattern s then
    substitution replacement pattern before (Str.drop (String.length pattern) s)
    +:+ Str.drop (String.length pattern) s
  else
    match s with
    | EmptyString => EmptyString
    | String c rest =>
        String c (replace_first_from pattern replacement (before +:+ String c EmptyString) rest)
    end.

Definition replace_first (pattern replacement s : string) : string :=
  replace_first_from pattern replacement EmptyString s.

End RegExp.

(** ** [Temper.html]: the pass-through engine *)

(** One round of the loop of [Temper.html] in [index.js] as it is now:
    the replacer is the function [hack], which returns [data[key]]. *)
Definition html_step (data : JsObject) (key : string) (template : string) : Outcome :=
  if hasOwnProperty data key then
    match RegExp.compile ("{" +:+ key +:+ "}") with
    | RegExp.Pattern p =>
        Returns (RegExp.replace_all p
                   (RegExp.ReplaceFunction (fun _ => to_string (get data key))) template)
    | RegExp.Invalid m => Throws (SyntaxError m)
    | RegExp.Unsupported => NotModelled
    end
  else Returns template.

Fixpoint html_loop (step : string -> string -> Outcome) (keys : list string)
    (template : string) : Outcome :=
  match keys with
  | [] => Returns template
  | key :: keys' =>
      match step key template with
      | Returns template' => html_loop step keys' template'
      | other => other
      end
  end.

Definition html (template : string) (data : JsObject) : Outcome :=
  html_loop (html_step data) (for_in [] data) template.

(** The loop body of the earlier [Temper.html], which hands [data[key]]
    itself to [replace].  A value that is no function is turned into a
    string and used as a replacement string.  A value that is a function
    is called by [replace] as the replacer; a record keeps of a value only
    the string that stands for it, so [function_valued] says which own
    keys hold a function, and a round on such a key is outside what is
    modelled. *)
Definition html_step_value (function_valued : string -> bool) (data : JsObject)
    (key : string) (template : string) : Outcome :=
  if hasOwnProperty data key then
    match RegExp.compile ("{" +:+ key +:+ "}") with
    | RegExp.Pattern p =>
        if function_valued key then NotModelled
        else
          Returns (RegExp.replace_all p
                     (RegExp.ReplaceValue (to_string (get data key))) template)
    | RegExp.Invalid m => Throws (SyntaxError m)
    | RegExp.Unsupported => NotModelled
    end
  else Returns template.

Definition html_value (function_valued : string -> bool) (template : string)
    (data : JsObject) : Outcome :=
  html_loop (html_step_value function_valued data) (for_in [] data) template.

(** A record none of whose values is a function. *)
Definition no_function : string -> bool := fun _ => false.

(** ** [JSON.stringify] of a string, and reading a string literal back *)

Module Json.

Definition hex_digit (n : nat) : ascii :=
  if (n <? 10)%nat then ascii_of_nat (48 + n) else ascii_of_nat (87 + n).

Definition hex_value (c : ascii) : option nat :=
  let n := nat_of_ascii c in
  if Str.is_digit c then Some (n - 48)
  else if (97 <=? n)%nat && (n <=? 102)%nat then Some (n - 87)
  else if (65 <=? n)%nat && (n <=? 70)%nat then Some (n - 55)
  else None.

(** The escape of one code unit in [QuoteJSONString]. *)
Definition quote_char (c : ascii) : string :=
  let n := nat_of_ascii c in
  if Ascii.eqb c "034" then String "\" (String "034" EmptyString)
  else if Ascii.eqb c "\" then "\\"
  else if (n =? 8)%nat then "\b"
  else if (n =? 9)%nat then "\t"
  else if (n =? 10)%nat then "\n"
  else if (n =? 12)%nat then "\f"
  else if (n =? 13)%nat then "\r"
  else if (n <? 32)%nat then
    String "\" (String "u" (String "0" (String "0"
      (String (hex_digit (n / 16)) (String (hex_digit (n mod 16)) EmptyString)))))
  else String c EmptyString.

Fixpoint quote_body (s : string) : string :=
  match s with
  | EmptyString => EmptyString
  | String c rest => quote_char c +:+ quote_body rest
  end.

(** [JSON.stringify(s)] for a string [s]. *)
Definition stringify (s : string) : string :=
  String "034" (quote_body s +:+ String "034" EmptyString).

Definition single_escape (c : ascii) : option ascii :=
  if Ascii.eqb c "b" then Some (ascii_of_nat 8)
  else if Ascii.eqb c "t" then Some (ascii_of_nat 9)
  else if Ascii.eqb c "n" then Some (ascii_of_nat 10)
  else if Ascii.eqb c "v" then Some (ascii_of_nat 11)
  else if Ascii.eqb c "f" then Some (ascii_of_nat 12)
  else if Ascii.eqb c "r" then Some (ascii_of_nat 13)
  else if Ascii.eqb c "034" || Ascii.eqb c "'" || Ascii.eqb c "\" || Ascii.eqb c "/"
       then Some c
  else None.

Definition unicode_escape (a b c d : ascii) : option ascii :=
  match hex_value a, hex_value b, hex_value c, hex_value d with
  | Some 0, Some 0, Some h, Some l => Some (ascii_of_nat (16 * h + l))
  | _, _, _, _ => None
  end.

(** The characters of a double-quoted string literal of a script, up to
    its closing quote: the value of the literal and what follows it.
    [None] for text that is no literal, or one with a code unit or an
    escape outside the modelled range. *)
Fixpoint read_literal_body (s : string) : option (string * string) :=
  match s with
  | EmptyString => None
  | String "034" rest => Some (EmptyString, rest)
  | String "\" (String "u" (String a (String b (String c (String d rest))))) =>
      match unicode_escape a b c d, read_literal_body rest with
      | Some ch, Some (v, after) => Some (String ch v, after)
      | _, _ => None
      end
  | String "\" (String e rest) =>
      match single_escape e, read_literal_body rest with
      | Some ch, Some (v, after) => Some (String ch v, after)
      | _, _ => None
      end
  | String c rest =>
      if RegExp.is_line_terminator c || Ascii.eqb c "\" then None
      else match read_literal_body rest with
           | Some (v, after) => Some (String c v, after)
           | None => None
           end
  end.

Definition read_literal (s : string) : option (string * string) :=
  match s with
  | String "034" rest => read_literal_body rest
  | _ => None
  end.

End Json.

(** ** The client of the pass-through engine *)

Definition LF : string := String "010" EmptyString.

(** [Temper.html.toString()]: the text of the function in [index.js]. *)
Definition html_source : string :=
"function html(template, data, key) {
  var has = Object.prototype.hasOwnProperty;

  for (key in data) {
    if (has.call(data, key)) {
      //
      // Prevent
      // https://developer.mozilla.org/en-US/docs/Web/JavaScript/Reference/Global_Objects/String/replace#Specifying_a_string_as_a_parameter
      // from messing up the content.
      //
      template = template.replace(new RegExp('{'+ key +'}','g'), function hack() {
        return data[key];
      });
    }
  }

  return template;
}".

(** [new Function('data', body).toString()] *)
Definition new_Function_source (body : string) : string :=
  "function anonymous(data" +:+ LF +:+ ") {" +:+ LF +:+ body +:+ LF +:+ "}".

(** [Temper.prototype.transform], on the text of [fn]. *)
Definition transform (fn_source : string) (name : option string) : string :=
  RegExp.replace_first "function anonymous" ("function " +:+ to_string name) fn_source.

Definition html_client_body (template : string) : string :=
  html_source +:+ LF +:+ "return html(" +:+ Json.stringify template +:+ ", data || {});".

Definition html_client (template : string) (name : option string) : string :=
  transform (new_Function_source (html_client_body template)) name.

(** [data || {}] *)
Definition or_empty (data : option JsObject) : JsObject :=
  match data with
  | Some d => d
  | None => object_literal []
  end.

(** The server of the pass-through engine:
    [function render(data) { return Temper.html(template, data || {}); }] *)
Definition html_server (template : string) (data : option JsObject) : Outcome :=
  html template (or_empty data).

(** *** Evaluating the client

    [(new Function('return ' + client))()] is modelled for the scripts that
    have the shape produced above: a function expression with an optional
    name, the parameter [data], the text of [html] and one call of it on a
    string literal. *)

Definition reserved_words : list string :=
  [ "break"; "case"; "catch"; "class"; "const"; "continue"; "debugger";
    "default"; "delete"; "do"; "else"; "enum"; "export"; "extends"; "false";
    "finally"; "for"; "function"; "if"; "import"; "in"; "instanceof"; "new";
    "null"; "return"; "super"; "switch"; "this"; "throw"; "true"; "try";
    "typeof"; "var"; "void"; "while"; "with" ].

Definition is_identifier (name : string) : bool :=
  match name with
  | EmptyString => false
  | String c _ =>
      negb (Str.is_digit c) && Str.forallb is_identifier_char name
      && negb (mem name reserved_words)
  end.

(** The globals that the text of [html] refers to.  The name of a function
    expression is bound inside its body, so under one of these names the
    body would reach the client itself instead of the built-in. *)
Definition captured_globals : list string := ["Object"; "RegExp"].

(** The name of a function expression under which the script is evaluated
    here: absent, or an identifier that captures no global of the body. *)
Definition is_function_name (name : string) : bool :=
  match name with
  | EmptyString => true
  | _ => is_identifier name && negb (mem name captured_globals)
  end.

Definition strip_prefix (p s : string) : option string :=
  if String.prefix p s then Some (Str.drop (String.length p) s) else None.

Definition not_paren (c : ascii) : bool := negb (Ascii.eqb c "(").

(** The template bound by a client script of the modelled shape. *)
Definition evaluate_client (script : string) : option string :=
  match strip_prefix "function " script with
  | None => None
  | Some after_keyword =>
      if is_function_name (Str.take_while not_paren after_keyword) then
        match strip_prefix ("(data" +:+ LF +:+ ") {" +:+ LF +:+ html_source +:+ LF
                            +:+ "return html(")
                (Str.drop_while not_paren after_keyword) with
        | None => None
        | Some literal =>
            match Json.read_literal literal with
            | Some (template, rest) =>
                if String.eqb rest (", data || {});" +:+ LF +:+ "}")
                then Some template else None
            | None => None
            end
        end
      else None
  end.

(** Calling the evaluated client on a data record. *)
Definition call_client (script : string) (data : option JsObject) : Outcome :=
  match evaluate_client script with
  | Some template => html template (or_empty data)
  | None => NotModelled
  end.

(** ** Backends

    A template engine is an opaque capability: a module with some of the
    methods that [compile] calls, each taking the template and an options
    object.  What a method returns is a value of which the code uses the
    text ([toString]) and, for the server, the behaviour. *)

Inductive Result (A : Type) :=
| Ok (a : A)
| Throw (e : JsError).
Arguments Ok {A} a.
Arguments Throw {A} e.

Definition message (e : JsError) : string :=
  match e with
  | Error m | TypeError m | SyntaxError m => m
  end.

Inductive Atom :=
| AUndefined
| ABool (b : bool)
| ANumber (n : nat)
| AString (s : string).

(** An options object literal, property by property. *)
Definition Options := list (string * Atom).

Record JsFunction := {
  fn_source : string;
  fn_call : option JsObject -> Outcome
}.

Inductive Value :=
| VUndefined
| VString (s : string)
| VFunction (f : JsFunction)
| VTemplate (render : option JsObject -> Outcome).

Definition Method := string -> Options -> Result Value.

Record Compiler := {
  m_compile : option Method;
  m_precompile : option Method;
  m_compileClient : option Method;
  m_client : option Method;
  m_server : option Method
}.

(** [v.toString()] *)
Definition value_toString (v : Value) : Result string :=
  match v with
  | VUndefined => Throw (TypeError "Cannot read property 'toString' of undefined")
  | VString s => Ok s
  | VFunction f => Ok (fn_source f)
  | VTemplate _ => Ok "[object Object]"
  end.

(** The text of an element in [Array.prototype.join]. *)
Definition value_join (v : Value) : string :=
  match v with
  | VUndefined => EmptyString
  | VString s => s
  | VFunction f => fn_source f
  | VTemplate _ => "[object Object]"
  end.

(** The [server] of an artifact. *)
Inductive Server :=
| HoganServer (template : Value)
| BackendServer (v : Value)
| HtmlServer (template : string)
| NoServer.

Definition hogan_render_source : string :=
"function render(data) {
          return template.render(data);
        }".

Definition html_render_source : string :=
"function render(data) {
        return Temper.html(template, data || {});
      }".

Definition server_toString (s : Server) : Result string :=
  match s with
  | HoganServer _ => Ok hogan_render_source
  | BackendServer v => value_toString v
  | HtmlServer _ => Ok html_render_source
  | NoServer => value_toString VUndefined
  end.

Definition not_a_function : Outcome := Throws (TypeError "not a function").

(** [server(data)] *)
Definition call_server (s : Server) (data : option JsObject) : Outcome :=
  match s with
  | HoganServer (VTemplate render) => render data
  | HoganServer _ => not_a_function
  | BackendServer (VFunction f) => fn_call f data
  | BackendServer _ => not_a_function
  | HtmlServer template => html_server template data
  | NoServer => not_a_function
  end.

Record Hash := {
  hash_library : string;
  hash_client : string;
  hash_server : string
}.

Record Artifact := {
  library : string;
  client : Value;
  server : Server;
  engine : string;
  hash : Hash
}.

(** An artifact as an object of the heap: the properties set by [compile]
    and whatever a caller assigns to it afterwards. *)
Record ArtifactObject := {
  artifact : Artifact;
  expando : gmap string string
}.

(** ** The world outside: module loader, file system, environment *)

Record Env := {
  node_require : string -> Result Compiler;
  require_resolve : string -> Result string;
  readFileSync : string -> Result string;
  path_dirname : string -> string;
  path_join : list string -> string;
  md5_hex : string -> string;
  NODE_ENV : option string
}.

(** ** The instance *)

Inductive Cleanup :=
| ForgetEngine (engine : string)
| ForgetFile (file : string).

Record Timer := {
  callback : Cleanup;
  duration : string
}.

Record Temper := {
  installed : gmap string string;
  required : gmap string (option Compiler);
  compiled : gmap string nat;
  timers : gmap string Timer;
  file : gmap string string;
  cache : bool
}.

(** An instance and the heap of artifact objects; a reference is an index
    into the heap. *)
Record Machine := {
  this : Temper;
  heap : list ArtifactObject
}.

Definition M (A : Type) : Type := Machine -> Result A * Machine.

Definition ret {A} (a : A) : M A := fun m => (Ok a, m).
Definition throw {A} (e : JsError) : M A := fun m => (Throw e, m).
Definition bind {A B} (c : M A) (k : A -> M B) : M B :=
  fun m => match c m with
           | (Ok a, m') => k a m'
           | (Throw e, m') => (Throw e, m')
           end.
Definition lift {A} (r : Result A) : M A := fun m => (r, m).
Definition modify (f : Temper -> Temper) : M unit :=
  fun m => (Ok tt, {| this := f (this m); heap := heap m |}).
Definition read_this {A} (f : Temper -> A) : M A := fun m => (Ok (f (this m)), m).

Notation "'let!' x ':=' c 'in' k" := (bind c (fun x => k))
  (at level 10, x name, c at level 100, k at level 200).
Notation "'run' c 'in' k" := (bind c (fun _ => k))
  (at level 10, c at level 100, k at level 200).

Definition set_installed (f : gmap string string -> gmap string string) (t : Temper) : Temper :=
  {| installed := f (installed t); required := required t; compiled := compiled t;
     timers := timers t; file := file t; cache := cache t |}.
Definition set_required
    (f : gmap string (option Compiler) -> gmap string (option Compiler)) (t : Temper) : Temper :=
  {| installed := installed t; required := f (required t); compiled := compiled t;
     timers := timers t; file := file t; cache := cache t |}.
Definition set_compiled (f : gmap string nat -> gmap string nat) (t : Temper) : Temper :=
  {| installed := installed t; required := required t; compiled := f (compiled t);
     timers := timers t; file := file t; cache := cache t |}.
Definition set_timers (f : gmap string Timer -> gmap string Timer) (t : Temper) : Temper :=
  {| installed := installed t; required := required t; compiled := compiled t;
     timers := f (timers t); file := file t; cache := cache t |}.
Definition set_file (f : gmap string string -> gmap string string) (t : Temper) : Temper :=
  {| installed := installed t; required := required t; compiled := compiled t;
     timers := timers t; file := f (file t); cache := cache t |}.

(** Modelled from the spec: [tick-tock]'s [setTimeout(name, fn, duration)]
    keeps one timer per name ("stores a value and (re)schedules a single
    eviction timer"). *)
Definition setTimeout (name : string) (cb : Cleanup) (d : string) : M unit :=
  modify (set_timers (fun ts => <[name := {| callback := cb; duration := d |}]> ts)).

(** A timer runs out: its callback runs and the timer is gone. *)
Definition run_cleanup (cb : Cleanup) (t : Temper) : Temper :=
  match cb with
  | ForgetEngine engine => set_required (fun r => delete engine r) t
  | ForgetFile f => set_file (fun fs => delete f fs) t
  end.

Definition fire (name : string) (m : Machine) : Machine :=
  match timers (this m) !! name with
  | Some timer =>
      {| this := run_cleanup (callback timer) (set_timers (fun ts => delete name ts) (this m));
         heap := heap m |}
  | None => m
  end.

(** The constructor: [new Temper(options)]. *)
Record ConstructorOptions := {
  option_cache : option bool      (* the truthiness of [options.cache], when given *)
}.

Definition default_cache (env : Env) : bool :=
  negb (bool_decide (NODE_ENV env = Some "production")).

Definition new_Temper (env : Env) (options : option ConstructorOptions) : Temper :=
  let cache_option :=
    match options with
    | Some o => option_cache o
    | None => None                (* [options || {}] *)
    end in
  {| installed := ∅; required := ∅; compiled := ∅; timers := ∅; file := ∅;
     cache := match cache_option with
              | Some given => given
              | None => default_cache env
              end |}.

(** [Temper.prototype.supported] *)
Definition Temper_supported : list (string * list string) :=
  [ (".mustache", ["hogan.js"; "mustache"; "handlebars"]);
    (".handlebars", ["handlebars"]);
    (".hbs", ["handlebars"]);
    (".jsx", ["react-jsx"]);
    (".html", ["html"]);
    (".jade", ["jade"]);
    (".ejs", ["ejs"]) ].

Fixpoint assoc {A} (k : string) (l : list (string * A)) : option A :=
  match l with
  | [] => None
  | (k', v) :: l' => if String.eqb k k' then Some v else assoc k l'
  end.

(** ** The methods of [Temper.prototype] *)

Section Methods.

(** [this.supported]: the candidate engines of every extension. *)
Variable supported : list (string * list string).
Variable env : Env.

Definition not_installed (engine : string) (extname : option string) : JsError :=
  Error ("The " +:+ engine +:+ " module isn't installed which we need to compile "
         +:+ to_string extname +:+ " templates. Run `npm install --save " +:+ engine
         +:+ "` in the root of your project.").

(** [Temper.prototype.require] *)
Definition require (engine : string) (extname : option string) : M (option Compiler) :=
  fun m =>
    match required (this m) !! engine with
    | Some compiler => (Ok compiler, m)
    | None =>
        let loaded :=
          if String.eqb "html" engine then Ok None
          else match node_require env engine with
               | Ok compiler => Ok (Some compiler)
               | Throw e => Throw e
               end in
        match loaded with
        | Throw _ => (Throw (not_installed engine extname), m)
        | Ok compiler =>
            (run modify (set_required (fun r => <[engine := compiler]> r)) in
             run setTimeout ("require-" +:+ engine) (ForgetEngine engine) "5 minutes" in
             ret compiler) m
        end
    end.

(** [Temper.prototype.read] *)
Definition read (path : string) : M string :=
  fun m =>
    match file (this m) !! path with
    | Some content => (Ok content, m)
    | None =>
        match readFileSync env path with
        | Throw e =>
            (Throw (Error ("Unable to read " +:+ path +:+ " due to " +:+ message e)), m)
        | Ok content =>
            (run modify (set_file (fun fs => <[path := content]> fs)) in
             run setTimeout ("read-" +:+ path) (ForgetFile path) "1 minute" in
             ret content) m
        end
    end.

(** The callback of [list.filter] in [discover], over the whole list. *)
Fixpoint discover_filter (extname : string) (candidates : list string) (m : Machine)
    : list string * Machine :=
  match candidates with
  | [] => ([], m)
  | engine :: rest =>
      match require engine (Some extname) m with
      | (Throw _, m1) => discover_filter extname rest m1
      | (Ok compiler, m1) =>
          let m2 :=
            {| this := set_installed (fun i => <[extname := engine]> i)
                         (set_required (fun r => <[engine := compiler]> r) (this m1));
               heap := heap m1 |} in
          let (found, m3) := discover_filter extname rest m2 in
          (engine :: found, m3)
      end
  end.

Definition unknown_extension (extname : string) : JsError :=
  Error ("Unknown file extension. " +:+ extname +:+ " is not supported").

(** [list[0]] in a string concatenation. *)
Definition first_of (candidates : list string) : string :=
  to_string (head candidates).

Definition no_engine (candidates : list string) : JsError :=
  Error ("No compatible template engine installed, please run: npm install --save "
         +:+ first_of candidates).

(** [Temper.prototype.discover] *)
Definition discover (path : string) : M string :=
  fun m =>
    let extname := Path.extname path in
    match installed (this m) !! extname with
    | Some engine => (Ok engine, m)
    | None =>
        match assoc extname supported with
        | None => (Throw (unknown_extension extname), m)
        | Some candidates =>
            let (found, m') := discover_filter extname candidates m in
            match found with
            | engine :: _ => (Ok engine, m')
            | [] => (Throw (no_engine candidates), m')
            end
        end
    end.

(** [compiler.method(template, options)] *)
Definition call (compiler : option Compiler) (method : Compiler -> option Method)
    (template : string) (options : Options) : M Value :=
  match compiler with
  | None => throw (TypeError "Cannot read property of null")
  | Some c =>
      match method c with
      | None => throw (TypeError "not a function")
      | Some f => lift (f template options)
      end
  end.

Record CompileOptions := {
  o_engine : string;
  o_name : option string;
  o_filename : string;
  o_debug : Atom
}.

(** [Temper.prototype.transform] *)
Definition transform_value (fn : Value) (name : option string) : M Value :=
  let! text := lift (value_toString fn) in
  ret (VString (transform text name)).

(** [path.dirname(require.resolve(options.engine))] *)
Definition engine_directory (engine : string) : M string :=
  let! resolved := lift (require_resolve env engine) in
  ret (path_dirname env resolved).

(** [Temper.prototype.hash] *)
Definition hash_of (code : Result string) : M string :=
  let! text := lift code in
  ret (md5_hex env text).

(** The [switch] of [compile]: server, client and the path of the
    library, when there is one. *)
Definition compile_switch (compiler : option Compiler) (template : string)
    (options : CompileOptions) : M (Server * Value * option string) :=
  let engine := o_engine options in
  let filename := AString (o_filename options) in
  let debug := o_debug options in
  if String.eqb engine "hogan.js" then
    let! compiled_template := call compiler m_compile template [] in
    let! text := call compiler m_compile template [("asString", ANumber 1)] in
    let client :=
      "(function hulk() {" +:+ "var template = new Hogan.Template(" +:+ value_join text
      +:+ ");" +:+ "return function render(data) { return template.render(data); };" in
    let! directory := engine_directory engine in
    ret (HoganServer compiled_template, VString client,
         Some (path_join env [directory; "template.js"]))
  else if String.eqb engine "handlebars" then
    let! server := call compiler m_compile template [] in
    let! client := call compiler m_precompile template [] in
    let! directory := engine_directory engine in
    ret (BackendServer server, client,
         Some (path_join env [directory; ".."; "dist"; "handlebars.runtime.js"]))
  else if String.eqb engine "ejs" then
    let! server := call compiler m_compile template
                     [("compileDebug", debug); ("filename", filename); ("debug", debug)] in
    let! fn := call compiler m_compile template
                 [("client", ABool true); ("compileDebug", debug); ("debug", debug);
                  ("filename", filename)] in
    let! client := transform_value fn (o_name options) in
    ret (BackendServer server, client, None)
  else if String.eqb engine "jade" then
    let! server := call compiler m_compile template
                     [("debug", debug); ("compileDebug", debug); ("filename", filename)] in
    let compile_client c :=
      match m_compileClient c with
      | Some f => Some f
      | None => m_compile c
      end in
    let! fn := call compiler compile_client template
                 [("client", ABool true); ("pretty", ABool false); ("debug", debug);
                  ("compileDebug", debug); ("filename", filename)] in
    let! client := transform_value fn (o_name options) in
    let! directory := engine_directory engine in
    ret (BackendServer server, client, Some (path_join env [directory; "runtime.js"]))
  else if String.eqb engine "react-jsx" then
    let! fn := call compiler m_client template [("filename", filename); ("debug", debug)] in
    let! client := transform_value fn (o_name options) in
    let! server := call compiler m_server template
                     [("filename", filename); ("debug", debug); ("raw", ABool true)] in
    ret (BackendServer server, client, None)
  else if String.eqb engine "html" then
    ret (HtmlServer template, VString (html_client template (o_name options)), None)
  else
    ret (NoServer, VUndefined, None).

(** The object literal returned by [compile] is a new object. *)
Definition allocate (a : Artifact) : M nat :=
  fun m => (Ok (length (heap m)),
            {| this := this m;
               heap := heap m ++ [ {| artifact := a; expando := ∅ |} ] |}).

(** [Temper.prototype.compile] *)
Definition compile (template : string) (options : CompileOptions) : M nat :=
  let! compiler := require (o_engine options) (Some (Path.extname (o_filename options))) in
  let! parts := compile_switch compiler template options in
  let '(server, client, library_path) := parts in
  let! library :=
    match library_path with
    | Some (String c path) => read (String c path)
    | _ => ret EmptyString
    end in
  let! h_library := hash_of (Ok library) in
  let! h_client := hash_of (value_toString client) in
  let! h_server := hash_of (server_toString server) in
  allocate {| library := library; client := client; server := server;
              engine := o_engine options;
              hash := {| hash_library := h_library; hash_client := h_client;
                         hash_server := h_server |} |}.

(** [engine || this.discover(file)] *)
Definition engine_or_discover (engine : option string) (path : string) : M string :=
  match engine with
  | Some (String c e) => ret (String c e)
  | _ => discover path
  end.

(** [Temper.prototype.fetch = Temper.prototype.prefetch] *)
Definition prefetch (path : string) (engine : option string) : M nat :=
  fun m =>
    match compiled (this m) !! path with
    | Some reference => (Ok reference, m)
    | None =>
        (let! template := read path in
         let! chosen := engine_or_discover engine path in
         let! reference := compile template
                             {| o_engine := chosen; o_name := Some (normalizeName path);
                                o_filename := path; o_debug := AUndefined |} in
         let! caching := read_this cache in
         if negb caching then ret reference
         else
           run modify (set_compiled (fun c => <[path := reference]> c)) in
           ret reference) m
    end.

Definition fetch := prefetch.

End Methods.

(** ** Objects of the heap *)

(** [reference.key = value] *)
Definition assign (reference : nat) (key value : string) (m : Machine) : Machine :=
  match heap m !! reference with
  | Some o =>
      {| this := this m;
         heap := <[reference := {| artifact := artifact o;
                                   expando := <[key := value]> (expando o) |}]> (heap m) |}
  | None => m
  end.

(** [reference.key] for an assigned property. *)
Definition property_of (reference : nat) (key : string) (m : Machine) : option string :=
  match heap m !! reference with
  | Some o => expando o !! key
  | None => None
  end.

(** ** [destroy]

    Tearing down sets properties of the instance to [null]; this view of
    an instance has every property that [destroy] touches nullable. *)

Record Instance := {
  i_installed : option (gmap string string);
  i_required : option (gmap string (option Compiler));
  i_compiled : option (gmap string nat);
  i_timers : option (gmap string Timer);
  i_file : option (gmap string string);
  i_cache : bool
}.

Definition instance_of (t : Temper) : Instance :=
  {| i_installed := Some (installed t); i_required := Some (required t);
     i_compiled := Some (compiled t); i_timers := Some (timers t);
     i_file := Some (file t); i_cache := cache t |}.

Definition destroyed (cache : bool) : Instance :=
  {| i_installed := None; i_required := None; i_compiled := None; i_timers := None;
     i_file := None; i_cache := cache |}.

(** [Temper.prototype.destroy] as written out in [src/index.js]:
<<
  if (this.timers) return false;
  this.timers.destroy();
  this.installed = this.required = this.compiled = this.file = this.timers = null;
  return true;
>> *)
Definition destroy_written (i : Instance) : Result bool * Instance :=
  match i_timers i with
  | Some _ => (Ok false, i)
  | None => (Throw (TypeError "Cannot read property 'destroy' of null"), i)
  end.

(** Modelled from the spec: the function made by [demolish] (a dependency,
    not part of the sources) for
    [destroy('installed, required, compiled, timers, file')]: "tears down
    all internal state; a repeated call returns a sentinel indicating
    nothing remained to tear down rather than failing".  The first listed
    property being [null] is the mark of a finished tear-down. *)
Definition destroy_demolish (i : Instance) : Result bool * Instance :=
  match i_installed i with
  | None => (Ok false, i)
  | Some _ => (Ok true, destroyed (i_cache i))
  end.

(** ** The reading of the specification, for comparison

    A template as the specification sees it: literal text and placeholders
    [{key}].  Substitution replaces the placeholders whose key the record
    defines and leaves the others as they are. *)

Inductive Segment :=
| Text (s : string)
| Placeholder (key : string).

Definition render_segment (seg : Segment) : string :=
  match seg with
  | Text s => s
  | Placeholder key => "{" +:+ key +:+ "}"
  end.

Fixpoint render (segs : list Segment) : string :=
  match segs with
  | [] => EmptyString
  | seg :: segs' => render_segment seg +:+ render segs'
  end.

(** The value that a record gives to a key: that of an own enumerable
    property. *)
Definition value_of (data : JsObject) (key : string) : option string :=
  match lookup_property key (own_properties data) with
  | Some p => if p_enumerable p then Some (p_value p) else None
  | None => None
  end.

Definition substitute_segment (data : JsObject) (seg : Segment) : Segment :=
  match seg with
  | Text s => Text s
  | Placeholder key =>
      match value_of data key with
      | Some v => Text v
      | None => Placeholder key
      end
  end.

Definition substitute_literal (data : JsObject) (segs : list Segment) : string :=
  render (map (substitute_segment data) segs).

Definition is_open_brace (c : ascii) : bool := Ascii.eqb c "{".
Definition is_brace (c : ascii) : bool := Ascii.eqb c "{" || Ascii.eqb c "}".

Definition no_open_brace (s : string) : bool := Str.forallb (fun c => negb (is_open_brace c)) s.
Definition no_brace (s : string) : bool := Str.forallb (fun c => negb (is_brace c)) s.

(** Every opening brace of the template starts a placeholder. *)
Definition well_formed_segment (seg : Segment) : bool :=
  match seg with
  | Text s => no_open_brace s
  | Placeholder key => no_brace key
  end.

Definition well_formed_template (segs : list Segment) : bool :=
  forallb well_formed_segment segs.

(** A key that a regular expression reads as itself: no brace, no syntax
    character, and no digits that would make [{key}] a quantifier. *)
Definition is_literal_char (c : ascii) : bool :=
  negb (is_brace c) && negb (RegExp.is_unsupported c) && negb (Ascii.eqb c ".").

Definition plain_key (key : string) : bool :=
  Str.forallb is_literal_char key
  && negb (RegExp.quantifier_prefix (key +:+ "}")).

(** A record whose keys and values stay clear of the substitution syntax:
    distinct keys, each enumerable key plain, no opening brace in a
    value. *)
Definition plain_property (p : Property) : bool :=
  negb (p_enumerable p) || (plain_key (p_key p) && no_open_brace (p_value p)).

Definition plain_record (data : JsObject) : bool :=
  forallb plain_property (own_properties data)
  && bool_decide (NoDup (map p_key (own_properties data))).

(** The rounds of the loop, on the segments of a template. *)

(** The pattern that matches a text literally. *)
Fixpoint literal (s : string) : list RegExp.PatternChar :=
  match s with
  | EmptyString => []
  | String c rest => RegExp.Char c :: literal rest
  end.

(** One round of substitution on the segments of a template. *)
Definition substitute_key (key value : string) (seg : Segment) : Segment :=
  match seg with
  | Text s => Text s
  | Placeholder k => if String.eqb k key then Text value else Placeholder k
  end.

(** The segment that the rounds for the properties [ps], in their order,
    make of a segment. *)
Definition substitute_rounds (ps : list Property) (seg : Segment) : Segment :=
  fold_left (fun s p => substitute_key (p_key p) (p_value p) s) ps seg.

(** ** Notions used in the statements *)

(** A character of a file name that is neither a separator nor a dot. *)
Definition is_plain_name_char (c : ascii) : bool :=
  negb (Path.is_slash c) && negb (Path.is_dot c).

(** Whether [require(engine)] succeeds in a state: the engine is cached,
    or is the pass-through engine, or the module loader finds it. *)
Definition loads (env : Env) (m : Machine) (engine : string) : bool :=
  bool_decide (is_Some (required (this m) !! engine))
  || String.eqb "html" engine
  || match node_require env engine with
     | Ok _ => true
     | Throw _ => false
     end.

(** The binding left by the filter of [discover]: the last candidate that
    loads. *)
Definition bind_last (extname : string) (found : list string)
    (bindings : gmap string string) : gmap string string :=
  match last found with
  | Some engine => <[extname := engine]> bindings
  | None => bindings
  end.

(** A computation that leaves the artifacts alone: the compiled cache,
    the caching flag and the heap. *)
Definition keeps {A} (c : M A) : Prop :=
  forall m : Machine,
    compiled (this (snd (c m))) = compiled (this m)
    /\ cache (this (snd (c m))) = cache (this m)
    /\ heap (snd (c m)) = heap m.


(** Induction over an object and its prototype chain. *)
Fixpoint JsObject_chain_ind (P : JsObject -> Prop)
    (step : forall own proto,
        match proto with Some parent => P parent | None => True end ->
        P (Obj own proto))
    (o : JsObject) : P o :=
  match o with
  | Obj own proto =>
      step own proto
        match proto with
        | Some parent => JsObject_chain_ind P step parent
        | None => I
        end
  end.

(** A name under which the client evaluates: what [transform] writes
    after [function] is the name itself, and it is absent or an
    identifier. *)
Definition client_name_ok (name : option string) : bool :=
  is_function_name (to_string name) && negb (Str.includes "$$" (to_string name)).

(** The options of a compilation by the pass-through engine. *)
Definition html_options (name : option string) (filename : string) (debug : Atom)
    : CompileOptions :=
  {| o_engine := "html"; o_name := name; o_filename := filename; o_debug := debug |}.

(** The artifact that [compile] makes with the pass-through engine. *)
Definition html_artifact (env : Env) (template : string) (name : option string)
    : Artifact :=
  {| library := EmptyString;
     client := VString (html_client template name);
     server := HtmlServer template;
     engine := "html";
     hash := {| hash_library := md5_hex env EmptyString;
                hash_client := md5_hex env (html_client template name);
                hash_server := md5_hex env html_render_source |} |}.

(** ** Example worlds *)

Definition module_not_found (name : string) : JsError :=
  Error ("Cannot find module '" +:+ name +:+ "'").

Definition no_such_file (path : string) : JsError :=
  Error ("ENOENT: no such file or directory, open '" +:+ path +:+ "'").

Definition example_function : JsFunction :=
  {| fn_source := "function anonymous(locals) { return 'x'; }";
     fn_call := fun _ => Returns "x" |}.

Definition example_compiler : Compiler :=
  {| m_compile := Some (fun _ _ => Ok (VFunction example_function));
     m_precompile := Some (fun _ _ => Ok (VString "{}"));
     m_compileClient := None;
     m_client := None;
     m_server := None |}.

(** A world with the given modules installed and the given files. *)
Definition example_env (modules : list string) (files : list (string * string))
    (node_env : option string) : Env :=
  {| node_require := fun name =>
       if mem name modules then Ok example_compiler else Throw (module_not_found name);
     require_resolve := fun name =>
       if mem name modules then Ok ("/node_modules/" +:+ name +:+ "/index.js")
       else Throw (module_not_found name);
     readFileSync := fun path =>
       match assoc path files with
       | Some content => Ok content
       | None => Throw (no_such_file path)
       end;
     path_dirname := fun p => p;
     path_join := fun parts => String.concat "/" parts;
     md5_hex := fun text => text;
     NODE_ENV := node_env |}.

Definition fresh (env : Env) : Machine :=
  {| this := new_Temper env None; heap := [] |}.

(** A page of the pass-through engine, before and after the file changed,
    and an instance that caches. *)
Definition example_page_env : Env :=
  example_env [] [("/views/page.html", "<h1>{key}</h1>")] None.

Definition example_changed_env : Env :=
  example_env [] [("/views/page.html", "<h2>changed</h2>")] (Some "production").

Definition example_caching_machine : Machine :=
  {| this := new_Temper example_page_env (Some {| option_cache := Some true |});
     heap := [] |}.

Definition example_template : list Segment :=
  [Text "<h1>"; Placeholder "key"; Text "</h1><p>"; Placeholder "missing"; Text "</p>"].

Definition example_record : JsObject :=
  object_literal [("key", "bar"); ("other", "$& and $'")].

(** ** Notions used in the further statements *)

(** The timers that [require] and [read] set. *)
Definition engine_timer (engine : string) : Timer :=
  {| callback := ForgetEngine engine; duration := "5 minutes" |}.

Definition file_timer (path : string) : Timer :=
  {| callback := ForgetFile path; duration := "1 minute" |}.

(** A computation that leaves the bindings of the extensions alone. *)
Definition keeps_installed {A} (c : M A) : Prop :=
  forall m : Machine, installed (this (snd (c m))) = installed (this m).


(** The engines that the [switch] of [compile] has a case for. *)
Definition compiled_engines : list string :=
  ["hogan.js"; "handlebars"; "ejs"; "jade"; "react-jsx"; "html"].

(** A text without a dollar sign. *)
Definition no_dollar (s : string) : bool :=
  Str.forallb (fun c => negb (Ascii.eqb c "$")) s.

(** The file of the client-side library that [compile] reads for an
    engine, as the parts joined to the directory of the engine's main
    module; the other engines have none. *)
Definition library_parts : list (string * list string) :=
  [ ("hogan.js", ["template.js"]);
    ("handlebars", [".."; "dist"; "handlebars.runtime.js"]);
    ("jade", ["runtime.js"]) ].

(** * Properties *)

(** ** Strings: basic facts *)

Lemma append_nil_r (s : string) : s +:+ EmptyString = s.
Proof. induction s as [|c s IH]; [reflexivity|]. unfold String.app in *. simpl. by rewrite IH. Qed.

Lemma append_assoc (a b c : string) : (a +:+ b) +:+ c = a +:+ (b +:+ c).
Proof.
  induction a as [|x a IH]; [reflexivity|].
  unfold String.app in *. simpl. by rewrite IH.
Qed.

Lemma append_cons (c : ascii) (a b : string) : String c a +:+ b = String c (a +:+ b).
Proof. reflexivity. Qed.

Lemma filter_none (p : ascii -> bool) (s : string) :
  Str.forallb (fun c => negb (p c)) s = true -> Str.filter p s = EmptyString.
Proof.
  induction s as [|c s IH]; simpl; [done|].
  intros [Hc Hs]%andb_true_iff. apply negb_true_iff in Hc. rewrite Hc. auto.
Qed.

Lemma drop_while_all (p : ascii -> bool) (s : string) :
  Str.forallb p s = true -> Str.drop_while p s = EmptyString.
Proof.
  induction s as [|c s IH]; simpl; [done|].
  intros [Hc Hs]%andb_true_iff. rewrite Hc. auto.
Qed.

Lemma drop_while_forallb (p q : ascii -> bool) (s : string) :
  Str.forallb q s = true -> Str.forallb q (Str.drop_while p s) = true.
Proof.
  induction s as [|c s IH]; simpl; [done|].
  intros [Hc Hs]%andb_true_iff. destruct (p c); simpl; auto. by rewrite Hc, Hs.
Qed.

Lemma filter_forallb (p : ascii -> bool) (s : string) :
  Str.forallb p (Str.filter p s) = true.
Proof.
  induction s as [|c s IH]; simpl; [done|].
  destruct (p c) eqn:Hc; simpl; [by rewrite Hc|done].
Qed.

(** ** The built-ins, on the examples of their documentation *)

Example extname_examples :
  Path.extname "index.html" = ".html"
  /\ Path.extname "index.coffee.md" = ".md"
  /\ Path.extname "index." = "."
  /\ Path.extname "index" = EmptyString
  /\ Path.extname ".index" = EmptyString
  /\ Path.extname ".index.md" = ".md"
  /\ Path.extname "/care/bear/path/template.trololol" = ".trololol"
  /\ Path.extname "a/b/.." = EmptyString.
Proof. vm_compute. repeat split. Qed.

Example basename_examples :
  Path.basename "/foo/bar/baz/asdf/quux.html" EmptyString = "quux.html"
  /\ Path.basename "/foo/bar/baz/asdf/quux.html" ".html" = "quux"
  /\ Path.basename "/foo/bar/" EmptyString = "bar"
  /\ Path.basename "quux.html" "quux.html" = EmptyString.
Proof. vm_compute. repeat split. Qed.

Example replace_examples :
  RegExp.compile "{key}" = RegExp.Pattern (literal "{key}")
  /\ RegExp.compile "{a.c}"
     = RegExp.Pattern [RegExp.Char "{"; RegExp.Char "a"; RegExp.AnyChar;
                       RegExp.Char "c"; RegExp.Char "}"]
  /\ RegExp.compile "{1}" = RegExp.Invalid "Nothing to repeat"
  /\ RegExp.compile "{1,2}" = RegExp.Invalid "Nothing to repeat"
  /\ RegExp.compile "{a+}" = RegExp.Unsupported
  /\ RegExp.replace_all (literal "ab") (RegExp.ReplaceValue "[$&|$`|$'|$$]") "xabyabz"
     = "x[ab|x|yabz|$]y[ab|xaby|z|$]z"
  /\ RegExp.replace_all (literal "ab") (RegExp.ReplaceFunction (fun _ => "$&")) "xabyabz"
     = "x$&y$&z"
  /\ RegExp.replace_first "function anonymous" "function page"
       "function anonymous(data) { function anonymous() {} }"
     = "function page(data) { function anonymous() {} }".
Proof. vm_compute. repeat split. Qed.

Example stringify_examples :
  Json.stringify "<h1>{key}</h1>" = String "034" ("<h1>{key}</h1>" +:+ String "034" EmptyString)
  /\ Json.stringify (String "034" (String "\" (String "010" (String "001" EmptyString))))
     = String "034" (String "\" (String "034" ("\\\n\u0001" +:+ String "034" EmptyString)))
  /\ Json.read_literal
       (Json.stringify (String "034" (String "\" (String "010" (String "001" EmptyString)))))
     = Some (String "034" (String "\" (String "010" (String "001" EmptyString))), EmptyString).
Proof. vm_compute. repeat split. Qed.

(** ** normalizeName *)

Lemma normalize_symbols (name : string) :
  Str.forallb Str.is_digit name = true
  \/ Str.forallb (fun c => negb (is_identifier_char c)) name = true ->
  remove_invalid_chars (remove_leading_numbers name) = EmptyString.
Proof.
  unfold remove_invalid_chars, remove_leading_numbers. intros [Hd|Hs].
  - by rewrite drop_while_all.
  - apply filter_none. by apply drop_while_forallb.
Qed.

(** ** The constructor *)

(** C8: without a [cache] option the instance caches artifacts exactly
    when [NODE_ENV] is not ['production']; a given [cache] option is taken
    as it is, whatever [NODE_ENV] says. *)
Theorem cache_default_and_override :
  (forall (env : Env) (options : option ConstructorOptions),
     (options = None \/ exists o, options = Some o /\ option_cache o = None) ->
     (cache (new_Temper env options) = true <-> NODE_ENV env <> Some "production"))
  /\ (forall (env : Env) (o : ConstructorOptions) (given : bool),
        option_cache o = Some given ->
        cache (new_Temper env (Some o)) = given).
Proof.
  split.
  - intros env options H.
    assert (cache (new_Temper env options) = default_cache env) as ->.
    { destruct H as [->|(o & -> & Ho)]; simpl; [done|by rewrite Ho]. }
    unfold default_cache. rewrite negb_true_iff, bool_decide_eq_false. done.
  - intros env o given Ho. simpl. by rewrite Ho.
Qed.

Lemma cache_default_and_override_witness :
  (cache (new_Temper (example_env [] [] (Some "development")) None) = true
   <-> NODE_ENV (example_env [] [] (Some "development")) <> Some "production")
  /\ cache (new_Temper (example_env [] [] (Some "development"))
              (Some {| option_cache := Some false |})) = false.
Proof.
  split.
  - apply (proj1 cache_default_and_override). left. reflexivity.
  - apply (proj2 cache_default_and_override). reflexivity.
Defined.

(** ** require and read *)

Lemma require_failure (env : Env) (engine : string) (extname : option string)
    (m : Machine) (cause : JsError) :
  required (this m) !! engine = None ->
  engine <> "html" ->
  node_require env engine = Throw cause ->
  require env engine extname m = (Throw (not_installed engine extname), m).
Proof.
  intros Hr Hne Hl. unfold require. rewrite Hr.
  destruct (String.eqb_spec "html" engine) as [Heq|_]; [congruence|].
  by rewrite Hl.
Qed.

Lemma require_throws_inv (env : Env) (engine : string) (extname : option string)
    (m m' : Machine) (e : JsError) :
  require env engine extname m = (Throw e, m') ->
  m' = m /\ e = not_installed engine extname
  /\ required (this m) !! engine = None
  /\ engine <> "html" /\ exists cause, node_require env engine = Throw cause.
Proof.
  unfold require. destruct (required (this m) !! engine) eqn:Hr; [intros [=]|].
  destruct (String.eqb_spec "html" engine) as [Heq|Hne].
  { intros [=]. }
  destruct (node_require env engine) as [c|cause] eqn:Hl.
  { intros [=]. }
  intros [= <- <-]. repeat split; eauto.
Qed.


Lemma read_throws_inv (env : Env) (path : string) (m m' : Machine) (e : JsError) :
  read env path m = (Throw e, m') ->
  m' = m /\ file (this m) !! path = None
  /\ exists cause, readFileSync env path = Throw cause
       /\ e = Error ("Unable to read " +:+ path +:+ " due to " +:+ message cause).
Proof.
  unfold read. destruct (file (this m) !! path) eqn:Hf; [intros [=]|].
  destruct (readFileSync env path) as [c|cause] eqn:Hr.
  { intros [=]. }
  intros [= <- <-]. eauto.
Qed.


(** ** destroy *)

(** C5, on [destroy] as [src/index.js] writes it out: on an instance
    that has its timers the guard [if (this.timers) return false] is taken,
    so the first call already answers [false] and neither cancels a timer
    nor clears a cache; a second call does the same. *)
Theorem destroy_written_keeps_everything (t : Temper) :
  destroy_written (instance_of t) = (Ok false, instance_of t)
  /\ destroy_written (snd (destroy_written (instance_of t))) = (Ok false, instance_of t)
  /\ i_timers (snd (destroy_written (instance_of t))) = Some (timers t)
  /\ i_file (snd (destroy_written (instance_of t))) = Some (file t)
  /\ i_compiled (snd (destroy_written (instance_of t))) = Some (compiled t).
Proof. repeat split. Qed.

(** The function made by [demolish], as the specification describes it,
    tears everything down on the first call and answers [false] on the
    second. *)
Lemma destroy_demolish_twice (t : Temper) :
  destroy_demolish (instance_of t) = (Ok true, destroyed (cache t))
  /\ destroy_demolish (destroyed (cache t)) = (Ok false, destroyed (cache t)).
Proof. split; reflexivity. Qed.

(** ** discover *)

Lemma loads_false (env : Env) (m : Machine) (engine : string) :
  loads env m engine = false ->
  required (this m) !! engine = None /\ engine <> "html"
  /\ exists cause, node_require env engine = Throw cause.
Proof.
  unfold loads. intros H.
  apply orb_false_iff in H as [H Hl]. apply orb_false_iff in H as [Hc Hh].
  apply bool_decide_eq_false in Hc. rewrite <- eq_None_not_Some in Hc.
  apply String.eqb_neq in Hh.
  destruct (node_require env engine) as [c|cause]; [discriminate|]. eauto.
Qed.

Lemma require_when_stuck (env : Env) (m : Machine) (engine : string)
    (extname : option string) :
  loads env m engine = false ->
  require env engine extname m = (Throw (not_installed engine extname), m).
Proof.
  intros (Hr & Hne & cause & Hl)%loads_false. by eapply require_failure.
Qed.

(** A successful [require] stores the engine and nothing else changes
    but the timers. *)
Lemma require_when_loads (env : Env) (m : Machine) (engine : string)
    (extname : option string) :
  loads env m engine = true ->
  exists compiler m',
    require env engine extname m = (Ok compiler, m')
    /\ installed (this m') = installed (this m)
    /\ compiled (this m') = compiled (this m)
    /\ file (this m') = file (this m)
    /\ cache (this m') = cache (this m)
    /\ heap m' = heap m
    /\ required (this m') = <[engine := compiler]> (required (this m)).
Proof.
  unfold loads, require. intros H.
  destruct (required (this m) !! engine) as [c|] eqn:Hr.
  { exists c, m. repeat split; try done. symmetry. by apply insert_id. }
  rewrite bool_decide_eq_false_2 in H by (intros [? [=]]).
  rewrite orb_false_l in H. revert H.
  destruct (String.eqb "html" engine) eqn:Hh; intros H.
  { eexists _, _. repeat split; reflexivity. }
  rewrite orb_false_l in H. revert H.
  destruct (node_require env engine) as [c|] eqn:Hn; intros H; [|discriminate].
  eexists _, _. repeat split; reflexivity.
Qed.

Lemma loads_insert (env : Env) (m m' : Machine) (engine : string)
    (compiler : option Compiler) :
  loads env m engine = true ->
  required (this m') = <[engine := compiler]> (required (this m)) ->
  forall e, loads env m' e = loads env m e.
Proof.
  intros Hl Hr e. destruct (decide (e = engine)) as [->|Hne].
  - rewrite Hl. unfold loads. rewrite Hr, lookup_insert_eq.
    by rewrite bool_decide_eq_true_2 by eauto.
  - unfold loads. by rewrite Hr, lookup_insert_ne.
Qed.

Lemma bind_last_cons (extname engine : string) (found : list string)
    (bindings : gmap string string) :
  bind_last extname found (<[extname := engine]> bindings)
  = bind_last extname (engine :: found) bindings.
Proof.
  unfold bind_last. destruct found as [|e found]; [done|].
  rewrite last_cons_cons. destruct (last (e :: found)) eqn:Hl; [|by apply last_None in Hl].
  apply insert_insert_eq.
Qed.

(** What the filter of [discover] computes: every candidate is tried, the
    ones that load are kept in order, and each of them in turn is written
    as the binding of the extension. *)
Lemma discover_filter_spec (env : Env) (extname : string) (candidates : list string) :
  forall m : Machine,
    let found := List.filter (loads env m) candidates in
    fst (discover_filter env extname candidates m) = found
    /\ installed (this (snd (discover_filter env extname candidates m)))
       = bind_last extname found (installed (this m))
    /\ compiled (this (snd (discover_filter env extname candidates m))) = compiled (this m)
    /\ file (this (snd (discover_filter env extname candidates m))) = file (this m)
    /\ cache (this (snd (discover_filter env extname candidates m))) = cache (this m)
    /\ heap (snd (discover_filter env extname candidates m)) = heap m.
Proof.
  induction candidates as [|engine rest IH]; intros m; [by repeat split|].
  simpl. destruct (loads env m engine) eqn:Hl.
  - destruct (require_when_loads env m engine (Some extname) Hl)
      as (compiler & m1 & -> & Hi & Hc & Hf & Hca & Hh & Hr).
    set (m2 := {| this := _; heap := heap m1 |}).
    assert (required (this m2) = <[engine := compiler]> (required (this m))) as Hr2.
    { simpl. rewrite Hr. apply insert_insert_eq. }
    specialize (IH m2). destruct (discover_filter env extname rest m2) as [found m3].
    simpl in IH. destruct IH as (-> & Hi3 & Hc3 & Hf3 & Hca3 & Hh3).
    assert (List.filter (loads env m2) rest = List.filter (loads env m) rest) as Hsame.
    { apply List.filter_ext. intros e. by eapply loads_insert. }
    simpl. rewrite Hsame in *. repeat split.
    + rewrite Hi3. simpl. rewrite Hi. apply bind_last_cons.
    + by rewrite Hc3.
    + by rewrite Hf3.
    + by rewrite Hca3.
    + by rewrite Hh3.
  - rewrite (require_when_stuck env m engine (Some extname) Hl). apply IH.
Qed.

(** With no candidate that loads the filter changes nothing at all. *)
Lemma discover_filter_stuck (env : Env) (extname : string) (candidates : list string)
    (m : Machine) :
  forallb (fun engine => negb (loads env m engine)) candidates = true ->
  discover_filter env extname candidates m = ([], m).
Proof.
  induction candidates as [|engine rest IH]; [done|].
  simpl. intros [Hl Hrest]%andb_true_iff. apply negb_true_iff in Hl.
  rewrite (require_when_stuck env m engine (Some extname) Hl). auto.
Qed.

(** A bound extension is answered from the binding: nothing is probed and
    the state does not change. *)
Lemma discover_bound (supported : list (string * list string)) (env : Env)
    (path engine : string) (m : Machine) :
  installed (this m) !! Path.extname path = Some engine ->
  discover supported env path m = (Ok engine, m).
Proof. intros H. unfold discover. by rewrite H. Qed.

(** The first call for an extension answers with the first candidate that
    loads and binds the extension to the last one that loads. *)
Lemma discover_unbound (supported : list (string * list string)) (env : Env)
    (path : string) (candidates : list string) (m : Machine) :
  installed (this m) !! Path.extname path = None ->
  assoc (Path.extname path) supported = Some candidates ->
  fst (discover supported env path m)
  = match List.filter (loads env m) candidates with
    | engine :: _ => Ok engine
    | [] => Throw (no_engine candidates)
    end
  /\ installed (this (snd (discover supported env path m))) !! Path.extname path
     = last (List.filter (loads env m) candidates).
Proof.
  intros Hi Hs. unfold discover. rewrite Hi, Hs.
  pose proof (discover_filter_spec env (Path.extname path) candidates m) as H.
  destruct (discover_filter env (Path.extname path) candidates m) as [found m'].
  simpl in H. destruct H as (-> & Hb & _).
  assert (installed (this m') !! Path.extname path
          = last (List.filter (loads env m) candidates)) as Hlast.
  { rewrite Hb. unfold bind_last.
    destruct (last (List.filter (loads env m) candidates)); [|done].
    apply lookup_insert_eq. }
  destruct (List.filter (loads env m) candidates); simpl; auto.
Qed.

(** C1, at an input where two candidates load: with [hogan.js] and
    [handlebars] installed, the first [discover] of a [.mustache] file
    answers [hogan.js] and leaves [handlebars] as the binding, which is
    what the second call answers. *)
Theorem discover_binding_differs_from_answer :
  let env := example_env ["hogan.js"; "handlebars"] [] None in
  let first := discover Temper_supported env "a.mustache" (fresh env) in
  fst first = Ok "hogan.js"
  /\ installed (this (snd first)) !! ".mustache" = Some "handlebars"
  /\ fst (discover Temper_supported env "b.mustache" (snd first)) = Ok "handlebars".
Proof. vm_compute. repeat split. Qed.

(** C6, as the claim states it, fails: with no engine installed the error
    for a [.mustache] file is raised after [hogan.js], [mustache] and
    [handlebars] were all tried, and its message names [hogan.js] only. *)
Lemma discover_error_names_one_candidate :
  let env := example_env [] [] None in
  assoc ".mustache" Temper_supported = Some ["hogan.js"; "mustache"; "handlebars"]
  /\ exists text,
       discover Temper_supported env "x.mustache" (fresh env)
       = (Throw (Error text), fresh env)
       /\ Str.includes "hogan.js" text = true
       /\ Str.includes "mustache" text = false
       /\ Str.includes "handlebars" text = false.
Proof.
  split; [reflexivity|]. eexists. split; [reflexivity|]. vm_compute. repeat split.
Qed.

(** C6, amended: when every candidate of the extension fails to load,
    [discover] throws an error whose message asks to install the first
    candidate of the list, and the instance is left as it was. *)
Theorem discover_error_names_first_candidate
    (supported : list (string * list string)) (env : Env)
    (path : string) (candidates : list string) (m : Machine) :
  installed (this m) !! Path.extname path = None ->
  assoc (Path.extname path) supported = Some candidates ->
  forallb (fun engine => negb (loads env m engine)) candidates = true ->
  discover supported env path m
  = (Throw (Error ("No compatible template engine installed, please run: "
                   +:+ "npm install --save " +:+ first_of candidates)), m).
Proof.
  intros Hi Hs Hstuck. unfold discover. rewrite Hi, Hs.
  by rewrite (discover_filter_stuck env _ candidates m Hstuck).
Qed.

Lemma discover_error_names_first_candidate_witness :
  discover Temper_supported (example_env ["jade"] [] None) "views/page.mustache"
    (fresh (example_env ["jade"] [] None))
  = (Throw (Error ("No compatible template engine installed, please run: "
                   +:+ "npm install --save "
                   +:+ first_of ["hogan.js"; "mustache"; "handlebars"])),
     fresh (example_env ["jade"] [] None)).
Proof.
  apply (discover_error_names_first_candidate Temper_supported
           (example_env ["jade"] [] None) "views/page.mustache"
           ["hogan.js"; "mustache"; "handlebars"]
           (fresh (example_env ["jade"] [] None)));
    vm_compute; reflexivity.
Defined.

(** ** fetch *)

Lemma bind_ok {A B} (c : M A) (k : A -> M B) (m m' : Machine) (b : B) :
  bind c k m = (Ok b, m') ->
  exists a m1, c m = (Ok a, m1) /\ k a m1 = (Ok b, m').
Proof.
  unfold bind. destruct (c m) as [[a|e] m1]; [eauto|intros [=]].
Qed.

Lemma keeps_ret {A} (a : A) : keeps (ret a).
Proof. by intros m. Qed.

Lemma keeps_throw {A} (e : JsError) : keeps (@throw A e).
Proof. by intros m. Qed.

Lemma keeps_lift {A} (r : Result A) : keeps (lift r).
Proof. by intros m. Qed.

Lemma keeps_bind {A B} (c : M A) (k : A -> M B) :
  keeps c -> (forall a, keeps (k a)) -> keeps (bind c k).
Proof.
  intros Hc Hk m. unfold bind. specialize (Hc m).
  destruct (c m) as [[a|e] m1]; [|done].
  simpl in Hc. destruct Hc as (Hc1 & Hc2 & Hc3).
  destruct (Hk a m1) as (Hk1 & Hk2 & Hk3). by rewrite Hk1, Hk2, Hk3.
Qed.

Lemma keeps_setTimeout (name : string) (cb : Cleanup) (d : string) :
  keeps (setTimeout name cb d).
Proof. by intros m. Qed.

Lemma keeps_require (env : Env) (engine : string) (extname : option string) :
  keeps (require env engine extname).
Proof.
  intros m. unfold require. destruct (required (this m) !! engine); [done|].
  destruct (String.eqb "html" engine); [done|].
  by destruct (node_require env engine).
Qed.

Lemma keeps_read (env : Env) (path : string) : keeps (read env path).
Proof.
  intros m. unfold read. destruct (file (this m) !! path); [done|].
  by destruct (readFileSync env path).
Qed.

Lemma keeps_discover (supported : list (string * list string)) (env : Env)
    (path : string) : keeps (discover supported env path).
Proof.
  intros m. unfold discover.
  destruct (installed (this m) !! Path.extname path); [done|].
  destruct (assoc (Path.extname path) supported) as [candidates|]; [|done].
  pose proof (discover_filter_spec env (Path.extname path) candidates m) as H.
  destruct (discover_filter env (Path.extname path) candidates m) as [found m'].
  simpl in H. destruct H as (_ & _ & Hc & _ & Hca & Hh).
  by destruct found.
Qed.

Lemma keeps_call (compiler : option Compiler) (method : Compiler -> option Method)
    (template : string) (options : Options) :
  keeps (call compiler method template options).
Proof.
  unfold call. destruct compiler as [c|]; [|apply keeps_throw].
  destruct (method c); [apply keeps_lift|apply keeps_throw].
Qed.

Lemma keeps_transform_value (fn : Value) (name : option string) :
  keeps (transform_value fn name).
Proof. apply keeps_bind; [apply keeps_lift|intros; apply keeps_ret]. Qed.

Lemma keeps_engine_directory (env : Env) (engine : string) :
  keeps (engine_directory env engine).
Proof. apply keeps_bind; [apply keeps_lift|intros; apply keeps_ret]. Qed.

Lemma keeps_hash_of (env : Env) (code : Result string) : keeps (hash_of env code).
Proof. apply keeps_bind; [apply keeps_lift|intros; apply keeps_ret]. Qed.

Ltac keeps_step :=
  first
    [ apply keeps_ret | apply keeps_throw | apply keeps_lift | apply keeps_call
    | apply keeps_transform_value | apply keeps_engine_directory
    | apply keeps_hash_of | apply keeps_require | apply keeps_read
    | apply keeps_discover | apply keeps_setTimeout
    | apply keeps_bind; [|intros ?] ].

Lemma keeps_compile_switch (env : Env) (compiler : option Compiler)
    (template : string) (options : CompileOptions) :
  keeps (compile_switch env compiler template options).
Proof.
  unfold compile_switch.
  repeat match goal with
         | |- keeps (if ?b then _ else _) => destruct b
         end; repeat keeps_step.
Qed.

(** [compile] allocates the artifact as a new object and touches neither
    the compiled cache nor the caching flag. *)
Lemma compile_allocates (env : Env) (template : string) (options : CompileOptions)
    (m m' : Machine) (reference : nat) :
  compile env template options m = (Ok reference, m') ->
  reference = length (heap m)
  /\ (exists o, heap m' = heap m ++ [o])
  /\ compiled (this m') = compiled (this m)
  /\ cache (this m') = cache (this m).
Proof.
  unfold compile. intros H.
  apply bind_ok in H as (compiler & m1 & H1 & H).
  apply bind_ok in H as ([[srv cl] lib] & m2 & H2 & H).
  apply bind_ok in H as (library & m3 & H3 & H).
  apply bind_ok in H as (h1 & m4 & H4 & H).
  apply bind_ok in H as (h2 & m5 & H5 & H).
  apply bind_ok in H as (h3 & m6 & H6 & H).
  pose proof (keeps_require env (o_engine options)
                (Some (Path.extname (o_filename options))) m) as K1.
  rewrite H1 in K1. simpl in K1. destruct K1 as (K1a & K1b & K1c).
  pose proof (keeps_compile_switch env compiler template options m1) as K2.
  rewrite H2 in K2. simpl in K2. destruct K2 as (K2a & K2b & K2c).
  assert (compiled (this m3) = compiled (this m2)
          /\ cache (this m3) = cache (this m2) /\ heap m3 = heap m2) as (K3a & K3b & K3c).
  { destruct lib as [[|c p]|].
    - by injection H3 as _ <-.
    - pose proof (keeps_read env (String c p) m2) as K. by rewrite H3 in K.
    - by injection H3 as _ <-. }
  pose proof (keeps_hash_of env (Ok library) m3) as K4.
  rewrite H4 in K4. simpl in K4. destruct K4 as (K4a & K4b & K4c).
  pose proof (keeps_hash_of env (value_toString cl) m4) as K5.
  rewrite H5 in K5. simpl in K5. destruct K5 as (K5a & K5b & K5c).
  pose proof (keeps_hash_of env (server_toString srv) m5) as K6.
  rewrite H6 in K6. simpl in K6. destruct K6 as (K6a & K6b & K6c).
  unfold allocate in H. injection H as <- <-. simpl.
  repeat split; try congruence. eexists. f_equal. congruence.
Qed.

Lemma assign_keeps_instance (reference : nat) (key value : string) (m : Machine) :
  this (assign reference key value m) = this m.
Proof. unfold assign. by destruct (heap m !! reference). Qed.

Lemma assign_then_read (reference : nat) (key value : string) (m : Machine) :
  is_Some (heap m !! reference) ->
  property_of reference key (assign reference key value m) = Some value.
Proof.
  intros [o Ho]. unfold property_of, assign. rewrite Ho. simpl.
  rewrite list_lookup_insert_eq by (by eapply lookup_lt_Some).
  simpl. apply lookup_insert_eq.
Qed.

Lemma fire_keeps_compiled (name : string) (m : Machine) :
  compiled (this (fire name m)) = compiled (this m).
Proof.
  unfold fire. destruct (timers (this m) !! name) as [t|]; [|done].
  simpl. by destruct (callback t).
Qed.

(** A cached path is answered with the stored reference, whatever the
    world and the requested engine are, and the state stays as it is. *)
Lemma fetch_cached (supported : list (string * list string)) (env : Env)
    (path : string) (engine : option string) (m : Machine) (reference : nat) :
  compiled (this m) !! path = Some reference ->
  fetch supported env path engine m = (Ok reference, m).
Proof. intros H. unfold fetch, prefetch. by rewrite H. Qed.

(** C2: with caching on, the reference that a [fetch] returns is stored
    under the path, and every later [fetch] of the same path returns that
    very reference without reading, discovering or compiling anything: the
    result does not depend on the world at the time of the second call (the
    file may have changed) nor on the engine asked for, the state is left
    as it is, timers that ran out in between make no difference, and a
    property assigned to the first result is read back through the second.
    When the first call had to compile, the reference is that of the new
    artifact object. *)
Theorem fetch_twice_same_reference
    (supported : list (string * list string)) (env : Env)
    (path : string) (engine : option string) (m m1 : Machine) (reference : nat) :
  cache (this m) = true ->
  fetch supported env path engine m = (Ok reference, m1) ->
  compiled (this m1) !! path = Some reference
  /\ (forall (env' : Env) (engine' : option string),
        fetch supported env' path engine' m1 = (Ok reference, m1))
  /\ (forall (env' : Env) (engine' : option string) (name : string),
        fetch supported env' path engine' (fire name m1) = (Ok reference, fire name m1))
  /\ (forall (env' : Env) (engine' : option string) (key value : string),
        fetch supported env' path engine' (assign reference key value m1)
        = (Ok reference, assign reference key value m1)
        /\ (is_Some (heap m1 !! reference) ->
            property_of reference key (assign reference key value m1) = Some value))
  /\ (compiled (this m) !! path = None ->
      reference = length (heap m) /\ is_Some (heap m1 !! reference)).
Proof.
  intros Hcache H.
  assert (compiled (this m1) !! path = Some reference
          /\ (compiled (this m) !! path = None ->
              reference = length (heap m) /\ is_Some (heap m1 !! reference)))
    as [Hstored Hnew].
  { unfold fetch, prefetch in H.
    destruct (compiled (this m) !! path) as [r0|] eqn:Hlookup.
    { injection H as <- <-. by split. }
    apply bind_ok in H as (template & ma & Ha & H).
    apply bind_ok in H as (chosen & mb & Hb & H).
    apply bind_ok in H as (r & mc & Hc & H).
    apply bind_ok in H as (caching & md & Hd & H).
    unfold read_this in Hd. injection Hd as <- <-.
    pose proof (keeps_read env path m) as Ka. rewrite Ha in Ka.
    simpl in Ka. destruct Ka as (Ka1 & Ka2 & Ka3).
    assert (compiled (this mb) = compiled (this ma)
            /\ cache (this mb) = cache (this ma) /\ heap mb = heap ma)
      as (Kb1 & Kb2 & Kb3).
    { unfold engine_or_discover in Hb. destruct engine as [[|c e]|].
      - pose proof (keeps_discover supported env path ma) as K. by rewrite Hb in K.
      - by injection Hb as _ <-.
      - pose proof (keeps_discover supported env path ma) as K. by rewrite Hb in K. }
    apply compile_allocates in Hc as (Hr & [o Ho] & Hc1 & Hc2).
    assert (cache (this mc) = true) as Hon by congruence.
    rewrite Hon in H. simpl in H.
    apply bind_ok in H as ([] & me & He & H).
    unfold modify in He. injection He as <-. injection H as <- <-.
    split; [simpl; apply lookup_insert_eq|]. intros _. split; [congruence|].
    simpl. rewrite Ho, Hr, Kb3, Ka3. rewrite lookup_app_r by lia.
    rewrite Nat.sub_diag. eauto. }
  repeat split.
  - exact Hstored.
  - intros env' engine'. by apply fetch_cached.
  - intros env' engine' name. apply fetch_cached. by rewrite fire_keeps_compiled.
  - apply fetch_cached. by rewrite assign_keeps_instance.
  - by apply assign_then_read.
  - by apply Hnew.
  - by apply Hnew.
Qed.

Lemma fetch_twice_same_reference_witness :
  fetch Temper_supported example_changed_env "/views/page.html" (Some "jade")
    (snd (fetch Temper_supported example_page_env "/views/page.html" None
            example_caching_machine))
  = (Ok 0,
     snd (fetch Temper_supported example_page_env "/views/page.html" None
            example_caching_machine)).
Proof.
  destruct (fetch_twice_same_reference Temper_supported example_page_env
              "/views/page.html" None example_caching_machine
              (snd (fetch Temper_supported example_page_env "/views/page.html" None
                      example_caching_machine)) 0)
    as (_ & H & _).
  - reflexivity.
  - vm_compute. reflexivity.
  - apply H.
Defined.

(** ** The pass-through engine: which properties are substituted *)

Lemma html_loop_app (step : string -> string -> Outcome) (ks1 ks2 : list string)
    (template : string) :
  html_loop step (ks1 ++ ks2) template
  = match html_loop step ks1 template with
    | Returns template' => html_loop step ks2 template'
    | other => other
    end.
Proof.
  revert template. induction ks1 as [|k ks1 IH]; intros template; [done|].
  simpl. destruct (step k template); auto.
Qed.

Lemma html_loop_ext (step step' : string -> string -> Outcome) (ks : list string)
    (template : string) :
  (forall k t, In k ks -> step k t = step' k t) ->
  html_loop step ks template = html_loop step' ks template.
Proof.
  revert template. induction ks as [|k ks IH]; intros template H; [done|].
  simpl. rewrite H by (by left). destruct (step' k template); auto.
  apply IH. intros k' t' Hin. apply H. by right.
Qed.

Lemma html_loop_skip (data : JsObject) (ks : list string) (template : string) :
  (forall k, In k ks -> hasOwnProperty data k = false) ->
  html_loop (html_step data) ks template = Returns template.
Proof.
  induction ks as [|k ks IH]; intros H; [done|].
  simpl. unfold html_step at 1. rewrite H by (by left).
  apply IH. intros k' Hin. apply H. by right.
Qed.

Lemma mem_app (k : string) (l1 l2 : list string) :
  mem k (l1 ++ l2) = mem k l1 || mem k l2.
Proof. unfold mem. apply existsb_app. Qed.

Lemma for_in_not_shadowed (o : JsObject) :
  forall (shadowed : list string) (k : string),
    In k (for_in shadowed o) -> mem k shadowed = false.
Proof.
  induction o as [own proto IH] using JsObject_chain_ind.
  intros shadowed k. simpl. rewrite in_app_iff. intros [H|H].
  - apply in_map_iff in H as (p & <- & Hp).
    apply List.filter_In in Hp as [_ Hp].
    apply andb_true_iff in Hp as [_ Hp]. by apply negb_true_iff.
  - destruct proto as [parent|]; [|done].
    apply IH in H. rewrite mem_app in H. by apply orb_false_iff in H as [H _].
Qed.

Lemma mem_lookup_property (k : string) (own : list Property) :
  mem k (map p_key own) = true -> is_Some (lookup_property k own).
Proof.
  induction own as [|p own IH]; simpl; [done|].
  destruct (String.eqb k (p_key p)); simpl; eauto.
Qed.

Lemma html_step_own (own : list Property) (proto proto' : option JsObject)
    (k template : string) :
  html_step (Obj own proto) k template = html_step (Obj own proto') k template.
Proof.
  unfold html_step, hasOwnProperty. simpl.
  destruct (mem k (map p_key own)) eqn:Hm; [|done].
  apply mem_lookup_property in Hm as [p Hp]. by rewrite Hp.
Qed.

Lemma html_own (template : string) (own : list Property) (proto : option JsObject) :
  html template (Obj own proto)
  = html_loop (html_step (Obj own None))
      (map p_key (List.filter p_enumerable own)) template.
Proof.
  unfold html. simpl for_in. rewrite html_loop_app.
  assert (List.filter (fun p => p_enumerable p && true) own
          = List.filter p_enumerable own) as ->.
  { apply List.filter_ext. intros p. apply andb_true_r. }
  rewrite (html_loop_ext (html_step (Obj own proto)) (html_step (Obj own None)))
    by (intros; apply html_step_own).
  destruct (html_loop _ _ template) as [t| |] eqn:Hloop; try done.
  rewrite (html_loop_ext (html_step (Obj own proto)) (html_step (Obj own None)))
    by (intros; apply html_step_own).
  apply html_loop_skip. intros k Hin. destruct proto as [parent|]; [|done].
  by apply for_in_not_shadowed in Hin.
Qed.

(** C10: the pass-through engine substitutes the own enumerable
    properties of the record and no other: the rounds of replacement are
    those of the own enumerable keys, in their order, so the result is the
    same whatever the prototype of the record is and whether it has one
    (an inherited [key] is not substituted, a record made by
    [Object.create(null)] is treated like a literal); the server called
    without data returns the template as it is. *)
Theorem html_own_enumerable_only :
  (forall (template : string) (own : list Property) (proto : option JsObject),
     html template (Obj own proto)
     = html_loop (html_step (Obj own None))
         (map p_key (List.filter p_enumerable own)) template)
  /\ (forall (template : string) (own : list Property) (proto proto' : option JsObject),
        html template (Obj own proto) = html template (Obj own proto'))
  /\ (forall (template : string) (kvs : list (string * string)),
        html_server template (Some (object_create_null kvs))
        = html_server template (Some (object_literal kvs)))
  /\ (forall template : string,
        call_server (HtmlServer template) None = Returns template)
  /\ call_server (HtmlServer "<h1>{key}</h1>") (Some (object_create_null [("key", "bar")]))
     = Returns "<h1>bar</h1>"
  /\ call_server (HtmlServer "<h1>{key}</h1>")
       (Some (Obj [] (Some (object_literal [("key", "bar")]))))
     = Returns "<h1>{key}</h1>"
  /\ call_server (HtmlServer "<h1>{key}</h1>")
       (Some (Obj [ {| p_key := "key"; p_value := "bar"; p_enumerable := false |} ] None))
     = Returns "<h1>{key}</h1>".
Proof.
  repeat apply conj; try (vm_compute; reflexivity).
  - apply html_own.
  - intros template own proto proto'. by rewrite !html_own.
  - intros template kvs. unfold html_server, or_empty, object_create_null, object_literal.
    by rewrite !html_own.
Qed.

(** ** Replacing a literal pattern *)

Lemma parse_literal_key (key : string) :
  Str.forallb is_literal_char key = true ->
  RegExp.parse true (key +:+ "}") = RegExp.Pattern (literal (key +:+ "}")).
Proof.
  induction key as [|c key IH]; [reflexivity|].
  cbn [Str.forallb]. intros [Hc Hk]%andb_true_iff.
  unfold is_literal_char, is_brace in Hc.
  apply andb_true_iff in Hc as [Hc Hdot]. apply andb_true_iff in Hc as [Hb Hu].
  apply negb_true_iff in Hb, Hu, Hdot. apply orb_false_iff in Hb as [Hopen _].
  rewrite append_cons. cbn [RegExp.parse literal].
  rewrite Hu, Hopen, Hdot. cbn [andb]. by rewrite (IH Hk).
Qed.

Lemma compile_plain_key (key : string) :
  plain_key key = true ->
  RegExp.compile ("{" +:+ key +:+ "}")
  = RegExp.Pattern (literal ("{" +:+ key +:+ "}")).
Proof.
  unfold plain_key. intros [Hk Hq]%andb_true_iff. apply negb_true_iff in Hq.
  unfold RegExp.compile.
  change ("{" +:+ key +:+ "}") with (String "{" (key +:+ "}")).
  cbn [RegExp.parse literal].
  change (RegExp.is_unsupported "{") with false.
  change (Ascii.eqb "{" "{") with true.
  change (Ascii.eqb "{" ".") with false.
  cbn [andb]. rewrite Hq. by rewrite (parse_literal_key key Hk).
Qed.

Lemma plain_key_no_brace (key : string) :
  plain_key key = true -> no_brace key = true.
Proof.
  unfold plain_key, no_brace. intros [Hk _]%andb_true_iff. revert Hk.
  induction key as [|c key IH]; [done|].
  cbn [Str.forallb]. intros [Hc Hk]%andb_true_iff. rewrite (IH Hk), andb_true_r.
  unfold is_literal_char in Hc.
  apply andb_true_iff in Hc as [Hc _]. by apply andb_true_iff in Hc as [Hc _].
Qed.

Lemma match_prefix_literal (s rest : string) :
  RegExp.match_prefix (literal s) (s +:+ rest) = Some (s, rest).
Proof.
  induction s as [|c s IH]; [reflexivity|].
  rewrite append_cons. cbn [literal RegExp.match_prefix RegExp.matches_char].
  by rewrite Ascii.eqb_refl, IH.
Qed.

Section Scan.

Variable q : list RegExp.PatternChar.
Variable f : string -> string.

Let p : list RegExp.PatternChar := RegExp.Char "{" :: q.
Let r : RegExp.Replacer := RegExp.ReplaceFunction f.

(** The text already scanned plays no role for a replacer function. *)
Lemma replace_from_before (s : string) :
  forall (b b' : string) (n : nat),
    RegExp.replace_from p r b n s = RegExp.replace_from p r b' n s.
Proof.
  induction s as [|c s IH]; intros b b' n; [reflexivity|].
  cbn [RegExp.replace_from]. destruct n as [|n]; [|apply IH].
  destruct (RegExp.match_prefix p (String c s)) as [[[|d m] after]|].
  - cbn [RegExp.replacement_for r]. f_equal. f_equal. apply IH.
  - cbn [RegExp.replacement_for r]. f_equal. apply IH.
  - f_equal. apply IH.
Qed.

(** Text without an opening brace is copied. *)
Lemma replace_from_text (s : string) :
  forall (b b' rest : string),
    no_open_brace s = true ->
    RegExp.replace_from p r b 0 (s +:+ rest)
    = s +:+ RegExp.replace_from p r b' 0 rest.
Proof.
  induction s as [|c s IH]; intros b b' rest Hs.
  { apply replace_from_before. }
  unfold no_open_brace in Hs. cbn [Str.forallb] in Hs.
  apply andb_true_iff in Hs as [Hc Hs]. apply negb_true_iff in Hc.
  unfold is_open_brace in Hc. rewrite Ascii.eqb_sym in Hc.
  rewrite !append_cons.
  cbn [RegExp.replace_from RegExp.match_prefix RegExp.matches_char p].
  rewrite Hc. f_equal. by apply IH.
Qed.

(** The rest of a match is passed over. *)
Lemma replace_from_skip (s : string) :
  forall (b b' rest : string),
    RegExp.replace_from p r b (String.length s) (s +:+ rest)
    = RegExp.replace_from p r b' 0 rest.
Proof.
  induction s as [|c s IH]; intros b b' rest.
  { apply replace_from_before. }
  rewrite append_cons. cbn [String.length RegExp.replace_from]. apply IH.
Qed.

End Scan.

Lemma literal_mismatch (key key' rest : string) :
  no_brace key = true -> no_brace key' = true -> key' <> key ->
  RegExp.match_prefix (literal (key +:+ "}")) ((key' +:+ "}") +:+ rest) = None.
Proof.
  unfold no_brace. revert key'.
  induction key as [|c key IH]; intros [|c' key'] Hk Hk' Hne.
  - done.
  - cbn [Str.forallb] in Hk'. apply andb_true_iff in Hk' as [Hc' _].
    apply negb_true_iff, orb_false_iff in Hc' as [_ Hc'].
    rewrite !append_cons. change (literal ("" +:+ "}")) with [RegExp.Char "}"].
    cbn [RegExp.match_prefix RegExp.matches_char].
    by rewrite Ascii.eqb_sym, Hc'.
  - cbn [Str.forallb] in Hk. apply andb_true_iff in Hk as [Hc _].
    apply negb_true_iff, orb_false_iff in Hc as [_ Hc].
    rewrite append_cons. change (("" +:+ "}") +:+ rest) with (String "}" rest).
    cbn [literal RegExp.match_prefix RegExp.matches_char]. by rewrite Hc.
  - cbn [Str.forallb] in Hk, Hk'.
    apply andb_true_iff in Hk as [_ Hk]. apply andb_true_iff in Hk' as [_ Hk'].
    rewrite !append_cons. cbn [literal RegExp.match_prefix RegExp.matches_char].
    destruct (Ascii.eqb_spec c c') as [->|Hcc]; [|done].
    rewrite IH; [done..|]. congruence.
Qed.

Lemma no_brace_no_open_brace (s : string) :
  no_brace s = true -> no_open_brace (s +:+ "}") = true.
Proof.
  unfold no_brace, no_open_brace. induction s as [|c s IH]; [done|].
  cbn [Str.forallb]. intros [Hc Hs]%andb_true_iff.
  rewrite append_cons. cbn [Str.forallb]. rewrite (IH Hs), andb_true_r.
  unfold is_brace in Hc. apply negb_true_iff, orb_false_iff in Hc as [Hc _].
  unfold is_open_brace. by rewrite Hc.
Qed.

(** One round of the loop on a well-formed template: the placeholders of
    the key are replaced by what the replacer returns, and nothing else
    changes. *)
Lemma replace_from_segments (key value : string) (segs : list Segment) :
  no_brace key = true ->
  forall b : string,
    well_formed_template segs = true ->
    RegExp.replace_from (RegExp.Char "{" :: literal (key +:+ "}"))
      (RegExp.ReplaceFunction (fun _ => value)) b 0 (render segs)
    = render (map (substitute_key key value) segs).
Proof.
  intros Hkey.
  induction segs as [|seg segs IH]; intros b Hwf; [reflexivity|].
  cbn [well_formed_template forallb] in Hwf.
  apply andb_true_iff in Hwf as [Hseg Hwf].
  cbn [render map]. destruct seg as [s|k]; cbn [render_segment substitute_key].
  - rewrite (replace_from_text _ _ s b b) by done. f_equal. by apply IH.
  - cbn [well_formed_segment] in Hseg.
    change ("{" +:+ k +:+ "}") with (String "{" (k +:+ "}")).
    rewrite append_cons.
    destruct (String.eqb_spec k key) as [->|Hne].
    + cbn [RegExp.replace_from RegExp.match_prefix RegExp.matches_char].
      rewrite Ascii.eqb_refl, match_prefix_literal.
      cbn [RegExp.replacement_for render_segment].
      rewrite (replace_from_skip _ _ (key +:+ "}") _ b). f_equal. by apply IH.
    + cbn [RegExp.replace_from RegExp.match_prefix RegExp.matches_char].
      rewrite Ascii.eqb_refl, literal_mismatch by done.
      cbn [render_segment].
      change ("{" +:+ k +:+ "}") with (String "{" (k +:+ "}")).
      rewrite append_cons. f_equal.
      rewrite (replace_from_text _ _ (k +:+ "}") _ b)
        by (by apply no_brace_no_open_brace).
      f_equal. by apply IH.
Qed.

Lemma replace_all_segments (key value : string) (segs : list Segment) :
  no_brace key = true ->
  well_formed_template segs = true ->
  RegExp.replace_all (literal ("{" +:+ key +:+ "}"))
    (RegExp.ReplaceFunction (fun _ => value)) (render segs)
  = render (map (substitute_key key value) segs).
Proof.
  intros Hkey Hwf. unfold RegExp.replace_all. by apply replace_from_segments.
Qed.

(** ** The rounds of substitution on a well-formed template *)

Lemma substitute_key_well_formed (key value : string) (segs : list Segment) :
  no_open_brace value = true ->
  well_formed_template segs = true ->
  well_formed_template (map (substitute_key key value) segs) = true.
Proof.
  intros Hv. unfold well_formed_template. induction segs as [|seg segs IH]; [done|].
  cbn [map forallb]. intros [Hseg Hsegs]%andb_true_iff. rewrite (IH Hsegs), andb_true_r.
  destruct seg as [s|k]; [done|]. cbn [substitute_key].
  by destruct (String.eqb k key).
Qed.

Lemma html_step_segments (data : JsObject) (key : string) (segs : list Segment) :
  hasOwnProperty data key = true ->
  plain_key key = true ->
  well_formed_template segs = true ->
  html_step data key (render segs)
  = Returns (render (map (substitute_key key (to_string (get data key))) segs)).
Proof.
  intros Hown Hkey Hwf. unfold html_step. rewrite Hown, (compile_plain_key key Hkey).
  f_equal. apply replace_all_segments; [by apply plain_key_no_brace|done].
Qed.

Lemma html_loop_segments (data : JsObject) (ps : list Property) :
  forall segs : list Segment,
    well_formed_template segs = true ->
    (forall p, In p ps ->
       plain_key (p_key p) = true /\ no_open_brace (p_value p) = true
       /\ hasOwnProperty data (p_key p) = true
       /\ get data (p_key p) = Some (p_value p)) ->
    html_loop (html_step data) (map p_key ps) (render segs)
    = Returns (render (map (substitute_rounds ps) segs)).
Proof.
  induction ps as [|p ps IH]; intros segs Hwf Hps.
  { cbn [map html_loop]. f_equal. f_equal. symmetry. apply map_id. }
  destruct (Hps p (or_introl eq_refl)) as (Hkey & Hvalue & Hown & Hget).
  cbn [map html_loop]. rewrite (html_step_segments data (p_key p) segs Hown Hkey Hwf).
  rewrite Hget. cbn [to_string]. rewrite IH.
  - f_equal. f_equal. rewrite map_map. reflexivity.
  - by apply substitute_key_well_formed.
  - intros p' Hin. apply Hps. by right.
Qed.

Lemma substitute_rounds_text (ps : list Property) (s : string) :
  substitute_rounds ps (Text s) = Text s.
Proof. unfold substitute_rounds. induction ps as [|p ps IH]; [done|]. exact IH. Qed.

Lemma substitute_rounds_placeholder (ps : list Property) (key : string) :
  substitute_rounds ps (Placeholder key)
  = match lookup_property key ps with
    | Some p => Text (p_value p)
    | None => Placeholder key
    end.
Proof.
  unfold substitute_rounds. induction ps as [|p ps IH]; [done|].
  cbn [fold_left substitute_key lookup_property].
  destruct (String.eqb key (p_key p)); [|exact IH].
  apply (substitute_rounds_text ps).
Qed.

Lemma lookup_property_absent (key : string) (ps : list Property) (keep : Property -> bool) :
  ~ In key (map p_key ps) -> lookup_property key (List.filter keep ps) = None.
Proof.
  induction ps as [|p ps IH]; [done|].
  cbn [map In List.filter lookup_property]. intros Hnot.
  assert (String.eqb key (p_key p) = false) as Hne.
  { apply String.eqb_neq. intros ->. apply Hnot. by left. }
  destruct (keep p); cbn [lookup_property]; rewrite ?Hne; apply IH; tauto.
Qed.

Lemma lookup_property_enumerable (key : string) (own : list Property) :
  NoDup (map p_key own) ->
  lookup_property key (List.filter p_enumerable own)
  = match lookup_property key own with
    | Some p => if p_enumerable p then Some p else None
    | None => None
    end.
Proof.
  induction own as [|p own IH]; [done|].
  cbn [map]. intros Hnodup. apply NoDup_cons in Hnodup as [Hfresh Hnodup].
  rewrite list_elem_of_In in Hfresh.
  cbn [List.filter lookup_property].
  destruct (String.eqb_spec key (p_key p)) as [->|Hne].
  - destruct (p_enumerable p) eqn:He.
    + cbn [lookup_property]. by rewrite String.eqb_refl.
    + by apply lookup_property_absent.
  - destruct (p_enumerable p); cbn [lookup_property].
    + apply String.eqb_neq in Hne. rewrite Hne. by apply IH.
    + by apply IH.
Qed.

Lemma lookup_property_member (p : Property) (own : list Property) :
  NoDup (map p_key own) -> In p own ->
  lookup_property (p_key p) own = Some p.
Proof.
  induction own as [|q own IH]; [done|].
  cbn [map]. intros Hnodup. apply NoDup_cons in Hnodup as [Hfresh Hnodup].
  rewrite list_elem_of_In in Hfresh.
  cbn [In lookup_property]. intros [->|Hin].
  - by rewrite String.eqb_refl.
  - destruct (String.eqb_spec (p_key p) (p_key q)) as [Heq|_]; [|by apply IH].
    exfalso. apply Hfresh. rewrite <- Heq. by apply in_map.
Qed.

Lemma mem_In (k : string) (ks : list string) : In k ks -> mem k ks = true.
Proof.
  intros Hin. unfold mem. apply existsb_exists. exists k.
  split; [done|apply String.eqb_refl].
Qed.

(** On a well-formed template and a plain record the loop computes the
    substitution of the specification. *)
Lemma html_substitutes (segs : list Segment) (data : JsObject) :
  well_formed_template segs = true ->
  plain_record data = true ->
  html (render segs) data = Returns (substitute_literal data segs).
Proof.
  destruct data as [own proto]. unfold plain_record. cbn [own_properties].
  intros Hwf [Hplain Hnodup]%andb_true_iff.
  apply bool_decide_eq_true in Hnodup.
  rewrite html_own.
  rewrite (html_loop_segments (Obj own None) (List.filter p_enumerable own) segs Hwf).
  - unfold substitute_literal. f_equal. f_equal. apply map_ext. intros [s|key].
    + apply substitute_rounds_text.
    + rewrite substitute_rounds_placeholder. cbn [substitute_segment].
      unfold value_of. cbn [own_properties].
      rewrite (lookup_property_enumerable key own Hnodup).
      destruct (lookup_property key own) as [p|]; [|done].
      by destruct (p_enumerable p).
  - intros p [Hin He]%List.filter_In.
    rewrite forallb_forall in Hplain. specialize (Hplain p Hin).
    unfold plain_property in Hplain. rewrite He in Hplain. cbn [negb orb] in Hplain.
    apply andb_true_iff in Hplain as [Hkey Hvalue].
    repeat split; [done..| |].
    + unfold hasOwnProperty. cbn [own_properties]. apply mem_In. by apply in_map.
    + cbn [get]. by rewrite (lookup_property_member p own Hnodup Hin).
Qed.

(** ** The client of the pass-through engine *)

Lemma read_quoted_char (c : ascii) (rest : string) :
  Json.read_literal_body (Json.quote_char c +:+ rest)
  = match Json.read_literal_body rest with
    | Some (v, after) => Some (String c v, after)
    | None => None
    end.
Proof.
  destruct c as [[] [] [] [] [] [] [] []];
    match goal with
    | |- context [Json.quote_char ?c] =>
        let q := eval vm_compute in (Json.quote_char c) in
        change (Json.quote_char c) with q
    end;
    rewrite ?append_cons; change (EmptyString +:+ rest) with rest;
    simpl; destruct (Json.read_literal_body rest) as [[v after]|]; reflexivity.
Qed.

(** Reading back what [JSON.stringify] wrote gives the string. *)
Lemma read_quoted (s rest : string) :
  Json.read_literal (Json.stringify s +:+ rest) = Some (s, rest).
Proof.
  unfold Json.stringify. rewrite append_cons. cbn [Json.read_literal].
  rewrite append_assoc. change (String "034" EmptyString +:+ rest) with (String "034" rest).
  induction s as [|c s IH]; [reflexivity|].
  cbn [Json.quote_body]. rewrite append_assoc, read_quoted_char. by rewrite IH.
Qed.

Lemma prefix_append (p rest : string) : String.prefix p (p +:+ rest) = true.
Proof.
  induction p as [|c p IH]; [by destruct rest|].
  rewrite append_cons. cbn [String.prefix].
  destruct (ascii_dec c c); [exact IH|done].
Qed.

Lemma drop_append (p rest : string) : Str.drop (String.length p) (p +:+ rest) = rest.
Proof. induction p as [|c p IH]; [done|]. rewrite append_cons. exact IH. Qed.

Lemma strip_prefix_append (p rest : string) : strip_prefix p (p +:+ rest) = Some rest.
Proof. unfold strip_prefix. by rewrite prefix_append, drop_append. Qed.

Lemma take_while_append (p : ascii -> bool) (s : string) (c : ascii) (rest : string) :
  Str.forallb p s = true -> p c = false ->
  Str.take_while p (s +:+ String c rest) = s
  /\ Str.drop_while p (s +:+ String c rest) = String c rest.
Proof.
  intros Hs Hc. induction s as [|d s IH].
  { change (EmptyString +:+ String c rest) with (String c rest).
    cbn [Str.take_while Str.drop_while]. by rewrite Hc. }
  cbn [Str.forallb] in Hs. apply andb_true_iff in Hs as [Hd Hs].
  rewrite append_cons. cbn [Str.take_while Str.drop_while]. rewrite Hd.
  destruct (IH Hs) as [-> ->]. done.
Qed.

Lemma identifier_char_not_paren (s : string) :
  Str.forallb is_identifier_char s = true -> Str.forallb not_paren s = true.
Proof.
  induction s as [|c s IH]; [done|].
  cbn [Str.forallb]. intros [Hc Hs]%andb_true_iff. rewrite (IH Hs), andb_true_r.
  destruct (Ascii.eqb_spec c "(") as [->|Hne]; [discriminate Hc|].
  unfold not_paren. apply negb_true_iff. by apply Ascii.eqb_neq.
Qed.

Lemma function_name_chars (name : string) :
  is_function_name name = true -> Str.forallb is_identifier_char name = true.
Proof.
  destruct name as [|c name]; [done|]. unfold is_function_name, is_identifier.
  intros [[[_ H]%andb_true_iff _]%andb_true_iff _]%andb_true_iff. exact H.
Qed.

(** A replacement text of identifier characters without [$$] has no
    replacement pattern in it. *)
Lemma substitution_identifier (name matched before after : string) :
  Str.forallb is_identifier_char name = true ->
  Str.includes "$$" name = false ->
  RegExp.substitution name matched before after = name.
Proof.
  induction name as [|c name IH]; [done|].
  cbn [Str.forallb Str.includes]. intros [Hc Hname]%andb_true_iff [Hp Hno]%orb_false_iff.
  specialize (IH Hname Hno).
  destruct (Ascii.eqb_spec c "$") as [->|Hne].
  - destruct name as [|d name]; [reflexivity|].
    cbn [Str.forallb] in Hname. apply andb_true_iff in Hname as [Hd _].
    destruct d as [[] [] [] [] [] [] [] []];
      try discriminate Hd; try (by destruct name; vm_compute in Hp);
      (etrans; [|by rewrite <- IH]); reflexivity.
  - destruct c as [[] [] [] [] [] [] [] []];
      try discriminate Hc; try (by exfalso; apply Hne);
      cbn [RegExp.substitution]; by rewrite IH.
Qed.

Lemma replace_first_at_start (pattern replacement rest : string) :
  RegExp.replace_first pattern replacement (pattern +:+ rest)
  = RegExp.substitution replacement pattern EmptyString rest +:+ rest.
Proof.
  unfold RegExp.replace_first.
  assert (forall s, RegExp.replace_first_from pattern replacement EmptyString s
                    = if String.prefix pattern s
                      then RegExp.substitution replacement pattern EmptyString
                             (Str.drop (String.length pattern) s)
                           +:+ Str.drop (String.length pattern) s
                      else match s with
                           | EmptyString => EmptyString
                           | String c s' =>
                               String c (RegExp.replace_first_from pattern replacement
                                           (EmptyString +:+ String c EmptyString) s')
                           end) as Heq by (by intros []).
  by rewrite Heq, prefix_append, drop_append.
Qed.

(** The text that [transform] makes of the function built by
    [new Function] for a name that is under [client_name_ok]. *)
Lemma html_client_text (template : string) (name : option string) :
  client_name_ok name = true ->
  html_client template name
  = "function " +:+ to_string name
    +:+ ("(data" +:+ LF +:+ ") {" +:+ LF +:+ html_source +:+ LF +:+ "return html(")
    +:+ Json.stringify template +:+ ", data || {});" +:+ LF +:+ "}".
Proof.
  unfold client_name_ok. intros [Hname Hno]%andb_true_iff.
  apply negb_true_iff in Hno. apply function_name_chars in Hname.
  unfold html_client, transform, new_Function_source, html_client_body.
  change ("function anonymous(data" +:+ ?x)
    with ("function anonymous" +:+ ("(data" +:+ x)).
  rewrite replace_first_at_start.
  change (RegExp.substitution ("function " +:+ to_string name) ?m ?b ?a)
    with ("function " +:+ RegExp.substitution (to_string name) m b a).
  rewrite (substitution_identifier _ _ _ _ Hname Hno).
  rewrite !append_assoc. reflexivity.
Qed.

(** Evaluating the client gives the function that calls [html] on the
    template the artifact was compiled from. *)
Lemma evaluate_html_client (template : string) (name : option string) :
  client_name_ok name = true ->
  evaluate_client (html_client template name) = Some template.
Proof.
  intros Hok. rewrite (html_client_text template name Hok).
  unfold client_name_ok in Hok. apply andb_true_iff in Hok as [Hname _].
  unfold evaluate_client. rewrite strip_prefix_append.
  change (("(data" +:+ LF +:+ ") {" +:+ LF +:+ html_source +:+ LF +:+ "return html(")
          +:+ ?x)
    with (String "(" (("data" +:+ LF +:+ ") {" +:+ LF +:+ html_source +:+ LF
                       +:+ "return html(") +:+ x)).
  destruct (take_while_append not_paren (to_string name) "("
              (("data" +:+ LF +:+ ") {" +:+ LF +:+ html_source +:+ LF +:+ "return html(")
               +:+ Json.stringify template +:+ ", data || {});" +:+ LF +:+ "}"))
    as [-> ->]; [by apply identifier_char_not_paren, function_name_chars|done|].
  rewrite Hname.
  change (String "(" (("data" +:+ LF +:+ ") {" +:+ LF +:+ html_source +:+ LF
                       +:+ "return html(") +:+ ?x))
    with (("(data" +:+ LF +:+ ") {" +:+ LF +:+ html_source +:+ LF +:+ "return html(")
          +:+ x).
  rewrite strip_prefix_append, read_quoted. by rewrite String.eqb_refl.
Qed.

Lemma call_html_client (template : string) (name : option string)
    (data : option JsObject) :
  client_name_ok name = true ->
  call_client (html_client template name) data = call_server (HtmlServer template) data.
Proof. intros Hok. unfold call_client. by rewrite evaluate_html_client. Qed.

(** [compile] with the pass-through engine always succeeds; its artifact
    is a new object with the server closed over the template, the client
    text, and no library. *)
Lemma compile_html (env : Env) (template : string) (name : option string)
    (filename : string) (debug : Atom) (m : Machine) :
  exists m',
    compile env template (html_options name filename debug) m
    = (Ok (length (heap m)), m')
    /\ heap m' = heap m ++ [ {| artifact := html_artifact env template name;
                                expando := ∅ |} ].
Proof.
  unfold compile, html_options. cbn [o_engine o_filename].
  destruct (require_when_loads env m "html" (Some (Path.extname filename)))
    as (compiler & m1 & Hreq & _ & _ & _ & _ & Hheap & _).
  { unfold loads. change (String.eqb "html" "html") with true.
    by rewrite orb_true_r. }
  unfold bind at 1. rewrite Hreq.
  eexists. split.
  - unfold compile_switch. cbn [o_engine o_name].
    change (String.eqb "html" "hogan.js") with false.
    change (String.eqb "html" "handlebars") with false.
    change (String.eqb "html" "ejs") with false.
    change (String.eqb "html" "jade") with false.
    change (String.eqb "html" "react-jsx") with false.
    change (String.eqb "html" "html") with true.
    cbv beta iota.
    unfold bind, ret, hash_of, lift, allocate, value_toString, server_toString, bind, ret.
    cbv beta iota. rewrite Hheap. reflexivity.
  - reflexivity.
Qed.

Lemma quantifier_prefix_digits (key : string) :
  key <> EmptyString ->
  Str.forallb Str.is_digit key = true ->
  RegExp.quantifier_prefix (key +:+ "}") = true.
Proof.
  intros Hne Hdigits. unfold RegExp.quantifier_prefix.
  destruct (take_while_append Str.is_digit key "}" EmptyString Hdigits) as [-> ->];
    [done|].
  destruct key; [done|]. reflexivity.
Qed.

(** C3: the server does not replace the literal occurrences of [{key}]:
    [Temper.html] hands the key to [new RegExp] as it is, so a key is read
    as a regular expression.  A record whose one key is a number (as the
    keys of an array are) makes every call of the server throw a
    [SyntaxError], whatever the template is; the key [a.c] makes the server
    replace the placeholder [{abc}], which the record does not define and
    which was to be left as it is. *)
Theorem html_reads_keys_as_patterns :
  (forall key value template : string,
     key <> EmptyString ->
     Str.forallb Str.is_digit key = true ->
     exists text : string,
       call_server (HtmlServer template) (Some (object_literal [(key, value)]))
       = Throws (SyntaxError text))
  /\ (let template := [Text "<h1>"; Placeholder "abc"; Text "</h1>"] in
      let data := object_literal [("a.c", "X")] in
      well_formed_template template = true
      /\ render template = "<h1>{abc}</h1>"
      /\ value_of data "abc" = None
      /\ substitute_literal data template = "<h1>{abc}</h1>"
      /\ call_server (HtmlServer (render template)) (Some data) = Returns "<h1>X</h1>"
      /\ call_server (HtmlServer (render template)) (Some data)
         <> Returns (substitute_literal data template)).
Proof.
  split.
  - intros key value template Hne Hdigits.
    cbn [call_server]. unfold html_server, or_empty, html, object_literal.
    cbn [for_in map List.filter property p_enumerable p_key fst snd mem existsb
         negb andb app object_prototype].
    cbn [html_loop]. unfold html_step, hasOwnProperty.
    cbn [own_properties map p_key property fst mem existsb].
    rewrite String.eqb_refl. cbn [orb].
    unfold RegExp.compile.
    change ("{" +:+ key +:+ "}") with (String "{" (key +:+ "}")).
    cbn [RegExp.parse]. rewrite (quantifier_prefix_digits key Hne Hdigits).
    eexists. reflexivity.
  - vm_compute. repeat split. discriminate.
Qed.

Lemma html_reads_keys_as_patterns_witness :
  exists text : string,
    call_server (HtmlServer "<h1>{1}</h1>") (Some (object_literal [("1", "X")]))
    = Throws (SyntaxError text).
Proof.
  apply (proj1 html_reads_keys_as_patterns "1" "X" "<h1>{1}</h1>");
    [discriminate|reflexivity].
Defined.

(** The rounds run one after the other on the text that the rounds before
    have made: a value with an opening brace can be replaced again, and a
    value can close a placeholder that the template left open. *)
Example html_rounds_are_sequential :
  html "<p>{a}</p>" (object_literal [("a", "{b}"); ("b", "x")]) = Returns "<p>x</p>"
  /\ substitute_literal (object_literal [("a", "{b}"); ("b", "x")])
       [Text "<p>"; Placeholder "a"; Text "</p>"] = "<p>{b}</p>"
  /\ html "{x{a}y}" (object_literal [("a", EmptyString); ("xy", "Z")]) = Returns "Z"
  /\ substitute_literal (object_literal [("a", EmptyString); ("xy", "Z")])
       [Text "{x"; Placeholder "a"; Text "y}"] = "{xy}".
Proof. vm_compute. repeat split. Qed.

(** Where the keys are read as themselves the server substitutes as
    described: for a template in which every opening brace starts a
    placeholder, and a record with distinct keys whose keys have no brace
    and no character that a regular expression reads specially and whose
    values have no opening brace, the server replaces every placeholder of
    a key of the record by its value and leaves every other placeholder
    and all other text as they are.  And for every template, every record
    and every name under which the client is a function expression, the
    evaluated client gives on the record what the server gives. *)
Theorem html_substitution_and_round_trip :
  (forall (segs : list Segment) (data : JsObject),
     well_formed_template segs = true ->
     plain_record data = true ->
     call_server (HtmlServer (render segs)) (Some data)
     = Returns (substitute_literal data segs))
  /\ (forall (env : Env) (template : string) (name : option string)
             (filename : string) (debug : Atom) (m : Machine),
        client_name_ok name = true ->
        exists (m' : Machine) (o : ArtifactObject) (script : string),
          compile env template (html_options name filename debug) m
          = (Ok (length (heap m)), m')
          /\ heap m' !! length (heap m) = Some o
          /\ client (artifact o) = VString script
          /\ library (artifact o) = EmptyString
          /\ evaluate_client script = Some template
          /\ forall data : option JsObject,
               call_client script data = call_server (server (artifact o)) data).
Proof.
  split.
  - intros segs data Hwf Hplain. by apply html_substitutes.
  - intros env template name filename debug m Hok.
    destruct (compile_html env template name filename debug m) as (m' & Hc & Hh).
    exists m', {| artifact := html_artifact env template name; expando := ∅ |},
      (html_client template name).
    repeat split; try done.
    + rewrite Hh, lookup_app_r by lia. by rewrite Nat.sub_diag.
    + by apply evaluate_html_client.
    + intros data. by apply call_html_client.
Qed.

Lemma html_substitution_and_round_trip_witness :
  call_server (HtmlServer (render example_template)) (Some example_record)
  = Returns (substitute_literal example_record example_template)
  /\ exists (m' : Machine) (o : ArtifactObject) (script : string),
       compile example_page_env "<h1>{key}</h1>"
         (html_options (Some "page") "/views/page.html" AUndefined)
         example_caching_machine
       = (Ok (length (heap example_caching_machine)), m')
       /\ heap m' !! length (heap example_caching_machine) = Some o
       /\ client (artifact o) = VString script
       /\ library (artifact o) = EmptyString
       /\ evaluate_client script = Some "<h1>{key}</h1>"
       /\ forall data : option JsObject,
            call_client script data = call_server (server (artifact o)) data.
Proof.
  split.
  - apply (proj1 html_substitution_and_round_trip example_template example_record);
      vm_compute; reflexivity.
  - apply (proj2 html_substitution_and_round_trip example_page_env "<h1>{key}</h1>"
             (Some "page") "/views/page.html" AUndefined example_caching_machine).
    vm_compute. reflexivity.
Defined.

(** ** Values with replacement patterns *)

Lemma single_property_plain (key value : string) :
  plain_key key = true ->
  forall segs : list Segment,
    well_formed_template segs = true ->
    html (render segs) (object_literal [(key, value)])
    = Returns (substitute_literal (object_literal [(key, value)]) segs).
Proof.
  intros Hkey segs Hwf. unfold object_literal. cbn [map]. rewrite html_own.
  cbn [List.filter property p_enumerable fst snd map html_loop].
  rewrite html_step_segments; [|unfold hasOwnProperty, mem; cbn;
                                 by rewrite String.eqb_refl|done..].
  cbn [get lookup_property p_key p_value]. rewrite String.eqb_refl.
  cbn [to_string p_value]. unfold substitute_literal. f_equal. f_equal.
  apply map_ext. intros [s|k]; [done|].
  cbn [substitute_key substitute_segment]. unfold value_of.
  cbn [own_properties lookup_property p_key p_enumerable p_value].
  by destruct (String.eqb k _).
Qed.

(** C9: the value of a key is inserted as it is, whatever it contains:
    on a well-formed template a record with one plain key gives the
    template with the placeholders of the key replaced by the value,
    character for character, also for values with [$'], [$&], [$`] or [$$]
    in them, and so does a record of several plain keys whose values have
    no opening brace; the case of the test suite, [$'bar], gives
    [<h1>$'bar</h1>] from the server and from the evaluated client. *)
Theorem html_value_verbatim :
  (forall (key value : string) (segs : list Segment),
     plain_key key = true ->
     well_formed_template segs = true ->
     call_server (HtmlServer (render segs)) (Some (object_literal [(key, value)]))
     = Returns (render (map (substitute_key key value) segs)))
  /\ (forall (segs : list Segment) (data : JsObject),
        well_formed_template segs = true ->
        plain_record data = true ->
        call_server (HtmlServer (render segs)) (Some data)
        = Returns (render (map (substitute_segment data) segs)))
  /\ call_server (HtmlServer "<h1>{key}</h1>") (Some (object_literal [("key", "$'bar")]))
     = Returns "<h1>$'bar</h1>"
  /\ call_client (html_client "<h1>{key}</h1>" None)
       (Some (object_literal [("key", "$'bar")]))
     = Returns "<h1>$'bar</h1>"
  /\ call_server (HtmlServer "a{key}b{other}")
       (Some (object_literal [("key", "[$&|$`|$$]"); ("other", "$'")]))
     = Returns "a[$&|$`|$$]b$'".
Proof.
  repeat apply conj; try (vm_compute; reflexivity).
  - intros key value segs Hkey Hwf. cbn [call_server]. unfold html_server, or_empty.
    rewrite (single_property_plain key value Hkey segs Hwf).
    unfold substitute_literal. f_equal. f_equal. apply map_ext. intros [s|k]; [done|].
    cbn [substitute_key substitute_segment]. unfold value_of.
    cbn [object_literal map property own_properties lookup_property p_key
         p_enumerable p_value fst snd].
    by destruct (String.eqb k key).
  - intros segs data Hwf Hplain. by apply html_substitutes.
Qed.

Lemma html_value_verbatim_witness :
  call_server (HtmlServer (render example_template))
    (Some (object_literal [("key", "$'bar")]))
  = Returns (render (map (substitute_key "key" "$'bar") example_template)).
Proof.
  apply (proj1 html_value_verbatim "key" "$'bar" example_template);
    vm_compute; reflexivity.
Defined.

(** The earlier [Temper.html], which passes the value as a replacement
    string, expands the pattern: this is what the replacer function of the
    current one prevents. *)
Example html_value_expands_patterns :
  html_value no_function "<h1>{key}</h1>" (object_literal [("key", "$'bar")])
  = Returns "<h1></h1>bar</h1>".
Proof. vm_compute. reflexivity. Qed.

(** ** Failing calls *)






(** ** Paths of the form [dir/base.ext] *)

Lemma rev_app_acc (a b : string) :
  String.rev_app a b = String.rev_app a EmptyString +:+ b.
Proof.
  revert b. induction a as [|c a IH]; intros b; [done|].
  cbn [String.rev_app]. rewrite (IH (String c b)), (IH (String c EmptyString)).
  by rewrite append_assoc.
Qed.

Lemma rev_app_append (a b acc : string) :
  String.rev_app (a +:+ b) acc = String.rev_app b (String.rev_app a acc).
Proof.
  revert acc. induction a as [|c a IH]; intros acc; [done|].
  rewrite append_cons. cbn [String.rev_app]. apply IH.
Qed.

Lemma rev_append (a b : string) : Str.rev (a +:+ b) = Str.rev b +:+ Str.rev a.
Proof.
  unfold Str.rev, String.rev. rewrite rev_app_append. apply rev_app_acc.
Qed.

Lemma rev_app_rev_app (a b c : string) :
  String.rev_app (String.rev_app a b) c = String.rev_app b (a +:+ c).
Proof.
  revert b c. induction a as [|x a IH]; intros b c; [done|].
  cbn [String.rev_app]. rewrite IH. by rewrite append_cons.
Qed.

Lemma rev_involutive (s : string) : Str.rev (Str.rev s) = s.
Proof.
  unfold Str.rev, String.rev. rewrite rev_app_rev_app. cbn [String.rev_app].
  apply append_nil_r.
Qed.

Lemma forallb_rev_app (p : ascii -> bool) (a b : string) :
  Str.forallb p (String.rev_app a b) = Str.forallb p a && Str.forallb p b.
Proof.
  revert b. induction a as [|c a IH]; intros b; [done|].
  cbn [String.rev_app Str.forallb]. rewrite IH. cbn [Str.forallb].
  by destruct (p c), (Str.forallb p a), (Str.forallb p b).
Qed.

Lemma forallb_rev (p : ascii -> bool) (s : string) :
  Str.forallb p (Str.rev s) = Str.forallb p s.
Proof.
  unfold Str.rev, String.rev. rewrite forallb_rev_app. cbn [Str.forallb].
  apply andb_true_r.
Qed.

Lemma length_append (a b : string) :
  String.length (a +:+ b) = String.length a + String.length b.
Proof.
  induction a as [|c a IH]; [done|]. rewrite append_cons. cbn [String.length].
  by rewrite IH.
Qed.

Lemma take_append (a b : string) : Str.take (String.length a) (a +:+ b) = a.
Proof.
  induction a as [|c a IH]; [by destruct b|]. rewrite append_cons.
  cbn [String.length Str.take]. by rewrite IH.
Qed.

Lemma forallb_weaken (p q : ascii -> bool) (s : string) :
  (forall c, p c = true -> q c = true) ->
  Str.forallb p s = true -> Str.forallb q s = true.
Proof.
  intros Hpq. induction s as [|c s IH]; [done|]. cbn [Str.forallb].
  intros [Hc Hs]%andb_true_iff. by rewrite (Hpq c Hc), (IH Hs).
Qed.

Lemma plain_name_not_slash (c : ascii) :
  is_plain_name_char c = true -> negb (Path.is_slash c) = true.
Proof. unfold is_plain_name_char. by intros [H _]%andb_true_iff. Qed.

Lemma plain_name_not_dot (c : ascii) :
  is_plain_name_char c = true -> negb (Path.is_dot c) = true.
Proof. unfold is_plain_name_char. by intros [_ H]%andb_true_iff. Qed.

Lemma rev_cons (c : ascii) (s : string) :
  Str.rev (String c s) = Str.rev s +:+ String c EmptyString.
Proof. change (String c s) with (String c EmptyString +:+ s). apply rev_append. Qed.

Lemma rev_segment (pre seg : string) :
  Str.rev (pre +:+ "/" +:+ seg) = Str.rev seg +:+ String "/" (Str.rev pre).
Proof.
  rewrite rev_append. change ("/" +:+ seg) with (String "/" seg).
  rewrite rev_cons. by rewrite append_assoc.
Qed.

Lemma drop_while_first (p : ascii -> bool) (c : ascii) (s : string) :
  p c = false -> Str.drop_while p (String c s) = String c s.
Proof. intros H. cbn [Str.drop_while]. by rewrite H. Qed.

(** The last component of [pre/seg]. *)
Lemma last_component_segment (pre seg : string) :
  seg <> EmptyString ->
  Str.forallb (fun c => negb (Path.is_slash c)) seg = true ->
  Path.last_component (pre +:+ "/" +:+ seg) = seg.
Proof.
  intros Hne Hseg. unfold Path.last_component. rewrite rev_segment.
  assert (Str.forallb (fun c => negb (Path.is_slash c)) (Str.rev seg) = true) as Hrev
      by (by rewrite forallb_rev).
  assert (exists c r, Str.rev seg = String c r) as (c & r & Hr).
  { destruct (Str.rev seg) as [|c r] eqn:Hr; [|eauto].
    apply (f_equal Str.rev) in Hr. by rewrite rev_involutive in Hr. }
  assert (Path.is_slash c = false) as Hc.
  { rewrite Hr in Hrev. cbn [Str.forallb] in Hrev.
    apply andb_true_iff in Hrev as [Hc _]. by apply negb_true_iff. }
  assert (Str.drop_while Path.is_slash (Str.rev seg +:+ String "/" (Str.rev pre))
          = Str.rev seg +:+ String "/" (Str.rev pre)) as ->.
  { rewrite Hr, append_cons. by apply drop_while_first. }
  destruct (take_while_append (fun c => negb (Path.is_slash c)) (Str.rev seg) "/"
              (Str.rev pre) Hrev eq_refl) as [-> _].
  apply rev_involutive.
Qed.

Lemma forallb_append (p : ascii -> bool) (a b : string) :
  Str.forallb p (a +:+ b) = Str.forallb p a && Str.forallb p b.
Proof.
  induction a as [|c a IH]; [done|]. rewrite append_cons. cbn [Str.forallb].
  rewrite IH. by destruct (p c).
Qed.

(** [normalizeName] sees the base name of [dir/base.ext]. *)
Lemma basename_without_extname (dir base ext : string) :
  base <> EmptyString ->
  Str.forallb is_plain_name_char base = true ->
  Str.forallb is_plain_name_char ext = true ->
  Path.extname (dir +:+ "/" +:+ base +:+ "." +:+ ext) = "." +:+ ext
  /\ Path.basename (dir +:+ "/" +:+ base +:+ "." +:+ ext) ("." +:+ ext) = base.
Proof.
  intros Hne Hbase Hext.
  assert (Path.last_component (dir +:+ "/" +:+ base +:+ "." +:+ ext)
          = base +:+ "." +:+ ext) as Hlast.
  { apply last_component_segment; [by destruct base|].
    rewrite forallb_append. change ("." +:+ ext) with (String "." ext).
    cbn [Str.forallb]. change (negb (Path.is_slash ".")) with true.
    by rewrite !(forallb_weaken is_plain_name_char _ _ plain_name_not_slash). }
  assert (Str.rev (base +:+ "." +:+ ext)
          = Str.rev ext +:+ String "." (Str.rev base)) as Hrev.
  { rewrite rev_append. change ("." +:+ ext) with (String "." ext).
    rewrite rev_cons. by rewrite append_assoc. }
  assert (Str.forallb (fun c => negb (Path.is_dot c)) (Str.rev ext) = true) as Hrext.
  { rewrite forallb_rev.
    exact (forallb_weaken is_plain_name_char _ ext plain_name_not_dot Hext). }
  assert (exists c r, Str.rev base = String c r) as (c & r & Hrb).
  { destruct (Str.rev base) as [|c r] eqn:Hr; [|eauto].
    apply (f_equal Str.rev) in Hr. by rewrite rev_involutive in Hr. }
  assert (String.eqb (base +:+ "." +:+ ext) ".." = false) as Hdots.
  { destruct base as [|b base]; [done|].
    cbn [Str.forallb] in Hbase. apply andb_true_iff in Hbase as [Hb _].
    apply plain_name_not_dot, negb_true_iff in Hb. unfold Path.is_dot in Hb.
    rewrite append_cons. cbn [String.eqb]. by rewrite Hb. }
  assert (forall other : string,
            String.eqb ("." +:+ ext) (other +:+ base +:+ "." +:+ ext) = false) as Hlonger.
  { intros other. apply String.eqb_neq. intros Heq.
    apply (f_equal String.length) in Heq. rewrite !length_append in Heq.
    destruct base; [done|]. cbn [String.length] in Heq. lia. }
  split.
  - unfold Path.extname. rewrite Hlast, Hrev.
    destruct (take_while_append (fun c => negb (Path.is_dot c)) (Str.rev ext) "."
                (Str.rev base) Hrext eq_refl) as [-> ->].
    rewrite Hrb, Hdots. by rewrite rev_involutive.
  - unfold Path.basename. rewrite Hlast.
    assert ((0 <? String.length ("." +:+ ext))%nat
            && (String.length ("." +:+ ext)
                <=? String.length (dir +:+ "/" +:+ base +:+ "." +:+ ext))%nat
            = true) as ->.
    { apply andb_true_iff. split; [done|]. apply Nat.leb_le.
      rewrite !length_append. lia. }
    rewrite <- (append_assoc dir "/"), Hlonger.
    assert (Str.ends_with ("." +:+ ext) (base +:+ "." +:+ ext) = true) as ->.
    { unfold Str.ends_with. rewrite Hrev. change ("." +:+ ext) with (String "." ext).
      rewrite rev_cons.
      change (String "." (Str.rev base)) with ("." +:+ Str.rev base).
      rewrite <- append_assoc. apply prefix_append. }
    pose proof (Hlonger EmptyString) as Hself.
    change (EmptyString +:+ base +:+ "." +:+ ext) with (base +:+ "." +:+ ext) in Hself.
    rewrite Hself. cbn [andb negb].
    assert (String.length (base +:+ "." +:+ ext) - String.length ("." +:+ ext)
            = String.length base) as ->.
    { rewrite !length_append. lia. }
    apply take_append.
Qed.

(** C7: [normalizeName] takes the base name of the file without its
    extension, removes the leading digits and then every character that is
    not a letter, a digit, [_] or [$]; it is a total function whose result
    has only such characters.  For a file [dir/base.ext] the name is made
    from [base]; on ["9$-money_$00-test.jade"] it is ["$money_$00test"], on
    ["template.jade"] it is ["template"], and a base name of digits only
    or of symbols only gives the empty string. *)
Theorem normalizeName_spec :
  (forall path : string,
     normalizeName path
     = Str.filter is_identifier_char
         (Str.drop_while Str.is_digit (Path.basename path (Path.extname path)))
     /\ Str.forallb is_identifier_char (normalizeName path) = true)
  /\ (forall dir base ext : string,
        base <> EmptyString ->
        Str.forallb is_plain_name_char base = true ->
        Str.forallb is_plain_name_char ext = true ->
        normalizeName (dir +:+ "/" +:+ base +:+ "." +:+ ext)
        = Str.filter is_identifier_char (Str.drop_while Str.is_digit base)
        /\ (Str.forallb Str.is_digit base = true
            \/ Str.forallb (fun c => negb (is_identifier_char c)) base = true ->
            normalizeName (dir +:+ "/" +:+ base +:+ "." +:+ ext) = EmptyString))
  /\ normalizeName "9$-money_$00-test.jade" = "$money_$00test"
  /\ normalizeName "/home/templates/09$-money_$00-test.jade" = "$money_$00test"
  /\ normalizeName "template.jade" = "template"
  /\ normalizeName "/home/templates/template.jade" = "template"
  /\ normalizeName "2024.jade" = EmptyString
  /\ normalizeName "-+-.jade" = EmptyString.
Proof.
  repeat apply conj; try (vm_compute; reflexivity).
  - intros path. split; [reflexivity|apply filter_forallb].
  - intros dir base ext Hne Hbase Hext.
    destruct (basename_without_extname dir base ext Hne Hbase Hext) as [He Hb].
    assert (normalizeName (dir +:+ "/" +:+ base +:+ "." +:+ ext)
            = Str.filter is_identifier_char (Str.drop_while Str.is_digit base)) as Hn.
    { unfold normalizeName. by rewrite He, Hb. }
    split; [exact Hn|]. intros Hall. rewrite Hn. by apply normalize_symbols.
Qed.

Lemma normalizeName_spec_witness :
  normalizeName ("/srv/views" +:+ "/" +:+ "0451" +:+ "." +:+ "html") = EmptyString.
Proof.
  destruct normalizeName_spec as (_ & H & _).
  apply (H "/srv/views" "0451" "html"); [discriminate|reflexivity|reflexivity|].
  left. reflexivity.
Defined.

(** * Further properties *)

(** ** The caches of engines and of files *)

(** The state after a [require] that had to load the engine. *)
Lemma require_stored (env : Env) (engine : string) (extname : option string)
    (m m' : Machine) (compiler : option Compiler) :
  required (this m) !! engine = None ->
  require env engine extname m = (Ok compiler, m') ->
  m' = {| this := set_timers
                    (fun ts => <["require-" +:+ engine := engine_timer engine]> ts)
                    (set_required (fun r => <[engine := compiler]> r) (this m));
          heap := heap m |}.
Proof.
  intros Hnone H. unfold require in H. rewrite Hnone in H.
  destruct (String.eqb "html" engine).
  - by injection H as <- <-.
  - destruct (node_require env engine); [by injection H as <- <-|discriminate].
Qed.

(** X1: a [require] that loads an engine stores it under its name and
    sets the timer [require-<engine>] of five minutes, touching nothing
    else; from then on [require] answers with the stored engine without
    asking the module loader and without any change of state, so the timer
    is not renewed by a use. *)
Theorem require_stores_engine (env : Env) (engine : string) (extname : option string)
    (m m' : Machine) (compiler : option Compiler) :
  required (this m) !! engine = None ->
  require env engine extname m = (Ok compiler, m') ->
  required (this m') = <[engine := compiler]> (required (this m))
  /\ timers (this m') = <["require-" +:+ engine := engine_timer engine]> (timers (this m))
  /\ installed (this m') = installed (this m)
  /\ compiled (this m') = compiled (this m)
  /\ file (this m') = file (this m)
  /\ cache (this m') = cache (this m)
  /\ heap m' = heap m
  /\ forall (env' : Env) (extname' : option string),
       require env' engine extname' m' = (Ok compiler, m').
Proof.
  intros Hnone H. rewrite (require_stored env engine extname m m' compiler Hnone H).
  repeat split. intros env' extname'. unfold require. cbn.
  by rewrite lookup_insert_eq.
Qed.

Lemma require_stores_engine_witness :
  require (example_env [] [] None) "jade" None
    (snd (require (example_env ["jade"] [] None) "jade" None
            (fresh (example_env ["jade"] [] None))))
  = (Ok (Some example_compiler),
     snd (require (example_env ["jade"] [] None) "jade" None
            (fresh (example_env ["jade"] [] None)))).
Proof.
  destruct (require_stores_engine (example_env ["jade"] [] None) "jade" None
              (fresh (example_env ["jade"] [] None))
              (snd (require (example_env ["jade"] [] None) "jade" None
                      (fresh (example_env ["jade"] [] None))))
              (Some example_compiler))
    as (_ & _ & _ & _ & _ & _ & _ & H).
  - reflexivity.
  - reflexivity.
  - apply H.
Defined.

(** The state after a [read] that had to read the file. *)
Lemma read_stored (env : Env) (path content : string) (m m' : Machine) :
  file (this m) !! path = None ->
  read env path m = (Ok content, m') ->
  readFileSync env path = Ok content
  /\ m' = {| this := set_timers
                       (fun ts => <["read-" +:+ path := file_timer path]> ts)
                       (set_file (fun fs => <[path := content]> fs) (this m));
             heap := heap m |}.
Proof.
  intros Hnone H. unfold read in H. rewrite Hnone in H.
  destruct (readFileSync env path) as [c|] eqn:Hr; [|discriminate].
  by injection H as <- <-.
Qed.

(** X2: a [read] that reads a file stores its content under the path and
    sets the timer [read-<file>] of one minute, touching nothing else; from
    then on [read] answers with the stored content whatever the file has
    become, without any change of state. *)
Theorem read_stores_content (env : Env) (path content : string) (m m' : Machine) :
  file (this m) !! path = None ->
  read env path m = (Ok content, m') ->
  readFileSync env path = Ok content
  /\ file (this m') = <[path := content]> (file (this m))
  /\ timers (this m') = <["read-" +:+ path := file_timer path]> (timers (this m))
  /\ installed (this m') = installed (this m)
  /\ required (this m') = required (this m)
  /\ compiled (this m') = compiled (this m)
  /\ cache (this m') = cache (this m)
  /\ heap m' = heap m
  /\ forall env' : Env, read env' path m' = (Ok content, m').
Proof.
  intros Hnone H.
  destruct (read_stored env path content m m' Hnone H) as [Hr ->].
  repeat split; [exact Hr|]. intros env'. unfold read. cbn.
  by rewrite lookup_insert_eq.
Qed.

Lemma read_stores_content_witness :
  read example_changed_env "/views/page.html"
    (snd (read example_page_env "/views/page.html" (fresh example_page_env)))
  = (Ok "<h1>{key}</h1>",
     snd (read example_page_env "/views/page.html" (fresh example_page_env))).
Proof.
  destruct (read_stores_content example_page_env "/views/page.html" "<h1>{key}</h1>"
              (fresh example_page_env)
              (snd (read example_page_env "/views/page.html" (fresh example_page_env))))
    as (_ & _ & _ & _ & _ & _ & _ & _ & H).
  - reflexivity.
  - reflexivity.
  - apply H.
Defined.

(** X3: when the timer of an engine or of a file runs out, its callback
    deletes the entry and the timer is gone, and nothing else changes; the
    next [require] asks the module loader again (and fails if the module
    has gone), the next [read] reads the file as it is then. *)
Theorem eviction_forgets_entry :
  (forall (env : Env) (engine : string) (extname : option string) (m m' : Machine)
          (compiler : option Compiler),
     required (this m) !! engine = None ->
     timers (this m) !! ("require-" +:+ engine) = None ->
     require env engine extname m = (Ok compiler, m') ->
     fire ("require-" +:+ engine) m' = m
     /\ forall (env' : Env) (cause : JsError),
          engine <> "html" ->
          node_require env' engine = Throw cause ->
          require env' engine extname (fire ("require-" +:+ engine) m')
          = (Throw (not_installed engine extname), m))
  /\ (forall (env : Env) (path content : string) (m m' : Machine),
        file (this m) !! path = None ->
        timers (this m) !! ("read-" +:+ path) = None ->
        read env path m = (Ok content, m') ->
        fire ("read-" +:+ path) m' = m
        /\ forall (env' : Env) (content' : string),
             readFileSync env' path = Ok content' ->
             fst (read env' path (fire ("read-" +:+ path) m')) = Ok content').
Proof.
  split.
  - intros env engine extname m m' compiler Hnone Htimer H.
    pose proof (require_stored env engine extname m m' compiler Hnone H) as Hm'.
    assert (required (this m') = <[engine := compiler]> (required (this m))
            /\ timers (this m')
               = <["require-" +:+ engine := engine_timer engine]> (timers (this m))
            /\ installed (this m') = installed (this m)
            /\ compiled (this m') = compiled (this m)
            /\ file (this m') = file (this m)
            /\ cache (this m') = cache (this m)
            /\ heap m' = heap m) as (Hr & Ht & Hi & Hc & Hf & Hca & Hh)
      by (rewrite Hm'; by repeat split).
    clear Hm'.
    assert (fire ("require-" +:+ engine) m' = m) as Hfire.
    { unfold fire. rewrite Ht, lookup_insert_eq. cbn.
      destruct m as [[i r c t f ca] h], m' as [[i' r' c' t' f' ca'] h'].
      cbn in *. subst. f_equal. unfold set_required, set_timers. cbn. f_equal.
      - rewrite delete_insert_eq. by apply delete_id.
      - rewrite delete_insert_eq. by apply delete_id. }
    split; [exact Hfire|]. intros env' cause Hne Hl. rewrite Hfire.
    by eapply require_failure.
  - intros env path content m m' Hnone Htimer H.
    pose proof (read_stored env path content m m' Hnone H) as [_ Hm'].
    assert (file (this m') = <[path := content]> (file (this m))
            /\ timers (this m') = <["read-" +:+ path := file_timer path]> (timers (this m))
            /\ installed (this m') = installed (this m)
            /\ required (this m') = required (this m)
            /\ compiled (this m') = compiled (this m)
            /\ cache (this m') = cache (this m)
            /\ heap m' = heap m) as (Hf & Ht & Hi & Hr & Hc & Hca & Hh)
      by (rewrite Hm'; by repeat split).
    clear Hm'.
    assert (fire ("read-" +:+ path) m' = m) as Hfire.
    { unfold fire. rewrite Ht, lookup_insert_eq. cbn.
      destruct m as [[i r c t f ca] h], m' as [[i' r' c' t' f' ca'] h'].
      cbn in *. subst. f_equal. unfold set_file, set_timers. cbn. f_equal.
      - rewrite delete_insert_eq. by apply delete_id.
      - rewrite delete_insert_eq. by apply delete_id. }
    split; [exact Hfire|]. intros env' content' Hr'. rewrite Hfire.
    unfold read. by rewrite Hnone, Hr'.
Qed.

Lemma eviction_forgets_entry_witness :
  fire ("read-" +:+ "/views/page.html")
    (snd (read example_page_env "/views/page.html" (fresh example_page_env)))
  = fresh example_page_env.
Proof.
  destruct eviction_forgets_entry as [_ H].
  destruct (H example_page_env "/views/page.html" "<h1>{key}</h1>"
              (fresh example_page_env)
              (snd (read example_page_env "/views/page.html" (fresh example_page_env))))
    as [Hfire _].
  - reflexivity.
  - reflexivity.
  - reflexivity.
  - exact Hfire.
Defined.

Lemma fire_keeps_installed (name : string) (m : Machine) :
  installed (this (fire name m)) = installed (this m).
Proof.
  unfold fire. destruct (timers (this m) !! name) as [t|]; [|done].
  simpl. by destruct (callback t).
Qed.

(** X4: the binding of an extension outlives the engine it names: once an
    extension is bound, [discover] answers with the bound engine without
    changing the state, whatever the table of candidates and the module
    loader are, also after any timer has run out, that of the engine
    included. *)
Theorem binding_outlives_engine (path engine : string) (m : Machine) :
  installed (this m) !! Path.extname path = Some engine ->
  forall (supported : list (string * list string)) (env : Env),
    discover supported env path m = (Ok engine, m)
    /\ forall name : string,
         discover supported env path (fire name m) = (Ok engine, fire name m).
Proof.
  intros Hbound supported env. split; [by apply discover_bound|].
  intros name. apply discover_bound. by rewrite fire_keeps_installed.
Qed.

Lemma binding_outlives_engine_witness :
  discover [] (example_env [] [] None) "other.jade"
    (fire "require-jade"
       (snd (discover Temper_supported (example_env ["jade"] [] None) "page.jade"
               (fresh (example_env ["jade"] [] None)))))
  = (Ok "jade",
     fire "require-jade"
       (snd (discover Temper_supported (example_env ["jade"] [] None) "page.jade"
               (fresh (example_env ["jade"] [] None))))).
Proof.
  apply (binding_outlives_engine "other.jade" "jade"
           (snd (discover Temper_supported (example_env ["jade"] [] None) "page.jade"
                   (fresh (example_env ["jade"] [] None))))).
  vm_compute. reflexivity.
Defined.

(** ** Errors and answers of [discover] and [compile] *)

Lemma includes_unfold (needle s : string) :
  Str.includes needle s
  = String.prefix needle s
    || match s with
       | EmptyString => false
       | String _ rest => Str.includes needle rest
       end.
Proof. by destruct s. Qed.

Lemma includes_here (needle rest : string) :
  Str.includes needle (needle +:+ rest) = true.
Proof. by rewrite includes_unfold, prefix_append. Qed.

Lemma includes_later (needle before rest : string) :
  Str.includes needle rest = true -> Str.includes needle (before +:+ rest) = true.
Proof.
  intros H. induction before as [|c before IH]; [done|].
  rewrite append_cons. cbn [Str.includes]. rewrite IH. apply orb_true_r.
Qed.

(** X5: [discover] throws the error of an unknown extension exactly when
    the extension is neither bound nor in the table of candidates; the
    message gives the extension, no engine is tried and the state stays
    as it is. *)
Theorem discover_unknown_extension
    (supported : list (string * list string)) (env : Env) (path : string) (m : Machine) :
  (installed (this m) !! Path.extname path = None ->
   assoc (Path.extname path) supported = None ->
   discover supported env path m
   = (Throw (Error ("Unknown file extension. " +:+ Path.extname path
                    +:+ " is not supported")), m)
   /\ Str.includes (Path.extname path)
        ("Unknown file extension. " +:+ Path.extname path +:+ " is not supported") = true)
  /\ (forall m' : Machine,
        discover supported env path m
        = (Throw (unknown_extension (Path.extname path)), m') ->
        installed (this m) !! Path.extname path = None
        /\ assoc (Path.extname path) supported = None).
Proof.
  split.
  - intros Hi Hs. split.
    + unfold discover. by rewrite Hi, Hs.
    + apply includes_later, includes_here.
  - intros m'. unfold discover.
    destruct (installed (this m) !! Path.extname path); [intros [=]|].
    destruct (assoc (Path.extname path) supported) as [candidates|]; [|done].
    destruct (discover_filter env (Path.extname path) candidates m) as [[|e found] m1];
      intros [=].
Qed.

Lemma discover_unknown_extension_witness :
  discover Temper_supported (example_env ["jade"] [] None)
    "/care/bear/path/template.trololol" (fresh (example_env ["jade"] [] None))
  = (Throw (Error ("Unknown file extension. "
                   +:+ Path.extname "/care/bear/path/template.trololol"
                   +:+ " is not supported")),
     fresh (example_env ["jade"] [] None)).
Proof.
  apply (proj1 (discover_unknown_extension Temper_supported
                  (example_env ["jade"] [] None) "/care/bear/path/template.trololol"
                  (fresh (example_env ["jade"] [] None))));
    reflexivity.
Defined.

Lemma discover_filter_required (env : Env) (extname : string) (candidates : list string) :
  forall m : Machine,
    (forall e, In e candidates -> loads env m e = true ->
       is_Some (required (this (snd (discover_filter env extname candidates m))) !! e))
    /\ (forall e, is_Some (required (this m) !! e) ->
          is_Some (required (this (snd (discover_filter env extname candidates m))) !! e)).
Proof.
  induction candidates as [|engine rest IH]; intros m; [by split|].
  cbn [discover_filter]. destruct (loads env m engine) eqn:Hl.
  - destruct (require_when_loads env m engine (Some extname) Hl)
      as (compiler & m1 & -> & _ & _ & _ & _ & _ & Hr).
    set (m2 := {| this := _; heap := heap m1 |}).
    assert (required (this m2) = <[engine := compiler]> (required (this m))) as Hr2.
    { simpl. rewrite Hr. apply insert_insert_eq. }
    destruct (IH m2) as [IHload IHkeep].
    destruct (discover_filter env extname rest m2) as [found m3]. cbn [snd] in *.
    assert (is_Some (required (this m3) !! engine)) as Hengine.
    { apply IHkeep. rewrite Hr2, lookup_insert_eq. eauto. }
    split.
    + intros e [<-|Hin] He; [done|]. apply IHload; [done|].
      by rewrite (loads_insert env m m2 engine compiler Hl Hr2).
    + intros e He. apply IHkeep. rewrite Hr2.
      destruct (decide (engine = e)) as [->|Hne];
        [rewrite lookup_insert_eq; eauto|by rewrite lookup_insert_ne].
  - rewrite (require_when_stuck env m engine (Some extname) Hl).
    destruct (IH m) as [IHload IHkeep]. split; [|done].
    intros e [<-|Hin] He; [congruence|by apply IHload].
Qed.

(** X6: the engine that the first [discover] of an extension answers with
    is a candidate of the extension that loads, and it is stored when the
    call returns; so is every other candidate of the extension that
    loads, for the filter tries them all; no stored engine is dropped and
    the extension is bound afterwards. *)
Theorem discover_answer_is_loaded
    (supported : list (string * list string)) (env : Env) (path engine : string)
    (m m' : Machine) :
  installed (this m) !! Path.extname path = None ->
  discover supported env path m = (Ok engine, m') ->
  exists candidates : list string,
    assoc (Path.extname path) supported = Some candidates
    /\ In engine candidates
    /\ loads env m engine = true
    /\ is_Some (required (this m') !! engine)
    /\ (forall e, In e candidates -> loads env m e = true ->
          is_Some (required (this m') !! e))
    /\ (forall e, is_Some (required (this m) !! e) -> is_Some (required (this m') !! e))
    /\ is_Some (installed (this m') !! Path.extname path).
Proof.
  intros Hi H.
  destruct (assoc (Path.extname path) supported) as [candidates|] eqn:Hs.
  2:{ unfold discover in H. rewrite Hi, Hs in H. discriminate. }
  exists candidates.
  destruct (discover_unbound supported env path candidates m Hi Hs) as [Hfst Hlast].
  assert (snd (discover supported env path m)
          = snd (discover_filter env (Path.extname path) candidates m)) as Hsnd.
  { unfold discover. rewrite Hi, Hs.
    by destruct (discover_filter env (Path.extname path) candidates m) as [[|e f] m1]. }
  rewrite H in Hfst, Hlast, Hsnd. cbn [fst snd] in *.
  destruct (discover_filter_required env (Path.extname path) candidates m)
    as [Hload Hkeep].
  rewrite <- Hsnd in Hload, Hkeep.
  destruct (List.filter (loads env m) candidates) as [|e found] eqn:Hfilter;
    [discriminate|].
  injection Hfst as <-.
  assert (In engine candidates /\ loads env m engine = true) as [Hin Hl].
  { apply List.filter_In. rewrite Hfilter. by left. }
  repeat split; try done.
  - by apply Hload.
  - rewrite Hlast. destruct (last (engine :: found)) eqn:Hl'; [eauto|].
    by apply last_None in Hl'.
Qed.

Lemma discover_answer_is_loaded_witness :
  exists candidates : list string,
    assoc (Path.extname "a.mustache") Temper_supported = Some candidates
    /\ In "hogan.js" candidates
    /\ loads (example_env ["hogan.js"; "handlebars"] [] None)
         (fresh (example_env ["hogan.js"; "handlebars"] [] None)) "hogan.js" = true
    /\ is_Some (required
                  (this (snd (discover Temper_supported
                                (example_env ["hogan.js"; "handlebars"] [] None)
                                "a.mustache"
                                (fresh (example_env ["hogan.js"; "handlebars"] [] None)))))
                !! "hogan.js").
Proof.
  destruct (discover_answer_is_loaded Temper_supported
              (example_env ["hogan.js"; "handlebars"] [] None) "a.mustache" "hogan.js"
              (fresh (example_env ["hogan.js"; "handlebars"] [] None))
              (snd (discover Temper_supported
                      (example_env ["hogan.js"; "handlebars"] [] None) "a.mustache"
                      (fresh (example_env ["hogan.js"; "handlebars"] [] None)))))
    as (candidates & H1 & H2 & H3 & H4 & _).
  - reflexivity.
  - vm_compute. reflexivity.
  - exists candidates. by repeat split.
Defined.

(** X7: the errors of [require] and of [read] name what failed: the
    message of a failed [require] contains the name of the engine and the
    [npm install] to run, the message of a failed [read] contains the path
    and the message of the cause. *)
Theorem errors_name_what_failed :
  (forall (env : Env) (engine : string) (extname : option string)
          (m m' : Machine) (e : JsError),
     require env engine extname m = (Throw e, m') ->
     Str.includes engine (message e) = true
     /\ Str.includes ("npm install --save " +:+ engine) (message e) = true)
  /\ (forall (env : Env) (path : string) (m m' : Machine) (e : JsError),
        read env path m = (Throw e, m') ->
        Str.includes path (message e) = true
        /\ exists cause, readFileSync env path = Throw cause
             /\ Str.includes (message cause) (message e) = true).
Proof.
  split.
  - intros env engine extname m m' e H.
    apply require_throws_inv in H as (_ & -> & _). unfold not_installed. cbn [message].
    split.
    + apply includes_later, includes_here.
    + change (" templates. Run `npm install --save " +:+ ?x)
        with (" templates. Run `" +:+ ("npm install --save " +:+ x)).
      do 5 apply includes_later. rewrite <- append_assoc. apply includes_here.
  - intros env path m m' e H.
    apply read_throws_inv in H as (_ & _ & cause & Hc & ->). cbn [message]. split.
    + apply includes_later, includes_here.
    + exists cause. split; [done|]. do 3 apply includes_later.
      rewrite <- (append_nil_r (message cause)) at 2. apply includes_here.
Qed.

Lemma errors_name_what_failed_witness :
  Str.includes "cowdoodlesack"
    (message (not_installed "cowdoodlesack" None)) = true
  /\ Str.includes ("npm install --save " +:+ "cowdoodlesack")
       (message (not_installed "cowdoodlesack" None)) = true.
Proof.
  apply (proj1 errors_name_what_failed (example_env [] [] None) "cowdoodlesack" None
           (fresh (example_env [] [] None)) (fresh (example_env [] [] None))
           (not_installed "cowdoodlesack" None)).
  reflexivity.
Defined.

Lemma bind_step {A B} (c : M A) (k : A -> M B) (m m' : Machine) (a : A) :
  c m = (Ok a, m') -> bind c k m = k a m'.
Proof. intros H. unfold bind. by rewrite H. Qed.

Lemma bind_throw {A B} (c : M A) (k : A -> M B) (m m' : Machine) (e : JsError) :
  c m = (Throw e, m') -> bind c k m = (Throw e, m').
Proof. intros H. unfold bind. by rewrite H. Qed.

Lemma hash_of_ok (env : Env) (code : Result string) (m m' : Machine) (h : string) :
  hash_of env code m = (Ok h, m') ->
  m' = m /\ exists text, code = Ok text /\ h = md5_hex env text.
Proof.
  unfold hash_of, bind, lift, ret. destruct code as [text|e]; [|discriminate].
  intros [= <- <-]. eauto.
Qed.

Lemma not_compiled_engine (engine : string) :
  mem engine compiled_engines = false ->
  String.eqb engine "hogan.js" = false /\ String.eqb engine "handlebars" = false
  /\ String.eqb engine "ejs" = false /\ String.eqb engine "jade" = false
  /\ String.eqb engine "react-jsx" = false /\ String.eqb engine "html" = false.
Proof.
  unfold mem, compiled_engines. cbn [existsb].
  intros H. repeat (apply orb_false_iff in H as [? H]). done.
Qed.

(** With an engine that loads and that the [switch] has no case for,
    [compile] gets to the hash of the client, which is undefined. *)
Lemma compile_undefined_client (env : Env) (template : string) (options : CompileOptions)
    (m : Machine) :
  mem (o_engine options) compiled_engines = false ->
  loads env m (o_engine options) = true ->
  exists (text : string) (m' : Machine),
    compile env template options m = (Throw (TypeError text), m')
    /\ is_Some (required (this m') !! o_engine options)
    /\ heap m' = heap m
    /\ compiled (this m') = compiled (this m).
Proof.
  intros Hcase Hl. apply not_compiled_engine in Hcase as (H1 & H2 & H3 & H4 & H5 & H6).
  unfold compile. unfold bind at 1.
  destruct (require_when_loads env m (o_engine options)
              (Some (Path.extname (o_filename options))) Hl)
    as (compiler & m1 & Hreq & _ & Hc & _ & _ & Hh & Hr).
  rewrite Hreq. unfold compile_switch. rewrite H1, H2, H3, H4, H5, H6.
  eexists _, _. split; [reflexivity|]. repeat split; [|done|done].
  rewrite Hr, lookup_insert_eq. eauto.
Qed.

(** X8: [compile] has no case for an engine other than [hogan.js],
    [handlebars], [ejs], [jade], [react-jsx] and [html], and so never
    returns for one ([mustache], a candidate for [.mustache], is one):
    when the module loads, the server and the client stay undefined and
    hashing the client throws a [TypeError], after the engine was stored;
    when it does not load, the error of [require] comes out.  No artifact
    is made. *)
Theorem compile_without_case (env : Env) (template : string) (options : CompileOptions)
    (m : Machine) :
  mem (o_engine options) compiled_engines = false ->
  exists (e : JsError) (m' : Machine),
    compile env template options m = (Throw e, m')
    /\ (if loads env m (o_engine options)
        then (exists text, e = TypeError text)
             /\ is_Some (required (this m') !! o_engine options)
        else e = not_installed (o_engine options)
                   (Some (Path.extname (o_filename options)))
             /\ m' = m)
    /\ heap m' = heap m
    /\ compiled (this m') = compiled (this m).
Proof.
  intros Hcase. destruct (loads env m (o_engine options)) eqn:Hl.
  - destruct (compile_undefined_client env template options m Hcase Hl)
      as (text & m' & Hc & Hr & Hh & Hcc).
    exists (TypeError text), m'. repeat split; eauto.
  - exists (not_installed (o_engine options) (Some (Path.extname (o_filename options)))), m.
    split; [|done]. unfold compile. apply bind_throw. by apply require_when_stuck.
Qed.

Lemma compile_without_case_witness :
  assoc ".mustache" Temper_supported = Some ["hogan.js"; "mustache"; "handlebars"]
  /\ exists (e : JsError) (m' : Machine),
       compile (example_env ["mustache"] [] None) "{{title}}"
         {| o_engine := "mustache"; o_name := Some "page"; o_filename := "page.mustache";
            o_debug := AUndefined |}
         (fresh (example_env ["mustache"] [] None))
       = (Throw e, m')
       /\ heap m' = [].
Proof.
  split; [reflexivity|].
  destruct (compile_without_case (example_env ["mustache"] [] None) "{{title}}"
              {| o_engine := "mustache"; o_name := Some "page";
                 o_filename := "page.mustache"; o_debug := AUndefined |}
              (fresh (example_env ["mustache"] [] None)))
    as (e & m' & H & _ & Hh & _).
  - reflexivity.
  - exists e, m'. split; [exact H|exact Hh].
Defined.

(** X9: what a [compile] that returns has made: a new object at the end
    of the heap, with no property beside those of the artifact, whose
    [engine] is the engine asked for and whose three hashes are the
    digests of the library, of the text of the client and of the text of
    the server; the compiled cache and the caching flag are not touched,
    and a further [compile] makes a different object. *)
Theorem compile_makes_new_artifact (env : Env) (template : string)
    (options : CompileOptions) (m m' : Machine) (reference : nat) :
  compile env template options m = (Ok reference, m') ->
  reference = length (heap m)
  /\ (exists a : Artifact,
        heap m' = heap m ++ [ {| artifact := a; expando := ∅ |} ]
        /\ engine a = o_engine options
        /\ hash_library (hash a) = md5_hex env (library a)
        /\ (exists text, value_toString (client a) = Ok text
                         /\ hash_client (hash a) = md5_hex env text)
        /\ (exists text, server_toString (server a) = Ok text
                         /\ hash_server (hash a) = md5_hex env text))
  /\ compiled (this m') = compiled (this m)
  /\ cache (this m') = cache (this m)
  /\ (forall (env2 : Env) (template2 : string) (options2 : CompileOptions)
             (m2 : Machine) (reference2 : nat),
        compile env2 template2 options2 m' = (Ok reference2, m2) ->
        reference2 <> reference).
Proof.
  intros H. pose proof (compile_allocates env template options m m' reference H)
    as (Hr & [o Ho] & Hc & Hca).
  repeat split; try done.
  - unfold compile in H.
    apply bind_ok in H as (compiler & m1 & H1 & H).
    apply bind_ok in H as ([[srv cl] lib] & m2 & H2 & H).
    apply bind_ok in H as (lib_text & m3 & H3 & H).
    apply bind_ok in H as (h1 & m4 & H4 & H).
    apply bind_ok in H as (h2 & m5 & H5 & H).
    apply bind_ok in H as (h3 & m6 & H6 & H).
    apply hash_of_ok in H4 as (-> & t1 & [= <-] & ->).
    apply hash_of_ok in H5 as (-> & t2 & Ht2 & ->).
    apply hash_of_ok in H6 as (-> & t3 & Ht3 & ->).
    unfold allocate in H. injection H as _ <-. cbn [heap] in Ho.
    apply app_inj_tail in Ho as [Hheap <-].
    eexists. split; [by rewrite Hheap|]. cbn. eauto 10.
  - intros env2 template2 options2 m2 reference2 H2.
    apply compile_allocates in H2 as (-> & _). rewrite Ho, length_app. cbn. lia.
Qed.

Lemma compile_makes_new_artifact_witness :
  0 = length (heap example_caching_machine)
  /\ (exists a : Artifact,
        heap (snd (compile example_page_env "<h1>{key}</h1>"
                     (html_options (Some "page") "/views/page.html" AUndefined)
                     example_caching_machine))
        = heap example_caching_machine ++ [ {| artifact := a; expando := ∅ |} ]
        /\ engine a = o_engine (html_options (Some "page") "/views/page.html" AUndefined)
        /\ hash_library (hash a) = md5_hex example_page_env (library a)
        /\ (exists text, value_toString (client a) = Ok text
                         /\ hash_client (hash a) = md5_hex example_page_env text)
        /\ (exists text, server_toString (server a) = Ok text
                         /\ hash_server (hash a) = md5_hex example_page_env text)).
Proof.
  destruct (compile_makes_new_artifact example_page_env "<h1>{key}</h1>"
              (html_options (Some "page") "/views/page.html" AUndefined)
              example_caching_machine
              (snd (compile example_page_env "<h1>{key}</h1>"
                      (html_options (Some "page") "/views/page.html" AUndefined)
                      example_caching_machine)) 0)
    as (H1 & H2 & _).
  - vm_compute. reflexivity.
  - split; [exact H1|exact H2].
Defined.

(** ** [fetch], step by step *)

Lemma keeps_installed_ret {A} (a : A) : keeps_installed (ret a).
Proof. by intros m. Qed.

Lemma keeps_installed_lift {A} (r : Result A) : keeps_installed (lift r).
Proof. by intros m. Qed.

Lemma keeps_installed_bind {A B} (c : M A) (k : A -> M B) :
  keeps_installed c -> (forall a, keeps_installed (k a)) -> keeps_installed (bind c k).
Proof.
  intros Hc Hk m. unfold bind. specialize (Hc m).
  destruct (c m) as [[a|e] m1]; simpl in *; [by rewrite Hk|done].
Qed.

Lemma keeps_installed_require (env : Env) (engine : string) (extname : option string) :
  keeps_installed (require env engine extname).
Proof.
  intros m. unfold require. destruct (required (this m) !! engine); [done|].
  destruct (String.eqb "html" engine); [done|].
  by destruct (node_require env engine).
Qed.

Lemma keeps_installed_read (env : Env) (path : string) :
  keeps_installed (read env path).
Proof.
  intros m. unfold read. destruct (file (this m) !! path); [done|].
  by destruct (readFileSync env path).
Qed.

Lemma keeps_installed_call (compiler : option Compiler)
    (method : Compiler -> option Method) (template : string) (options : Options) :
  keeps_installed (call compiler method template options).
Proof.
  unfold call. destruct compiler as [c|]; [|done]. by destruct (method c).
Qed.

Ltac keeps_installed_step :=
  first [ apply keeps_installed_ret | apply keeps_installed_lift
        | apply keeps_installed_call | apply keeps_installed_require
        | apply keeps_installed_read
        | apply keeps_installed_bind; [|intros ?] ].

Lemma keeps_installed_compile (env : Env) (template : string) (options : CompileOptions) :
  keeps_installed (compile env template options).
Proof.
  unfold compile. apply keeps_installed_bind; [apply keeps_installed_require|].
  intros compiler. apply keeps_installed_bind.
  { unfold compile_switch, transform_value, engine_directory.
    repeat match goal with
           | |- keeps_installed (if ?b then _ else _) => destruct b
           end; repeat keeps_installed_step. }
  intros [[srv cl] lib]. apply keeps_installed_bind.
  { destruct lib as [[|c p]|]; keeps_installed_step. }
  intros library. unfold hash_of. repeat keeps_installed_step. by intros m.
Qed.

(** The steps of a [fetch] that had to compile and returned. *)
Lemma fetch_ok_inv (supported : list (string * list string)) (env : Env)
    (path : string) (engine : option string) (m m' : Machine) (reference : nat) :
  compiled (this m) !! path = None ->
  fetch supported env path engine m = (Ok reference, m') ->
  exists (template chosen : string) (m1 m2 m3 : Machine),
    read env path m = (Ok template, m1)
    /\ engine_or_discover supported env engine path m1 = (Ok chosen, m2)
    /\ compile env template
         {| o_engine := chosen; o_name := Some (normalizeName path);
            o_filename := path; o_debug := AUndefined |} m2 = (Ok reference, m3)
    /\ m' = (if cache (this m3)
             then {| this := set_compiled (fun c => <[path := reference]> c) (this m3);
                     heap := heap m3 |}
             else m3).
Proof.
  intros Hc. unfold fetch, prefetch. rewrite Hc. intros H.
  apply bind_ok in H as (template & m1 & H1 & H).
  apply bind_ok in H as (chosen & m2 & H2 & H).
  apply bind_ok in H as (r & m3 & H3 & H).
  unfold bind, read_this in H. exists template, chosen, m1, m2, m3.
  destruct (cache (this m3)); simpl in H; injection H as <- <-; done.
Qed.

Lemma keeps_engine_or_discover (supported : list (string * list string)) (env : Env)
    (engine : option string) (path : string) :
  keeps (engine_or_discover supported env engine path).
Proof.
  destruct engine as [[|c s]|]; [apply keeps_discover|apply keeps_ret|apply keeps_discover].
Qed.

(** X10: with caching off a [fetch] that returns has compiled: the result
    is a new object at the end of the heap and nothing is stored under the
    path, so the next [fetch] of the path, whatever the world and the
    engine asked for, compiles again and returns a different object. *)
Theorem fetch_without_cache (supported : list (string * list string)) (env : Env)
    (path : string) (engine : option string) (m m1 : Machine) (reference : nat) :
  cache (this m) = false ->
  compiled (this m) !! path = None ->
  fetch supported env path engine m = (Ok reference, m1) ->
  reference = length (heap m)
  /\ length (heap m1) = S (length (heap m))
  /\ compiled (this m1) = compiled (this m)
  /\ cache (this m1) = false
  /\ (forall (env' : Env) (engine' : option string) (m2 : Machine) (reference' : nat),
        fetch supported env' path engine' m1 = (Ok reference', m2) ->
        reference' = S reference /\ compiled (this m2) = compiled (this m)).
Proof.
  assert (forall env path engine m m1 reference,
             cache (this m) = false ->
             compiled (this m) !! path = None ->
             fetch supported env path engine m = (Ok reference, m1) ->
             reference = length (heap m)
             /\ length (heap m1) = S (length (heap m))
             /\ compiled (this m1) = compiled (this m)
             /\ cache (this m1) = false) as Hone.
  { clear. intros env path engine m m1 reference Hcache Hc H.
    apply fetch_ok_inv in H as (template & chosen & ma & mb & mc & Hr & He & Hco & ->);
      [|done].
    pose proof (keeps_read env path m) as (Hr1 & Hr2 & Hr3). rewrite Hr in *.
    pose proof (keeps_engine_or_discover supported env engine path ma) as (He1 & He2 & He3).
    rewrite He in *. simpl in *.
    apply compile_allocates in Hco as Hall. destruct Hall as (-> & [o Ho] & Hc1 & Hc2).
    assert (cache (this mc) = false) as Hoff by congruence. rewrite Hoff.
    repeat split.
    - congruence.
    - rewrite Ho, length_app. simpl. rewrite He3, Hr3. lia.
    - congruence.
    - done. }
  intros Hcache Hc H.
  destruct (Hone _ _ _ _ _ _ Hcache Hc H) as (-> & Hlen & Hcomp & Hoff).
  do 4 (split; [done|]).
  intros env' engine' m2 reference' H2.
  apply Hone in H2 as (-> & _ & -> & _); [by rewrite Hlen|done|by rewrite Hcomp].
Qed.

Lemma fetch_without_cache_witness :
  exists m1 : Machine,
    fetch Temper_supported example_page_env "/views/page.html" None
      {| this := new_Temper example_page_env (Some {| option_cache := Some false |});
         heap := [] |} = (Ok 0, m1)
    /\ 0 = length (@nil ArtifactObject)
    /\ length (heap m1) = 1.
Proof.
  eexists. split; [vm_compute; reflexivity|].
  match goal with
  | |- _ /\ length (heap ?m1) = _ =>
      destruct (fetch_without_cache Temper_supported example_page_env "/views/page.html"
                  None
                  {| this := new_Temper example_page_env
                               (Some {| option_cache := Some false |});
                     heap := [] |} m1 0) as (H1 & H2 & _)
  end.
  - reflexivity.
  - reflexivity.
  - vm_compute. reflexivity.
  - split; [exact H1|exact H2].
Defined.


(** X11: an engine given to [fetch] is used as it is: the table of the
    extensions is not consulted, whether the call returns or throws no
    extension is bound, and an empty engine name counts as none given. *)
Theorem fetch_with_engine (supported : list (string * list string)) (env : Env)
    (path : string) (c : ascii) (e : string) (m : Machine) :
  (forall supported' : list (string * list string),
     fetch supported' env path (Some (String c e)) m
     = fetch supported env path (Some (String c e)) m)
  /\ installed (this (snd (fetch supported env path (Some (String c e)) m)))
     = installed (this m)
  /\ fetch supported env path (Some EmptyString) m = fetch supported env path None m.
Proof.
  split; [done|]. split; [|done].
  unfold fetch, prefetch. destruct (compiled (this m) !! path); [done|].
  revert m. fold (keeps_installed
    (let! template := read env path in
     let! chosen := engine_or_discover supported env (Some (String c e)) path in
     let! reference := compile env template
                         {| o_engine := chosen; o_name := Some (normalizeName path);
                            o_filename := path; o_debug := AUndefined |} in
     let! caching := read_this cache in
     if negb caching then ret reference
     else run modify (set_compiled (fun c => <[path := reference]> c)) in ret reference)).
  apply keeps_installed_bind; [apply keeps_installed_read|intros template].
  apply keeps_installed_bind; [apply keeps_installed_ret|intros chosen].
  apply keeps_installed_bind; [apply keeps_installed_compile|intros reference].
  intros m. unfold bind, read_this. by destruct (cache (this m)).
Qed.

(** X12: the order in which a [fetch] that has to compile fails.  The
    file is read first: when it cannot be read the error of [read] comes
    out and the instance is unchanged, whatever engine was asked for.
    When the file reads, the engine is settled next: with no engine given
    and an extension that is neither bound nor in the table the error of
    [discover] comes out, and with an engine given that does not load the
    error of [require] comes out; in both cases what the read stored stays
    stored and nothing else changed. *)
Theorem fetch_fails_in_order (supported : list (string * list string)) (env : Env)
    (path : string) (m : Machine) :
  compiled (this m) !! path = None ->
  (forall (cause : JsError) (engine : option string),
     file (this m) !! path = None ->
     readFileSync env path = Throw cause ->
     fetch supported env path engine m
     = (Throw (Error ("Unable to read " +:+ path +:+ " due to " +:+ message cause)), m))
  /\ (forall (template : string) (m1 : Machine),
        read env path m = (Ok template, m1) ->
        installed (this m) !! Path.extname path = None ->
        assoc (Path.extname path) supported = None ->
        fetch supported env path None m
        = (Throw (unknown_extension (Path.extname path)), m1))
  /\ (forall (template : string) (m1 : Machine) (c : ascii) (e : string),
        read env path m = (Ok template, m1) ->
        loads env m (String c e) = false ->
        fetch supported env path (Some (String c e)) m
        = (Throw (not_installed (String c e) (Some (Path.extname path))), m1)).
Proof.
  intros Hc. unfold fetch, prefetch. rewrite Hc. repeat split.
  - intros cause engine Hf Hr. apply bind_throw. unfold read. by rewrite Hf, Hr.
  - intros template m1 Hr Hi Hs. rewrite (bind_step _ _ _ _ _ Hr).
    apply bind_throw. unfold engine_or_discover, discover.
    pose proof (keeps_installed_read env path m) as Hk. rewrite Hr in Hk. simpl in Hk.
    by rewrite Hk, Hi, Hs.
  - intros template m1 c e Hr Hl. rewrite (bind_step _ _ _ _ _ Hr).
    erewrite bind_step by reflexivity. apply bind_throw.
    unfold compile. apply bind_throw. cbn [o_engine o_filename].
    apply require_when_stuck.
    revert Hr Hl. unfold read, loads. destruct (file (this m) !! path).
    + by intros [= <- <-].
    + destruct (readFileSync env path); [|intros [=]]. by intros [= <- <-].
Qed.

Lemma fetch_fails_in_order_witness :
  fetch Temper_supported (example_env [] [("/a.txt", "text")] None) "/b.txt" None
    (fresh (example_env [] [("/a.txt", "text")] None))
  = (Throw (Error ("Unable to read " +:+ "/b.txt" +:+ " due to "
                   +:+ message (no_such_file "/b.txt"))),
     fresh (example_env [] [("/a.txt", "text")] None))
  /\ fetch Temper_supported (example_env [] [("/a.txt", "text")] None) "/a.txt" None
       (fresh (example_env [] [("/a.txt", "text")] None))
     = (Throw (unknown_extension (Path.extname "/a.txt")),
        snd (read (example_env [] [("/a.txt", "text")] None) "/a.txt"
               (fresh (example_env [] [("/a.txt", "text")] None))))
  /\ fetch Temper_supported (example_env [] [("/a.txt", "text")] None) "/a.txt"
       (Some "ejs") (fresh (example_env [] [("/a.txt", "text")] None))
     = (Throw (not_installed "ejs" (Some (Path.extname "/a.txt"))),
        snd (read (example_env [] [("/a.txt", "text")] None) "/a.txt"
               (fresh (example_env [] [("/a.txt", "text")] None)))).
Proof.
  split; [|split].
  - apply (fetch_fails_in_order Temper_supported (example_env [] [("/a.txt", "text")] None)
             "/b.txt" (fresh (example_env [] [("/a.txt", "text")] None)));
      reflexivity.
  - apply (fetch_fails_in_order Temper_supported (example_env [] [("/a.txt", "text")] None)
             "/a.txt" (fresh (example_env [] [("/a.txt", "text")] None)))
      with (template := "text"); reflexivity.
  - apply (fetch_fails_in_order Temper_supported (example_env [] [("/a.txt", "text")] None)
             "/a.txt" (fresh (example_env [] [("/a.txt", "text")] None)))
      with (template := "text"); reflexivity.
Defined.

(** X13: a file of the pass-through engine fetches in any world in
    which it reads, with no module installed: for an extension whose only
    candidate is [html] (as [.html] in the shipped table), not yet bound,
    [fetch] without an engine returns a new object that holds the artifact
    of the file's content under the normalized name of the file, binds the
    extension to [html], and stores the object under the path exactly when
    caching is on. *)
Theorem fetch_html_file (supported : list (string * list string)) (env : Env)
    (path template : string) (m m1 : Machine) :
  assoc (Path.extname path) supported = Some ["html"] ->
  installed (this m) !! Path.extname path = None ->
  compiled (this m) !! path = None ->
  read env path m = (Ok template, m1) ->
  exists m' : Machine,
    fetch supported env path None m = (Ok (length (heap m)), m')
    /\ heap m'
       = heap m ++ [ {| artifact := html_artifact env template (Some (normalizeName path));
                        expando := ∅ |} ]
    /\ installed (this m') = <[Path.extname path := "html"]> (installed (this m))
    /\ compiled (this m')
       = (if cache (this m) then <[path := length (heap m)]> (compiled (this m))
          else compiled (this m))
    /\ file (this m') = file (this m1).
Proof.
  intros Hs Hi Hc Hr.
  pose proof (keeps_read env path m) as (Hr1 & Hr2 & Hr3).
  pose proof (keeps_installed_read env path m) as Hr4.
  rewrite Hr in *. simpl in *.
  destruct (require_when_loads env m1 "html" (Some (Path.extname path)))
    as (compiler & m2 & Hreq & Hq1 & Hq2 & Hq3 & Hq4 & Hq5 & Hq6).
  { unfold loads. change (String.eqb "html" "html") with true. by rewrite orb_true_r. }
  set (m3 := {| this := set_installed (fun i => <[Path.extname path := "html"]> i)
                          (set_required (fun r => <["html" := compiler]> r) (this m2));
                heap := heap m2 |}).
  assert (discover supported env path m1 = (Ok "html", m3)) as Hd.
  { unfold discover. rewrite Hr4, Hi, Hs. cbn [discover_filter]. by rewrite Hreq. }
  assert (require env "html" (Some (Path.extname path)) m3 = (Ok compiler, m3)) as Hreq3.
  { unfold require. subst m3. cbn [this required set_installed set_required].
    by rewrite lookup_insert_eq. }
  assert (compile env template
            {| o_engine := "html"; o_name := Some (normalizeName path);
               o_filename := path; o_debug := AUndefined |} m3
          = (Ok (length (heap m3)),
             {| this := this m3;
                heap := heap m3
                        ++ [ {| artifact :=
                                  html_artifact env template (Some (normalizeName path));
                                expando := ∅ |} ] |})) as Hco.
  { unfold compile. cbn [o_engine o_filename]. rewrite (bind_step _ _ _ _ _ Hreq3).
    unfold compile_switch. cbn [o_engine o_name].
    change (String.eqb "html" "hogan.js") with false.
    change (String.eqb "html" "handlebars") with false.
    change (String.eqb "html" "ejs") with false.
    change (String.eqb "html" "jade") with false.
    change (String.eqb "html" "react-jsx") with false.
    change (String.eqb "html" "html") with true.
    cbv beta iota. reflexivity. }
  assert (heap m3 = heap m) as Hh3 by (simpl; congruence).
  assert (cache (this m3) = cache (this m)) as Hca by (simpl; congruence).
  assert (installed (this m3) = <[Path.extname path := "html"]> (installed (this m)))
    as Hin by (simpl; congruence).
  assert (compiled (this m3) = compiled (this m)) as Hcm by (simpl; congruence).
  assert (file (this m3) = file (this m1)) as Hfi by (simpl; congruence).
  clearbody m3.
  destruct (cache (this m)) eqn:Hcache.
  - eexists. split.
    + unfold fetch, prefetch. rewrite Hc. rewrite (bind_step _ _ _ _ _ Hr).
      unfold engine_or_discover. rewrite (bind_step _ _ _ _ _ Hd).
      rewrite (bind_step _ _ _ _ _ Hco).
      unfold bind, read_this, modify, ret. cbn [this cache heap].
      rewrite Hca, Hh3. reflexivity.
    + cbn. rewrite Hin, Hcm, Hfi. done.
  - eexists. split.
    + unfold fetch, prefetch. rewrite Hc. rewrite (bind_step _ _ _ _ _ Hr).
      unfold engine_or_discover. rewrite (bind_step _ _ _ _ _ Hd).
      rewrite (bind_step _ _ _ _ _ Hco).
      unfold bind, read_this, modify, ret. cbn [this cache heap].
      rewrite Hca, Hh3. reflexivity.
    + cbn. rewrite Hin, Hcm, Hfi. done.
Qed.

Lemma fetch_html_file_witness :
  exists m' : Machine,
    fetch Temper_supported example_page_env "/views/page.html" None example_caching_machine
    = (Ok 0, m')
    /\ heap m'
       = [ {| artifact := html_artifact example_page_env "<h1>{key}</h1>" (Some "page");
              expando := ∅ |} ]
    /\ installed (this m') !! ".html" = Some "html"
    /\ compiled (this m') !! "/views/page.html" = Some 0.
Proof.
  destruct (fetch_html_file Temper_supported example_page_env "/views/page.html"
              "<h1>{key}</h1>" example_caching_machine
              (snd (read example_page_env "/views/page.html" example_caching_machine)))
    as (m' & H & Hheap & Hi & Hc & _); try reflexivity.
  exists m'. split; [exact H|]. split; [exact Hheap|].
  split; [by rewrite Hi|by rewrite Hc].
Defined.

(** X14: the shipped table lists [mustache] among the candidates of
    [.mustache], and [compile] has no case for it.  So where [hogan.js]
    does not load and [mustache] does, [discover] answers [mustache] and a
    [fetch] of a [.mustache] file that reads throws a [TypeError]: no
    artifact is made and nothing is stored under the path, while the
    extension stays bound, so that every later [fetch] of such a file
    fails as well unless an engine is given. *)
Theorem fetch_mustache_module (env : Env) (path template : string) (m m1 : Machine) :
  Path.extname path = ".mustache" ->
  installed (this m) !! ".mustache" = None ->
  compiled (this m) !! path = None ->
  read env path m = (Ok template, m1) ->
  loads env m "hogan.js" = false ->
  loads env m "mustache" = true ->
  exists (text : string) (m' : Machine),
    fetch Temper_supported env path None m = (Throw (TypeError text), m')
    /\ heap m' = heap m
    /\ compiled (this m') = compiled (this m)
    /\ (exists engine, installed (this m') !! ".mustache" = Some engine
                       /\ engine <> "hogan.js").
Proof.
  intros Hext Hi Hc Hr Hhogan Hmustache.
  assert (forall e, loads env m1 e = loads env m e) as Hloads.
  { intros e. revert Hr. unfold read, loads. destruct (file (this m) !! path).
    - by intros [= <- <-].
    - destruct (readFileSync env path); [|intros [=]]. by intros [= <- <-]. }
  pose proof (keeps_installed_read env path m) as Hk. rewrite Hr in Hk. simpl in Hk.
  pose proof (keeps_read env path m) as (Hr1 & _ & Hr3). rewrite Hr in *. simpl in *.
  assert (installed (this m1) !! Path.extname path = None) as Hi1 by (by rewrite Hext, Hk).
  assert (assoc (Path.extname path) Temper_supported
          = Some ["hogan.js"; "mustache"; "handlebars"]) as Hs by (by rewrite Hext).
  pose proof (discover_unbound Temper_supported env path _ m1 Hi1 Hs) as [Hfst Hsnd].
  pose proof (keeps_discover Temper_supported env path m1) as (Hd1 & _ & Hd3).
  destruct (discover Temper_supported env path m1) as [answer m2] eqn:Hd.
  cbn [fst snd List.filter] in Hfst, Hsnd, Hd1, Hd3.
  rewrite !Hloads, Hhogan, Hmustache in Hfst, Hsnd. subst answer.
  assert (m2 = snd (discover_filter env (Path.extname path)
                      ["hogan.js"; "mustache"; "handlebars"] m1)) as Hm2.
  { revert Hd. unfold discover. rewrite Hi1, Hs.
    destruct (discover_filter env (Path.extname path) _ m1) as [found mf].
    destruct found; by intros [= _ <-]. }
  assert (loads env m2 "mustache" = true) as Hl2.
  { destruct (discover_filter_required env (Path.extname path)
                ["hogan.js"; "mustache"; "handlebars"] m1) as [Hstored _].
    rewrite <- Hm2 in Hstored. unfold loads.
    rewrite bool_decide_eq_true_2; [done|].
    apply Hstored; [right; by left|by rewrite Hloads]. }
  destruct (compile_undefined_client env template
              {| o_engine := "mustache"; o_name := Some (normalizeName path);
                 o_filename := path; o_debug := AUndefined |} m2)
    as (text & m3 & Hco & _ & Hh & Hcc); [reflexivity|exact Hl2|].
  pose proof (keeps_installed_compile env template
                {| o_engine := "mustache"; o_name := Some (normalizeName path);
                   o_filename := path; o_debug := AUndefined |} m2) as Hk3.
  rewrite Hco in Hk3. simpl in Hk3.
  exists text, m3. split.
  - unfold fetch, prefetch. rewrite Hc. rewrite (bind_step _ _ _ _ _ Hr).
    unfold engine_or_discover. rewrite (bind_step _ _ _ _ _ Hd).
    by apply bind_throw.
  - repeat split; [congruence|congruence|].
    rewrite Hk3, <- Hext, Hsnd.
    destruct (loads env m "handlebars"); eexists; split; try reflexivity; discriminate.
Qed.

Lemma fetch_mustache_module_witness :
  exists (text : string) (m' : Machine),
    fetch Temper_supported
      (example_env ["mustache"] [("/views/a.mustache", "{{title}}")] None)
      "/views/a.mustache" None
      (fresh (example_env ["mustache"] [("/views/a.mustache", "{{title}}")] None))
    = (Throw (TypeError text), m')
    /\ heap m' = [].
Proof.
  destruct (fetch_mustache_module
              (example_env ["mustache"] [("/views/a.mustache", "{{title}}")] None)
              "/views/a.mustache" "{{title}}"
              (fresh (example_env ["mustache"] [("/views/a.mustache", "{{title}}")] None))
              (snd (read (example_env ["mustache"] [("/views/a.mustache", "{{title}}")] None)
                      "/views/a.mustache"
                      (fresh (example_env ["mustache"]
                                [("/views/a.mustache", "{{title}}")] None)))))
    as (text & m' & H & Hh & _); try reflexivity.
  exists text, m'. split; [exact H|exact Hh].
Defined.

(** ** Replacement strings *)

Lemma substitution_cons (c : ascii) (r matched before after : string) :
  Ascii.eqb c "$" = false ->
  RegExp.substitution (String c r) matched before after
  = String c (RegExp.substitution r matched before after).
Proof.
  intros Hc. destruct c as [[] [] [] [] [] [] [] []]; try reflexivity; discriminate Hc.
Qed.

Lemma substitution_append (a r matched before after : string) :
  no_dollar a = true ->
  RegExp.substitution (a +:+ r) matched before after
  = a +:+ RegExp.substitution r matched before after.
Proof.
  induction a as [|c a IH]; [done|].
  cbn [no_dollar Str.forallb]. intros [Hc Ha]%andb_true_iff.
  apply negb_true_iff in Hc. rewrite !append_cons.
  rewrite substitution_cons by done. f_equal. by apply IH.
Qed.

Lemma substitution_no_dollar (v matched before after : string) :
  no_dollar v = true -> RegExp.substitution v matched before after = v.
Proof.
  intros H. rewrite <- (append_nil_r v) at 1.
  rewrite substitution_append by done. apply append_nil_r.
Qed.


Lemma lookup_property_key (key : string) (ps : list Property) (p : Property) :
  lookup_property key ps = Some p -> p_key p = key.
Proof.
  induction ps as [|q ps IH]; [done|]. cbn [lookup_property].
  destruct (String.eqb_spec key (p_key q)) as [->|_]; [by intros [= ->]|exact IH].
Qed.

Lemma lookup_property_In (key : string) (ps : list Property) (p : Property) :
  lookup_property key ps = Some p -> In p ps.
Proof.
  induction ps as [|q ps IH]; [done|]. cbn [lookup_property].
  destruct (String.eqb key (p_key q)); [intros [= ->]; by left|].
  intros H. right. by apply IH.
Qed.



(** ** [transform] *)

Lemma replace_first_from_unfold (pattern replacement before s : string) :
  RegExp.replace_first_from pattern replacement before s
  = if String.prefix pattern s
    then RegExp.substitution replacement pattern before
           (Str.drop (String.length pattern) s)
         +:+ Str.drop (String.length pattern) s
    else match s with
         | EmptyString => EmptyString
         | String c rest =>
             String c (RegExp.replace_first_from pattern replacement
                         (before +:+ String c EmptyString) rest)
         end.
Proof. by destruct s. Qed.

Lemma replace_first_absent (pattern replacement : string) :
  forall s before : string,
    Str.includes pattern s = false ->
    RegExp.replace_first_from pattern replacement before s = s.
Proof.
  induction s as [|c s IH]; intros before; rewrite includes_unfold;
    intros [Hp Hs]%orb_false_iff; rewrite replace_first_from_unfold, Hp; [done|].
  f_equal. by apply IH.
Qed.

(** X16: [transform] renames the first [function anonymous] of the text
    and nothing else.  A text without it is returned as it is; a text that
    starts with it gets the name in its place, the rest (a later
    [function anonymous] too) staying as it is, when the name has no dollar
    sign; and since the name is handed to [replace] as a replacement
    string, a pair of dollar signs in it comes out as one. *)
Theorem transform_renames_first (rest : string) :
  (forall (text : string) (name : option string),
     Str.includes "function anonymous" text = false -> transform text name = text)
  /\ (forall name : option string,
        no_dollar (to_string name) = true ->
        transform ("function anonymous" +:+ rest) name
        = "function " +:+ to_string name +:+ rest)
  /\ (forall a b : string,
        no_dollar a = true -> no_dollar b = true ->
        transform ("function anonymous" +:+ rest) (Some (a +:+ "$$" +:+ b))
        = "function " +:+ a +:+ "$" +:+ b +:+ rest).
Proof.
  repeat split.
  - intros text name H. unfold transform, RegExp.replace_first.
    by apply replace_first_absent.
  - intros name Hname. unfold transform. rewrite replace_first_at_start.
    rewrite substitution_no_dollar.
    + by rewrite <- append_assoc.
    + unfold no_dollar in *. by rewrite forallb_append, Hname.
  - intros a b Ha Hb. unfold transform. rewrite replace_first_at_start.
    cbn [to_string].
    rewrite <- (append_assoc "function " a), substitution_append.
    + change ("$$" +:+ b) with (String "$" (String "$" b)).
      change (RegExp.substitution (String "$" (String "$" b)) ?m ?x ?y)
        with (String "$" (RegExp.substitution b m x y)).
      rewrite substitution_no_dollar by done.
      rewrite !append_assoc. reflexivity.
    + unfold no_dollar in *. by rewrite forallb_append, Ha.
Qed.

Lemma transform_renames_first_witness :
  transform "function render(data) { return 1; }" (Some "page")
  = "function render(data) { return 1; }"
  /\ transform ("function anonymous" +:+ "(locals) { function anonymous() {} }")
       (Some "page")
     = "function " +:+ to_string (Some "page") +:+ "(locals) { function anonymous() {} }"
  /\ transform ("function anonymous" +:+ "(locals) {}") (Some ("a" +:+ "$$" +:+ "b"))
     = "function " +:+ "a" +:+ "$" +:+ "b" +:+ "(locals) {}".
Proof.
  split; [|split].
  - apply (transform_renames_first EmptyString). reflexivity.
  - apply (transform_renames_first "(locals) { function anonymous() {} }"). reflexivity.
  - apply (transform_renames_first "(locals) {}"); reflexivity.
Defined.

(** ** Names that are no identifiers *)

Lemma digit_is_plain (c : ascii) : Str.is_digit c = true -> is_plain_name_char c = true.
Proof. destruct c as [[] [] [] [] [] [] [] []]; vm_compute; congruence. Qed.

Lemma digit_is_identifier_char (c : ascii) :
  Str.is_digit c = true -> is_identifier_char c = true.
Proof.
  intros H. unfold is_identifier_char, Str.is_word. rewrite H.
  by rewrite orb_true_r.
Qed.

Lemma drop_while_append (p : ascii -> bool) (a : string) (c : ascii) (rest : string) :
  Str.forallb p a = true -> p c = false ->
  Str.drop_while p (a +:+ String c rest) = String c rest.
Proof.
  intros Ha Hc. induction a as [|d a IH].
  - by apply drop_while_first.
  - cbn [Str.forallb] in Ha. apply andb_true_iff in Ha as [Hd Ha].
    rewrite append_cons. cbn [Str.drop_while]. rewrite Hd. by apply IH.
Qed.

(** X17: [normalizeName] removes the digits in front of the base name
    only: for a base name that is digits, then a character that is no
    digit, then more, the name is made of that character and what follows
    it.  So when that character is one that is removed and a digit
    follows it, the name starts with a digit and is no identifier. *)
Theorem normalizeName_keeps_later_digits (dir digits body ext : string) (c : ascii) :
  Str.forallb Str.is_digit digits = true ->
  Str.is_digit c = false ->
  is_plain_name_char c = true ->
  Str.forallb is_plain_name_char body = true ->
  Str.forallb is_plain_name_char ext = true ->
  normalizeName (dir +:+ "/" +:+ (digits +:+ String c body) +:+ "." +:+ ext)
  = Str.filter is_identifier_char (String c body)
  /\ (is_identifier_char c = false ->
      forall (d : ascii) (rest : string),
        body = String d rest -> Str.is_digit d = true ->
        normalizeName (dir +:+ "/" +:+ (digits +:+ String c body) +:+ "." +:+ ext)
        = String d (Str.filter is_identifier_char rest)
        /\ is_identifier
             (normalizeName (dir +:+ "/" +:+ (digits +:+ String c body) +:+ "." +:+ ext))
           = false).
Proof.
  intros Hdigits Hc Hplain Hbody Hext.
  assert (normalizeName (dir +:+ "/" +:+ (digits +:+ String c body) +:+ "." +:+ ext)
          = Str.filter is_identifier_char (String c body)) as Hname.
  { destruct (basename_without_extname dir (digits +:+ String c body) ext) as [He Hb].
    - by destruct digits.
    - rewrite forallb_append. cbn [Str.forallb]. rewrite Hplain, Hbody.
      rewrite (forallb_weaken _ _ digits digit_is_plain Hdigits). done.
    - done.
    - unfold normalizeName, remove_invalid_chars, remove_leading_numbers.
      rewrite He, Hb. by rewrite drop_while_append. }
  split; [exact Hname|]. intros Hid d rest -> Hd. rewrite Hname.
  cbn [Str.filter]. rewrite Hid, (digit_is_identifier_char d Hd).
  split; [done|]. cbn [is_identifier]. by rewrite Hd.
Qed.

Lemma normalizeName_keeps_later_digits_witness :
  normalizeName ("/views" +:+ "/" +:+ ("2024" +:+ String "-" "01report") +:+ "." +:+ "html")
  = Str.filter is_identifier_char (String "-" "01report")
  /\ normalizeName "/views/2024-01report.html" = "01report".
Proof.
  split; [|reflexivity].
  apply (normalizeName_keeps_later_digits "/views" "2024" "01report" "html" "-");
    reflexivity.
Defined.

(** ** The library of an artifact *)

Lemma engine_directory_ok (env : Env) (engine directory : string) (m m' : Machine) :
  engine_directory env engine m = (Ok directory, m') ->
  exists resolved, require_resolve env engine = Ok resolved
                   /\ directory = path_dirname env resolved.
Proof.
  unfold engine_directory, bind, lift, ret.
  destruct (require_resolve env engine) as [resolved|]; [|intros [=]].
  intros [= <- _]. eauto.
Qed.

(** The path of the library that the [switch] of [compile] answers. *)
Lemma compile_switch_library (env : Env) (compiler : option Compiler) (template : string)
    (options : CompileOptions) (m m' : Machine)
    (srv : Server) (cl : Value) (lib : option string) :
  compile_switch env compiler template options m = (Ok (srv, cl, lib), m') ->
  (mem (o_engine options) ["ejs"; "react-jsx"; "html"] = true -> lib = None)
  /\ (forall parts,
        In (o_engine options, parts) library_parts ->
        exists resolved,
          require_resolve env (o_engine options) = Ok resolved
          /\ lib = Some (path_join env (path_dirname env resolved :: parts))).
Proof.
  unfold compile_switch. cbv zeta.
  destruct (String.eqb_spec (o_engine options) "hogan.js") as [->|N1].
  { intros H.
    apply bind_ok in H as (v1 & m1 & _ & H). apply bind_ok in H as (v2 & m2 & _ & H).
    apply bind_ok in H as (d & m3 & Hd & H). injection H as _ _ <- _.
    apply engine_directory_ok in Hd as (resolved & Hres & ->).
    split; [discriminate|]. intros parts [[= <-]|[[=]|[[=]|[]]]]. eauto. }
  destruct (String.eqb_spec (o_engine options) "handlebars") as [->|N2].
  { intros H.
    apply bind_ok in H as (v1 & m1 & _ & H). apply bind_ok in H as (v2 & m2 & _ & H).
    apply bind_ok in H as (d & m3 & Hd & H). injection H as _ _ <- _.
    apply engine_directory_ok in Hd as (resolved & Hres & ->).
    split; [discriminate|]. intros parts [[=]|[[= <-]|[[=]|[]]]]. eauto. }
  destruct (String.eqb_spec (o_engine options) "ejs") as [->|N3].
  { intros H.
    apply bind_ok in H as (v1 & m1 & _ & H). apply bind_ok in H as (v2 & m2 & _ & H).
    apply bind_ok in H as (v3 & m3 & _ & H). injection H as _ _ <- _.
    split; [done|]. intros parts [[=]|[[=]|[[=]|[]]]]. }
  destruct (String.eqb_spec (o_engine options) "jade") as [->|N4].
  { intros H.
    apply bind_ok in H as (v1 & m1 & _ & H). apply bind_ok in H as (v2 & m2 & _ & H).
    apply bind_ok in H as (v3 & m3 & _ & H).
    apply bind_ok in H as (d & m4 & Hd & H). injection H as _ _ <- _.
    apply engine_directory_ok in Hd as (resolved & Hres & ->).
    split; [discriminate|]. intros parts [[=]|[[=]|[[= <-]|[]]]]. eauto. }
  destruct (String.eqb_spec (o_engine options) "react-jsx") as [->|N5].
  { intros H.
    apply bind_ok in H as (v1 & m1 & _ & H). apply bind_ok in H as (v2 & m2 & _ & H).
    apply bind_ok in H as (v3 & m3 & _ & H). injection H as _ _ <- _.
    split; [done|]. intros parts [[=]|[[=]|[[=]|[]]]]. }
  destruct (String.eqb_spec (o_engine options) "html") as [->|N6].
  { intros H. injection H as _ _ <- _.
    split; [done|]. intros parts [[=]|[[=]|[[=]|[]]]]. }
  intros H. injection H as _ _ <- _. split; [done|].
  intros parts [[= E _]|[[= E _]|[[= E _]|[]]]]; congruence.
Qed.

Lemma read_ok_cached (env : Env) (path content : string) (m m' : Machine) :
  read env path m = (Ok content, m') -> file (this m') !! path = Some content.
Proof.
  unfold read. destruct (file (this m) !! path) eqn:Hf.
  - by intros [= <- <-].
  - destruct (readFileSync env path); [|intros [=]].
    intros [= <- <-]. simpl. apply lookup_insert_eq.
Qed.

(** X18: the library of an artifact.  For [ejs], [react-jsx] and [html]
    it is the empty string.  For [hogan.js], [handlebars] and [jade] it is
    the content of the client-side runtime of the engine, a file next to
    the module that [require.resolve] finds for the engine, read through
    [read]: after the call the file cache holds it under that path. *)
Theorem compile_library (env : Env) (template : string) (options : CompileOptions)
    (m m' : Machine) (reference : nat) :
  compile env template options m = (Ok reference, m') ->
  exists a : Artifact,
    heap m' !! reference = Some {| artifact := a; expando := ∅ |}
    /\ (mem (o_engine options) ["ejs"; "react-jsx"; "html"] = true ->
        library a = EmptyString)
    /\ (forall parts : list string,
          In (o_engine options, parts) library_parts ->
          exists resolved : string,
            require_resolve env (o_engine options) = Ok resolved
            /\ (if String.eqb (path_join env (path_dirname env resolved :: parts))
                     EmptyString
                then library a = EmptyString
                else file (this m')
                       !! path_join env (path_dirname env resolved :: parts)
                     = Some (library a))).
Proof.
  unfold compile. intros H.
  apply bind_ok in H as (compiler & m1 & H1 & H).
  apply bind_ok in H as ([[srv cl] lib] & m2 & H2 & H).
  apply bind_ok in H as (lib_text & m3 & H3 & H).
  apply bind_ok in H as (h1 & m4 & H4 & H).
  apply bind_ok in H as (h2 & m5 & H5 & H).
  apply bind_ok in H as (h3 & m6 & H6 & H).
  apply hash_of_ok in H4 as (-> & _). apply hash_of_ok in H5 as (-> & _).
  apply hash_of_ok in H6 as (-> & _).
  unfold allocate in H. injection H as <- <-.
  apply compile_switch_library in H2 as [Hnone Hsome].
  eexists. split; [apply list_lookup_middle; reflexivity|]. cbn [library this].
  split.
  - intros Hmem. rewrite (Hnone Hmem) in H3. by injection H3 as <- _.
  - intros parts Hin. destruct (Hsome parts Hin) as (resolved & Hres & ->).
    exists resolved. split; [done|].
    destruct (path_join env (path_dirname env resolved :: parts)) as [|c p] eqn:Hp.
    + cbn. by injection H3 as <- _.
    + cbn [String.eqb]. by apply read_ok_cached in H3.
Qed.

Lemma compile_library_witness :
  exists a : Artifact,
    heap (snd (compile
                 (example_env ["handlebars"]
                    [("/node_modules/handlebars/index.js/../dist/handlebars.runtime.js",
                      "runtime")] None)
                 "{{title}}"
                 {| o_engine := "handlebars"; o_name := Some "page";
                    o_filename := "page.hbs"; o_debug := AUndefined |}
                 (fresh (example_env ["handlebars"]
                    [("/node_modules/handlebars/index.js/../dist/handlebars.runtime.js",
                      "runtime")] None)))) !! 0
    = Some {| artifact := a; expando := ∅ |}
    /\ library a = "runtime".
Proof.
  destruct (compile_library
              (example_env ["handlebars"]
                 [("/node_modules/handlebars/index.js/../dist/handlebars.runtime.js",
                   "runtime")] None)
              "{{title}}"
              {| o_engine := "handlebars"; o_name := Some "page";
                 o_filename := "page.hbs"; o_debug := AUndefined |}
              (fresh (example_env ["handlebars"]
                 [("/node_modules/handlebars/index.js/../dist/handlebars.runtime.js",
                   "runtime")] None))
              (snd (compile
                 (example_env ["handlebars"]
                    [("/node_modules/handlebars/index.js/../dist/handlebars.runtime.js",
                      "runtime")] None)
                 "{{title}}"
                 {| o_engine := "handlebars"; o_name := Some "page";
                    o_filename := "page.hbs"; o_debug := AUndefined |}
                 (fresh (example_env ["handlebars"]
                    [("/node_modules/handlebars/index.js/../dist/handlebars.runtime.js",
                      "runtime")] None))))
              0) as (a & Ha & _ & Hlib).
  - vm_compute. reflexivity.
  - exists a. split; [exact Ha|].
    destruct (Hlib [".."; "dist"; "handlebars.runtime.js"]) as (resolved & Hres & Hfile).
    + right. by left.
    + injection Hres as <-. vm_compute in Hfile. injection Hfile as Hfile.
      symmetry. exact Hfile.
Defined.

(** The server that the [switch] of [compile] makes for the two engines
    whose server is a function of [index.js] itself. *)
Lemma compile_switch_server (env : Env) (compiler : option Compiler) (template : string)
    (options : CompileOptions) (m m' : Machine)
    (srv : Server) (cl : Value) (lib : option string) :
  compile_switch env compiler template options m = (Ok (srv, cl, lib), m') ->
  (o_engine options = "hogan.js" -> exists v, srv = HoganServer v)
  /\ (o_engine options = "html" -> srv = HtmlServer template).
Proof.
  unfold compile_switch. cbv zeta.
  destruct (String.eqb_spec (o_engine options) "hogan.js") as [->|N1].
  { intros H.
    apply bind_ok in H as (v1 & m1 & _ & H). apply bind_ok in H as (v2 & m2 & _ & H).
    apply bind_ok in H as (d & m3 & _ & H). injection H as <- _ _ _.
    split; [eauto|discriminate]. }
  split; [done|]. intros E. rewrite E in H.
  change (String.eqb "html" "handlebars") with false in H.
  change (String.eqb "html" "ejs") with false in H.
  change (String.eqb "html" "jade") with false in H.
  change (String.eqb "html" "react-jsx") with false in H.
  change (String.eqb "html" "html") with true in H.
  cbv beta iota in H. by injection H as <- _ _ _.
Qed.

(** X19: the hash of the server says nothing about the template for
    [html] and [hogan.js]: there the server is a function written in
    [index.js] that closes over the template, [hash] digests its text, and
    the text is the same for every template, file and name.  The hash of
    the client of an [html] artifact is the digest of the client script. *)
Theorem server_hash_ignores_template (env : Env) (template : string)
    (options : CompileOptions) (m m' : Machine) (reference : nat) :
  compile env template options m = (Ok reference, m') ->
  exists a : Artifact,
    heap m' !! reference = Some {| artifact := a; expando := ∅ |}
    /\ (o_engine options = "hogan.js" ->
        hash_server (hash a) = md5_hex env hogan_render_source)
    /\ (o_engine options = "html" ->
        hash_server (hash a) = md5_hex env html_render_source
        /\ hash_client (hash a) = md5_hex env (html_client template (o_name options))).
Proof.
  unfold compile. intros H.
  apply bind_ok in H as (compiler & m1 & H1 & H).
  apply bind_ok in H as ([[srv cl] lib] & m2 & H2 & H).
  apply bind_ok in H as (lib_text & m3 & H3 & H).
  apply bind_ok in H as (h1 & m4 & H4 & H).
  apply bind_ok in H as (h2 & m5 & H5 & H).
  apply bind_ok in H as (h3 & m6 & H6 & H).
  apply hash_of_ok in H4 as (-> & _).
  apply hash_of_ok in H5 as (-> & t2 & Ht2 & ->).
  apply hash_of_ok in H6 as (-> & t3 & Ht3 & ->).
  unfold allocate in H. injection H as <- <-.
  pose proof (compile_switch_server _ _ _ _ _ _ _ _ _ H2) as [Hhogan Hhtml].
  eexists. split; [apply list_lookup_middle; reflexivity|]. cbn [hash hash_server hash_client].
  split.
  - intros E. destruct (Hhogan E) as [v ->]. by injection Ht3 as <-.
  - intros E. rewrite (Hhtml E) in Ht3. injection Ht3 as <-. split; [done|].
    revert H2. unfold compile_switch. cbv zeta. rewrite E.
    change (String.eqb "html" "hogan.js") with false.
    change (String.eqb "html" "handlebars") with false.
    change (String.eqb "html" "ejs") with false.
    change (String.eqb "html" "jade") with false.
    change (String.eqb "html" "react-jsx") with false.
    change (String.eqb "html" "html") with true.
    cbv beta iota. intros [= _ <- _ _]. by injection Ht2 as <-.
Qed.

Lemma server_hash_ignores_template_witness :
  exists a : Artifact,
    heap (snd (compile example_page_env "<h1>{key}</h1>"
                 (html_options (Some "page") "/views/page.html" AUndefined)
                 example_caching_machine)) !! 0
    = Some {| artifact := a; expando := ∅ |}
    /\ hash_server (hash a) = md5_hex example_page_env html_render_source.
Proof.
  destruct (server_hash_ignores_template example_page_env "<h1>{key}</h1>"
              (html_options (Some "page") "/views/page.html" AUndefined)
              example_caching_machine
              (snd (compile example_page_env "<h1>{key}</h1>"
                      (html_options (Some "page") "/views/page.html" AUndefined)
                      example_caching_machine)) 0) as (a & Ha & _ & Hhtml).
  - vm_compute. reflexivity.
  - exists a. split; [exact Ha|]. by apply Hhtml.
Defined.

(** ** The rounds of [html] on plain records *)

Lemma lookup_property_same (key : string) (own own' : list Property) :
  NoDup (map p_key own) -> NoDup (map p_key own') ->
  (forall p, In p own <-> In p own') ->
  lookup_property key own' = lookup_property key own.
Proof.
  intros Hn Hn' Hsame.
  destruct (lookup_property key own) as [p|] eqn:Hp.
  - pose proof (lookup_property_key _ _ _ Hp) as <-.
    apply lookup_property_member; [done|]. apply Hsame. by eapply lookup_property_In.
  - destruct (lookup_property key own') as [p'|] eqn:Hp'; [|done].
    pose proof (lookup_property_key _ _ _ Hp') as <-.
    apply lookup_property_In, Hsame in Hp'.
    apply (lookup_property_member _ _ Hn) in Hp'. congruence.
Qed.

Lemma substitute_segment_well_formed (data : JsObject) (seg : Segment) :
  plain_record data = true ->
  well_formed_segment seg = true ->
  well_formed_segment (substitute_segment data seg) = true
  /\ substitute_segment data (substitute_segment data seg) = substitute_segment data seg.
Proof.
  unfold plain_record. intros [Hplain _]%andb_true_iff Hwf.
  destruct seg as [s|key]; [done|]. cbn [substitute_segment]. unfold value_of.
  destruct (lookup_property key (own_properties data)) as [p|] eqn:Hp.
  - destruct (p_enumerable p) eqn:He.
    + split; [|done]. cbn [well_formed_segment].
      apply lookup_property_In in Hp. rewrite forallb_forall in Hplain.
      specialize (Hplain p Hp). unfold plain_property in Hplain. rewrite He in Hplain.
      cbn [negb orb] in Hplain. by apply andb_true_iff in Hplain as [_ ?].
    + split; [done|]. cbn [substitute_segment]. unfold value_of. by rewrite Hp, He.
  - split; [done|]. cbn [substitute_segment]. unfold value_of. by rewrite Hp.
Qed.

(** X20: on a template in which every opening brace starts a
    placeholder and a record with distinct plain keys and no opening brace
    in a value, the outcome of [html] does not depend on the order in which
    the properties of the record are enumerated, and handing the outcome to
    [html] again with the same record changes nothing. *)
Theorem html_plain_rounds (segs : list Segment) (data data' : JsObject) :
  well_formed_template segs = true ->
  plain_record data = true ->
  plain_record data' = true ->
  (forall p, In p (own_properties data) <-> In p (own_properties data')) ->
  html (render segs) data' = html (render segs) data
  /\ (forall out : string,
        html (render segs) data = Returns out -> html out data = Returns out).
Proof.
  intros Hwf Hplain Hplain' Hsame. rewrite !html_substitutes by done. split.
  - f_equal. unfold substitute_literal. f_equal. apply map_ext. intros [s|key]; [done|].
    cbn [substitute_segment]. unfold value_of.
    apply andb_true_iff in Hplain as [_ Hn]. apply bool_decide_eq_true in Hn.
    apply andb_true_iff in Hplain' as [_ Hn']. apply bool_decide_eq_true in Hn'.
    by rewrite (lookup_property_same key _ _ Hn Hn' Hsame).
  - intros out [= <-]. unfold substitute_literal.
    rewrite html_substitutes; [|idtac|done].
    + unfold substitute_literal. f_equal. f_equal. rewrite map_map.
      apply map_ext_in. intros seg Hin. apply substitute_segment_well_formed; [done|].
      unfold well_formed_template in Hwf. rewrite forallb_forall in Hwf. by apply Hwf.
    + unfold well_formed_template in *. rewrite forallb_forall in *.
      intros seg' (seg & <- & Hin)%in_map_iff.
      apply substitute_segment_well_formed; [done|by apply Hwf].
Qed.

Lemma html_plain_rounds_witness :
  html (render example_template) (object_literal [("other", "$& and $'"); ("key", "bar")])
  = html (render example_template) example_record
  /\ html "<h1>bar</h1><p>{missing}</p>" example_record
     = Returns "<h1>bar</h1><p>{missing}</p>".
Proof.
  destruct (html_plain_rounds example_template example_record
              (object_literal [("other", "$& and $'"); ("key", "bar")]))
    as [Horder Hagain].
  - reflexivity.
  - reflexivity.
  - reflexivity.
  - intros p. cbn. tauto.
  - split; [exact Horder|]. apply Hagain. vm_compute. reflexivity.
Defined.

(** * Failures and the caches *)















